(** * civic-auth-go: a shallow embedding of [pkg/civicauth]

    The development follows the Go package file by file:
    - [config.go]  : [Config], [OIDCProvider], [TokenResponse], [Claims];
    - [client.go]  : PKCE generation, state generation, [RefreshToken];
    - [tokens.go]  : the JWK cache ([getPublicKey], [jwkToRSAPublicKey]),
                     [ValidateIDToken], [IsTokenExpired], the in-memory token
                     storage and [GetValidToken].

    Go values are modelled as follows.
    - [string] is Go's [string]; [[]byte] is [list byte].
    - [int], [int64] are [Z]; where the source multiplies durations the
      64-bit wrap-around is written out ([wrap64]).
    - [map[string]T] is stdpp's [gmap string T].
    - a function returning [(T, error)] returns an [outcome T]; a call that
      does not return (a run-time panic such as a nil dereference, or the
      fatal error with which the run-time stops the program) is the third
      constructor, [Panic].
    - methods that mutate their receiver or talk to the network are written
      in a small state-and-error monad [M].
    - [time.Time] is a count of nanoseconds since the Unix epoch; [time.Unix]
      wraps around as its 64-bit count of seconds does. The clock is read
      twice while an ID token is validated, by the JWT library and by
      [ValidateIDToken] itself: the two readings are two arguments. *)

From Stdlib Require Import ZArith NArith List String Ascii Lia Bool.
From Stdlib Require Import Strings.Byte.
From Stdlib Require Import DecimalString.
From stdpp Require Import base option gmap strings list.

Import ListNotations.
Set Warnings "-register-all".
Local Open Scope string_scope.
Local Open Scope Z_scope.

(** ** Decoded JSON ([interface{}] values of a JWT header or claims map) *)

Inductive json_value : Type :=
| JNull
| JBool (b : bool)
| JNumber (literal : string)
| JString (s : string)
| JComposite (text : string).   (* an array or an object, as its JSON text *)

(** ** Errors and outcomes *)

(** Go's [error] values are built with [errors.New] and [fmt.Errorf]; the
    format string and its arguments are kept as they stand in the source, so
    that every failure path stays recognisable. A [%w] argument is [AErr]. *)
Inductive error : Type :=
| New (msg : string)
| Errorf (format : string) (args : list fmtarg)
with fmtarg : Type :=
| AStr (s : string)
| AInt (z : Z)
| AVal (v : json_value)
| AErr (e : error).

Inductive outcome (A : Type) : Type :=
| Ok (a : A)
| Err (e : error)
| Panic.

Arguments Ok {A} a.
Arguments Err {A} e.
Arguments Panic {A}.

Definition is_Err {A} (o : outcome A) : bool :=
  match o with Err _ => true | _ => false end.

(** [if err != nil { return nil, fmt.Errorf(format, err) }] *)
Definition wrap_err {A} (format : string) (o : outcome A) : outcome A :=
  match o with
  | Ok a => Ok a
  | Err e => Err (Errorf format [AErr e])
  | Panic => Panic
  end.

(** Sequencing of fallible steps without state. *)
Definition outcome_bind {A B} (o : outcome A) (k : A -> outcome B) : outcome B :=
  match o with
  | Ok a => k a
  | Err e => Err e
  | Panic => Panic
  end.

(** ** The state-and-error monad *)

Module StateErr.

Definition M (St A : Type) : Type := St -> outcome A * St.

Definition ret {St A} (a : A) : M St A := fun s => (Ok a, s).

Definition fail {St A} (e : error) : M St A := fun s => (Err e, s).

Definition bind {St A B} (m : M St A) (f : A -> M St B) : M St B :=
  fun s =>
    match m s with
    | (Ok a, s') => f a s'
    | (Err e, s') => (Err e, s')
    | (Panic, s') => (Panic, s')
    end.

Definition get {St} : M St St := fun s => (Ok s, s).

Definition modify {St} (f : St -> St) : M St unit := fun s => (Ok tt, f s).

(** Run [m]; on failure wrap its error as [fmt.Errorf(format, err)]. *)
Definition wrapping {St A} (format : string) (m : M St A) : M St A :=
  fun s => let '(o, s') := m s in (wrap_err format o, s').

(** A computation without state of its own, run inside [M]. *)
Definition lift {St A} (o : outcome A) : M St A := fun s => (o, s).

End StateErr.

Import StateErr.

Declare Scope go_scope.
Delimit Scope go_scope with go.
Notation "'let*' x ':=' m 'in' k" := (bind m (fun x => k))
  (at level 10, x pattern, m at level 100, k at level 200) : go_scope.

Notation "'let?' x ':=' o 'in' k" := (outcome_bind o (fun x => k))
  (at level 10, x pattern, o at level 100, k at level 200) : go_scope.

(** ** Time ([time.Time], [time.Duration]) *)

Definition Time : Type := Z.       (* nanoseconds since the Unix epoch *)
Definition Duration : Type := Z.   (* int64 nanoseconds *)

Definition wrap64 (z : Z) : Z := (z + 2 ^ 63) mod 2 ^ 64 - 2 ^ 63.

Definition time_Second : Duration := 1000000000.

(** The seconds from year 1, where [time.Time] starts counting, to 1970. *)
Definition unixToInternal : Z := 62135596800.

(** [time.Unix(sec, nsec)]: [nsec] is brought into the range of one second,
    and the seconds are kept as an [int64] counted from year 1, so that the
    addition of [unixToInternal] wraps around for [sec] close to the largest
    [int64]. *)
Definition time_Unix (sec nsec : Z) : Time :=
  let '(sec, nsec) :=
    if (nsec <? 0) || (1000000000 <=? nsec) then
      let n := Z.quot nsec 1000000000 in
      let sec := wrap64 (sec + n) in
      let nsec := nsec - n * 1000000000 in
      if nsec <? 0 then (wrap64 (sec - 1), nsec + 1000000000) else (sec, nsec)
    else (sec, nsec) in
  (wrap64 (sec + unixToInternal) - unixToInternal) * 1000000000 + nsec.

(** [t.Add(d)], [t.Before(u)], [t.After(u)] *)
Definition time_Add (t : Time) (d : Duration) : Time := t + d.
Definition time_Before (t u : Time) : bool := t <? u.
Definition time_After (t u : Time) : bool := u <? t.

(** ** config.go *)

(** One round trip of [http.Client.Do]. *)
Record Request : Type := {
  req_method : string;
  req_url : string;
  req_header : list (string * string);
  req_form : list (string * string)   (* the [url.Values] sent as the body *)
}.

Inductive HttpResult : Type :=
| TransportError (e : error)            (* [Do] returned an error *)
| ReadError (status : Z) (e : error)    (* [io.ReadAll(resp.Body)] failed *)
| Response (status : Z) (body : string).

(** [*http.Client]: the answer to a request may change from one round trip
    to the next, so [Do] is indexed by the number of round trips that came
    before. *)
Record http_Client : Type := {
  Do : nat -> Request -> HttpResult
}.

Record Config : Type := {
  ClientID : string;
  ClientSecret : string;
  RedirectURL : string;
  Issuer : string;
  Scopes : list string;
  HTTPClient : http_Client;
  Timeout : Duration
}.

Record OIDCProvider : Type := {
  provider_Issuer : string;
  AuthorizationEndpoint : string;
  TokenEndpoint : string;
  UserinfoEndpoint : string;
  JwksURI : string;
  EndSessionEndpoint : string
}.

Record TokenResponse : Type := {
  AccessToken : string;
  RefreshToken : string;
  IDToken : string;
  TokenType : string;
  ExpiresIn : Z;
  Scope : string
}.

(** [newTokens.RefreshToken = v] *)
Definition set_RefreshToken (v : string) (t : TokenResponse) : TokenResponse :=
  {| AccessToken := AccessToken t;
     RefreshToken := v;
     IDToken := IDToken t;
     TokenType := TokenType t;
     ExpiresIn := ExpiresIn t;
     Scope := Scope t |}.

(** [type Claims struct]; [Issuer] is [claims_Issuer] here, the name being
    taken by [Config]. *)
Record Claims : Type := {
  claims_Issuer : string;
  Subject : string;
  Audience : string;
  Expiry : Z;
  IssuedAt : Z;
  Nonce : string;
  AuthTime : Z;
  SessionState : string;
  Name : string;
  GivenName : string;
  FamilyName : string;
  MiddleName : string;
  Nickname : string;
  PreferredUsername : string;
  Profile : string;
  Picture : string;
  Website : string;
  Email : string;
  EmailVerified : bool;
  Gender : string;
  Birthdate : string;
  Zoneinfo : string;
  Locale : string;
  PhoneNumber : string;
  PhoneVerified : bool;
  UpdatedAt : Z
}.

(** ** client.go: [Client] *)

Record Client : Type := {
  config : Config;
  provider : option OIDCProvider   (* [nil] until discovery succeeded *)
}.

Definition http_StatusOK : Z := 200.

(** ** Go's standard library, as far as [client.go] computes with it *)

(** *** [encoding/base64]: [RawURLEncoding.EncodeToString] *)

Module base64.

Local Open Scope N_scope.

(** [encodeURL], the alphabet of [URLEncoding]. *)
Definition encodeURL : string :=
  "ABCDEFGHIJKLMNOPQRSTUVWXYZabcdefghijklmnopqrstuvwxyz0123456789-_".

(** [enc.encode[i]] *)
Definition encode_at (i : N) : ascii :=
  nth (N.to_nat i) (list_ascii_of_string encodeURL) "A"%char.

(** [Encoding.Encode] without padding: full groups of three bytes give
    four characters; a remainder of one or two bytes gives two or three. *)
Fixpoint Encode (src : list byte) : list ascii :=
  match src with
  | [] => []
  | [b0] =>
      let val := N.shiftl (Byte.to_N b0) 16 in
      [encode_at (N.land (N.shiftr val 18) 63);
       encode_at (N.land (N.shiftr val 12) 63)]
  | [b0; b1] =>
      let val := N.lor (N.shiftl (Byte.to_N b0) 16)
                       (N.shiftl (Byte.to_N b1) 8) in
      [encode_at (N.land (N.shiftr val 18) 63);
       encode_at (N.land (N.shiftr val 12) 63);
       encode_at (N.land (N.shiftr val 6) 63)]
  | b0 :: b1 :: b2 :: rest =>
      let val := N.lor (N.lor (N.shiftl (Byte.to_N b0) 16)
                              (N.shiftl (Byte.to_N b1) 8))
                       (Byte.to_N b2) in
      encode_at (N.land (N.shiftr val 18) 63)
      :: encode_at (N.land (N.shiftr val 12) 63)
      :: encode_at (N.land (N.shiftr val 6) 63)
      :: encode_at (N.land val 63)
      :: Encode rest
  end.

Definition RawURLEncoding_EncodeToString (src : list byte) : string :=
  string_of_list_ascii (Encode src).

End base64.

(** *** [crypto/sha256]: [Sum256] (FIPS 180-4) *)

Module sha256.

Local Open Scope N_scope.

Definition w32 (x : N) : N := x mod 2 ^ 32.
Definition add32 (x y : N) : N := w32 (x + y).
Definition rotr (n x : N) : N :=
  w32 (N.lor (N.shiftr x n) (N.shiftl x (32 - n))).
Definition not32 (x : N) : N := N.lxor x (2 ^ 32 - 1).

Definition Ch (x y z : N) : N := N.lxor (N.land x y) (N.land (not32 x) z).
Definition Maj (x y z : N) : N :=
  N.lxor (N.lxor (N.land x y) (N.land x z)) (N.land y z).
Definition Sigma0 (x : N) : N :=
  N.lxor (N.lxor (rotr 2 x) (rotr 13 x)) (rotr 22 x).
Definition Sigma1 (x : N) : N :=
  N.lxor (N.lxor (rotr 6 x) (rotr 11 x)) (rotr 25 x).
Definition sigma0 (x : N) : N :=
  N.lxor (N.lxor (rotr 7 x) (rotr 18 x)) (N.shiftr x 3).
Definition sigma1 (x : N) : N :=
  N.lxor (N.lxor (rotr 17 x) (rotr 19 x)) (N.shiftr x 10).

(** The constants are not tabulated but computed as FIPS 180-4 defines
    them: the round constants are the first 32 bits of the fractional parts
    of the cube roots of the first 64 primes, the initial hash value those of
    the square roots of the first 8 primes. *)
Definition is_prime (n : nat) : bool :=
  forallb (fun d => negb (n mod d =? 0)%nat) (seq 2 (n - 2)).

Definition primes : list N :=
  map N.of_nat (filter is_prime (seq 2 310)).

(** The largest [r + x] with [x < 2 ^ k] whose cube is at most [n]. *)
Fixpoint cube_root_from (k : nat) (n r : N) : N :=
  match k with
  | O => r
  | Datatypes.S k' =>
      let r' := r + 2 ^ N.of_nat k' in
      if r' * r' * r' <=? n then cube_root_from k' n r'
      else cube_root_from k' n r
  end.

Definition K : list N :=
  map (fun p => w32 (cube_root_from 36 (p * 2 ^ 96) 0)) primes.

Definition init : list N :=
  map (fun p => w32 (N.sqrt (p * 2 ^ 64))) (firstn 8 primes).

Definition byte_of_N (n : N) : byte :=
  match Byte.of_N (n mod 256) with Some b => b | None => x00 end.

(** Big-endian bytes of a value, [k] of them. *)
Fixpoint be_bytes (k : nat) (x : N) : list byte :=
  match k with
  | O => []
  | Datatypes.S k' => byte_of_N (N.shiftr x (8 * N.of_nat k')) :: be_bytes k' x
  end.

Definition be_word (bs : list byte) : N :=
  fold_left (fun acc b => acc * 256 + Byte.to_N b) bs 0.

(** The message followed by 0x80, zeros up to 56 mod 64, and the bit length
    on eight bytes. *)
Definition pad (msg : list byte) : list byte :=
  let len := List.length msg in
  let zeros := ((55 + 64 - len mod 64) mod 64)%nat in
  msg ++ x80 :: repeat x00 zeros ++ be_bytes 8 (8 * N.of_nat len).

(** Cut into [n] pieces of [size] elements. *)
Fixpoint chunks {A} (size n : nat) (l : list A) : list (list A) :=
  match n with
  | O => []
  | Datatypes.S n' => firstn size l :: chunks size n' (skipn size l)
  end.

(** The message schedule: sixteen words of the block, extended to 64. *)
Fixpoint extend (k : nat) (w : list N) : list N :=
  match k with
  | O => w
  | Datatypes.S k' =>
      let t := List.length w in
      let at_ i := nth (t - i) w 0 in
      extend k'
        (w ++ [add32 (add32 (sigma1 (at_ 2%nat)) (at_ 7%nat))
                     (add32 (sigma0 (at_ 15%nat)) (at_ 16%nat))])
  end.

Definition schedule (block : list byte) : list N :=
  extend 48 (map be_word (chunks 4 16 block)).

Definition round (st : list N) (kw : N * N) : list N :=
  match st with
  | [a; b; c; d; e; f; g; h] =>
      let t1 := add32 (add32 (add32 h (Sigma1 e)) (add32 (Ch e f g) (fst kw)))
                      (snd kw) in
      let t2 := add32 (Sigma0 a) (Maj a b c) in
      [add32 t1 t2; a; b; c; add32 d t1; e; f; g]
  | _ => st
  end.

Definition compress (h : list N) (block : list byte) : list N :=
  let st := fold_left round (combine K (schedule block)) h in
  map (fun p => add32 (fst p) (snd p)) (combine h st).

Definition Sum256 (data : list byte) : list byte :=
  let p := pad data in
  let blocks := chunks 64 (List.length p / 64) p in
  flat_map (be_bytes 4) (fold_left compress blocks init).

End sha256.

(** *** [crypto/rand]: [rand.Read] *)

(** The entropy source either fails (with the error [e]) or delivers as
    many bytes as the buffer holds. *)
Inductive rand_Reader : Type :=
| RandUnavailable (e : error)
| RandBytes (stream : nat -> byte).

(** [rand.Read(b)]. With the Go version the module declares (go 1.24.6)
    [rand.Read] never returns an error: when the source fails, the run-time
    stops the program with a fatal error, and the call does not return. *)
Definition rand_Read (r : rand_Reader) (n : nat) : outcome (list byte) :=
  match r with
  | RandUnavailable e => Panic
  | RandBytes stream => Ok (map stream (seq 0 n))
  end.

(** ** client.go: PKCE and state generation *)

(** [func generateCodeChallenge() (codeVerifier, codeChallenge string, err error)] *)
Definition generateCodeChallenge (r : rand_Reader) : outcome (string * string) :=
  match rand_Read r 32 with
  | Err err => Err err
  | Panic => Panic
  | Ok b =>
      let codeVerifier := base64.RawURLEncoding_EncodeToString b in
      let h := sha256.Sum256 (list_byte_of_string codeVerifier) in
      let codeChallenge := base64.RawURLEncoding_EncodeToString h in
      Ok (codeVerifier, codeChallenge)
  end.

(** [func generateState() (string, error)] *)
Definition generateState (r : rand_Reader) : outcome string :=
  match rand_Read r 16 with
  | Err err => Err err
  | Panic => Panic
  | Ok b => Ok (base64.RawURLEncoding_EncodeToString b)
  end.

(** The characters a PKCE verifier or a state value may be made of
    (RFC 7636, 4.1: ALPHA / DIGIT / "-" / "." / "_" / "~"). *)
Definition url_safe_char (c : ascii) : bool :=
  let n := nat_of_ascii c in
  ((65 <=? n) && (n <=? 90) || (97 <=? n) && (n <=? 122)
   || (48 <=? n) && (n <=? 57)
   || (n =? 45) || (n =? 46) || (n =? 95) || (n =? 126))%nat.

Definition url_safe (s : string) : bool :=
  forallb url_safe_char (list_ascii_of_string s).

(** Hexadecimal rendering of bytes, for test vectors. *)
Definition hex_digit (n : N) : ascii :=
  nth (N.to_nat n) (list_ascii_of_string "0123456789abcdef") "0"%char.

Definition hex (bs : list byte) : string :=
  string_of_list_ascii
    (flat_map (fun b => [hex_digit (Byte.to_N b / 16);
                         hex_digit (Byte.to_N b mod 16)%N]) bs).

Local Open Scope go_scope.

Section ClientGo.

(** [net/http] and [encoding/json], outside the package: whether a request
    can be built for a method and URL, and the decoding of a token
    response body. *)
Variable http_NewRequest : string -> string -> option error.
Variable json_Unmarshal_TokenResponse : string -> outcome TokenResponse.

(** [c.config.HTTPClient.Do(req)] followed by [io.ReadAll(resp.Body)]; the
    state is the number of round trips made so far. *)
Definition round_trip (c : Client) (req : Request) : M nat HttpResult :=
  fun n => (Ok (Do (HTTPClient (config c)) n req), S n).

(** [func (c *Client) RefreshToken(ctx, refreshToken)] *)
Definition Client_RefreshToken (c : Client) (refreshToken : string)
  : M nat TokenResponse :=
  match provider c with
  | None => fail (Errorf "provider not initialized" [])
  | Some p =>
    let data :=
      [("grant_type", "refresh_token");
       ("client_id", ClientID (config c));
       ("client_secret", ClientSecret (config c));
       ("refresh_token", refreshToken)] in
    match http_NewRequest "POST" (TokenEndpoint p) with
    | Some err => fail (Errorf "failed to create refresh request: %w" [AErr err])
    | None =>
      let req :=
        {| req_method := "POST";
           req_url := TokenEndpoint p;
           req_header :=
             [("Content-Type", "application/x-www-form-urlencoded");
              ("Accept", "application/json")];
           req_form := data |} in
      let* resp := round_trip c req in
      match resp with
      | TransportError err =>
          fail (Errorf "refresh request failed: %w" [AErr err])
      | ReadError _ err =>
          fail (Errorf "failed to read refresh response: %w" [AErr err])
      | Response status body =>
          if negb (status =? http_StatusOK)
          then fail (Errorf "token refresh failed with status %d: %s"
                            [AInt status; AStr body])
          else lift (wrap_err "failed to decode refresh response: %w"
                              (json_Unmarshal_TokenResponse body))
      end
    end
  end.

End ClientGo.

(** ** tokens.go: [IsTokenExpired] *)

(** [time.Now()] is the argument [now]. *)
Definition IsTokenExpired (tokenResp : TokenResponse) (issuedAt now : Time)
  : bool :=
  if ExpiresIn tokenResp <=? 0 then false
  else
    let expiryTime :=
      time_Add issuedAt (wrap64 (wrap64 (ExpiresIn tokenResp) * time_Second)) in
    time_After now expiryTime.

(** ** tokens.go: token storage *)

(** [type TokenStorage interface] *)
Class TokenStorage (S : Type) : Type := {
  Store : string -> TokenResponse -> M S unit;
  Retrieve : string -> M S TokenResponse;
  Delete : string -> M S unit
}.

(** [type InMemoryTokenStorage struct { tokens map[string]*TokenResponse }] *)
Record InMemoryTokenStorage : Type := {
  tokens : gmap string TokenResponse
}.

Definition NewInMemoryTokenStorage : InMemoryTokenStorage :=
  {| tokens := ∅ |}.

Module InMemory.

Definition Store (userID : string) (t : TokenResponse)
  : M InMemoryTokenStorage unit :=
  if String.eqb userID "" then fail (New "user ID cannot be empty")
  else modify (fun s => {| tokens := <[userID := t]> (tokens s) |}).

Definition Retrieve (userID : string) : M InMemoryTokenStorage TokenResponse :=
  if String.eqb userID "" then fail (New "user ID cannot be empty")
  else
    let* s := get in
    match tokens s !! userID with
    | None => fail (New "tokens not found for user")
    | Some t => ret t
    end.

Definition Delete (userID : string) : M InMemoryTokenStorage unit :=
  if String.eqb userID "" then fail (New "user ID cannot be empty")
  else modify (fun s => {| tokens := delete userID (tokens s) |}).

End InMemory.

#[export] Instance InMemoryTokenStorage_TokenStorage
  : TokenStorage InMemoryTokenStorage :=
  {| Store := InMemory.Store;
     Retrieve := InMemory.Retrieve;
     Delete := InMemory.Delete |}.

(** ** tokens.go: [TokenRefreshManager] *)

(** The manager's client and storage; [round_trips] counts the requests its
    client has sent. *)
Record TokenRefreshManager (S : Type) : Type := {
  trm_Client : Client;
  storage : S;
  round_trips : nat
}.

Arguments trm_Client {S} _.
Arguments storage {S} _.
Arguments round_trips {S} _.

Section RefreshManager.

Variable http_NewRequest : string -> string -> option error.
Variable json_Unmarshal_TokenResponse : string -> outcome TokenResponse.

Context {S : Type} `{TokenStorage S}.

(** Run a storage method on [trm.storage]. *)
Definition on_storage {A} (m : M S A) : M (TokenRefreshManager S) A :=
  fun trm =>
    let '(o, s') := m (storage trm) in
    (o, {| trm_Client := trm_Client trm;
           storage := s';
           round_trips := round_trips trm |}).

(** Run a method of [trm.Client]. *)
Definition on_Client {A} (m : Client -> M nat A) : M (TokenRefreshManager S) A :=
  fun trm =>
    let '(o, n') := m (trm_Client trm) (round_trips trm) in
    (o, {| trm_Client := trm_Client trm;
           storage := storage trm;
           round_trips := n' |}).

(** [func (trm *TokenRefreshManager) GetValidToken(ctx, userID)] *)
Definition GetValidToken (userID : string)
  : M (TokenRefreshManager S) TokenResponse :=
  let* tokens :=
    wrapping "failed to retrieve tokens: %w" (on_storage (Retrieve userID)) in
  if negb (String.eqb (RefreshToken tokens) "") then
    let* newTokens :=
      wrapping "failed to refresh token: %w"
        (on_Client (fun c =>
           Client_RefreshToken http_NewRequest json_Unmarshal_TokenResponse
             c (RefreshToken tokens))) in
    let newTokens :=
      if String.eqb (RefreshToken newTokens) ""
      then set_RefreshToken (RefreshToken tokens) newTokens
      else newTokens in
    let* _ :=
      wrapping "failed to store refreshed tokens: %w"
        (on_storage (Store userID newTokens)) in
    ret newTokens
  else ret tokens.

End RefreshManager.

(** ** tokens.go: keys and the key-set cache *)

Record JWK : Type := {
  Kty : string;
  Use : string;
  Kid : string;
  X5t : string;
  JWK_N : string;
  JWK_E : string;
  X5c : list string
}.

Record JWKSet : Type := {
  Keys : list JWK
}.

(** [*big.Int]: [None] is the nil pointer. *)
Definition big_Int_ptr : Type := option Z.

(** [rsa.PublicKey] *)
Record rsa_PublicKey : Type := {
  rsa_N : big_Int_ptr;
  rsa_E : Z
}.

(** [new(rsa.PublicKey)]: the zero value, whose [N] is nil. *)
Definition new_rsa_PublicKey : rsa_PublicKey :=
  {| rsa_N := None; rsa_E := 0 |}.

(** The value of big-endian bytes. *)
Definition be_value (buf : list byte) : Z :=
  fold_left (fun acc b => acc * 256 + Z.of_N (Byte.to_N b)) buf 0.

(** [func (z *Int) SetBytes(buf []byte) *Int] stores into [z.abs] and
    returns [z]; on a nil receiver the store is a nil dereference. *)
Definition big_Int_SetBytes (z : big_Int_ptr) (buf : list byte)
  : outcome big_Int_ptr :=
  match z with
  | None => Panic
  | Some _ => Ok (Some (be_value buf))
  end.

(** [cert.PublicKey], of type [any]. *)
Inductive crypto_PublicKey : Type :=
| RSAPublicKey (k : rsa_PublicKey)
| OtherPublicKey.

Record x509_Certificate : Type := {
  PublicKey : crypto_PublicKey
}.

Record TokenManager : Type := {
  tm_Client : Client;
  jwkSet : option JWKSet;                  (* [nil] until the first fetch *)
  jwkCache : gmap string rsa_PublicKey;
  tm_round_trips : nat                     (* requests sent by [Client]'s HTTP client *)
}.

(** [func NewTokenManager(client *Client) *TokenManager] *)
Definition NewTokenManager (client : Client) : TokenManager :=
  {| tm_Client := client; jwkSet := None; jwkCache := ∅; tm_round_trips := 0 |}.

Definition set_jwkSet (set : JWKSet) (tm : TokenManager) : TokenManager :=
  {| tm_Client := tm_Client tm;
     jwkSet := Some set;
     jwkCache := jwkCache tm;
     tm_round_trips := tm_round_trips tm |}.

Definition set_jwkCache (kid : string) (key : rsa_PublicKey) (tm : TokenManager)
  : TokenManager :=
  {| tm_Client := tm_Client tm;
     jwkSet := jwkSet tm;
     jwkCache := <[kid := key]> (jwkCache tm);
     tm_round_trips := tm_round_trips tm |}.

Definition sent_request (tm : TokenManager) : TokenManager :=
  {| tm_Client := tm_Client tm;
     jwkSet := jwkSet tm;
     jwkCache := jwkCache tm;
     tm_round_trips := S (tm_round_trips tm) |}.

(** A method leaves [tm.Client] as it found it. *)
Definition keeps_Client {A} (m : M TokenManager A) : Prop :=
  forall tm, tm_Client (snd (m tm)) = tm_Client tm.

(** What a call of [getPublicKey] can do to the manager. On a cache hit
    nothing. On a miss the cache is left as it was, and no key is returned,
    or it gains the one entry for [kid], which is the key returned; between
    zero and two requests are sent. *)
Definition miss_effect (tm : TokenManager) (kid : string)
    (r : outcome rsa_PublicKey * TokenManager) : Prop :=
  (jwkCache (snd r) = jwkCache tm /\ (forall key, fst r <> Ok key)
   \/ exists key, fst r = Ok key
                  /\ jwkCache (snd r) = <[kid := key]> (jwkCache tm))
  /\ (tm_round_trips tm <= tm_round_trips (snd r) <= 2 + tm_round_trips tm)%nat.

(** [for _, key := range keys { if key.Kid == kid { jwk = &key; break } }] *)
Definition find_kid (kid : string) (keys : list JWK) : option JWK :=
  List.find (fun key => String.eqb (Kid key) kid) keys.

(** [http.NewRequestWithContext(ctx, "GET", tm.Client.provider.JwksURI, nil)] *)
Definition jwks_request (p : OIDCProvider) : Request :=
  {| req_method := "GET"; req_url := JwksURI p;
     req_header := []; req_form := [] |}.

Section KeySetCache.

(** Outside the package: [net/http], [encoding/json], [encoding/base64]
    decoding and [crypto/x509]. *)
Variable http_NewRequest : string -> string -> option error.
Variable json_Unmarshal_JWKSet : string -> outcome JWKSet.
Variable base64_StdEncoding_DecodeString : string -> outcome (list byte).
Variable base64_RawURLEncoding_DecodeString : string -> outcome (list byte).
Variable x509_ParseCertificate : list byte -> outcome x509_Certificate.

(** [func (tm *TokenManager) fetchJWKSet(ctx) error] *)
Definition fetchJWKSet : M TokenManager unit :=
  let* tm := get in
  match provider (tm_Client tm) with
  | None => fail (Errorf "provider not initialized" [])
  | Some p =>
    match http_NewRequest "GET" (JwksURI p) with
    | Some err => fail (Errorf "failed to create JWK request: %w" [AErr err])
    | None =>
      let req := jwks_request p in
      let resp := Do (HTTPClient (config (tm_Client tm)))
                     (tm_round_trips tm) req in
      let* _ := modify sent_request in
      match resp with
      | TransportError err =>
          fail (Errorf "failed to fetch JWK set: %w" [AErr err])
      | ReadError status err =>
          if negb (status =? http_StatusOK)
          then fail (Errorf "JWK request failed with status: %d" [AInt status])
          else fail (Errorf "failed to read JWK response: %w" [AErr err])
      | Response status body =>
          if negb (status =? http_StatusOK)
          then fail (Errorf "JWK request failed with status: %d" [AInt status])
          else
            let* jwkSet :=
              lift (wrap_err "failed to decode JWK set: %w"
                             (json_Unmarshal_JWKSet body)) in
            modify (set_jwkSet jwkSet)
      end
    end
  end.

(** The [n]-th round trip of the client, when it is a key-set request, is
    answered with status 200 and a body that decodes to [set]. *)
Definition jwks_response (c : Client) (n : nat) (set : JWKSet) : Prop :=
  exists p body,
    provider c = Some p
    /\ http_NewRequest "GET" (JwksURI p) = None
    /\ Do (HTTPClient (config c)) n (jwks_request p) = Response 200 body
    /\ json_Unmarshal_JWKSet body = Ok set.

(** [func (tm *TokenManager) jwkToRSAPublicKey(jwk *JWK)] *)
Definition jwkToRSAPublicKey (jwk : JWK) : outcome rsa_PublicKey :=
  match X5c jwk with
  | x5c0 :: _ =>
      let? certData :=
        wrap_err "failed to decode X.509 certificate: %w"
                 (base64_StdEncoding_DecodeString x5c0) in
      let? cert :=
        wrap_err "failed to parse X.509 certificate: %w"
                 (x509_ParseCertificate certData) in
      match PublicKey cert with
      | RSAPublicKey rsaKey => Ok rsaKey
      | OtherPublicKey =>
          Err (Errorf "certificate does not contain RSA public key" [])
      end
  | [] =>
      if String.eqb (JWK_N jwk) "" || String.eqb (JWK_E jwk) ""
      then Err (Errorf "JWK missing required parameters" [])
      else
        let? nBytes :=
          wrap_err "failed to decode N parameter: %w"
                   (base64_RawURLEncoding_DecodeString (JWK_N jwk)) in
        let? eBytes :=
          wrap_err "failed to decode E parameter: %w"
                   (base64_RawURLEncoding_DecodeString (JWK_E jwk)) in
        let n := new_rsa_PublicKey in
        let? nN := big_Int_SetBytes (rsa_N new_rsa_PublicKey) nBytes in
        let n := {| rsa_N := nN; rsa_E := rsa_E n |} in
        let e :=
          fold_left (fun e b => wrap64 (e * 256 + Z.of_N (Byte.to_N b)))
                    eBytes 0 in
        let n := {| rsa_N := rsa_N n; rsa_E := e |} in
        Ok n
  end.

(** [tm.jwkSet.Keys]; reading through a nil [jwkSet] is a nil dereference. *)
Definition jwkSet_Keys : M TokenManager (list JWK) :=
  let* tm := get in
  match jwkSet tm with
  | None => lift Panic
  | Some set => ret (Keys set)
  end.

(** [func (tm *TokenManager) getPublicKey(ctx, kid)] *)
Definition getPublicKey (kid : string) : M TokenManager rsa_PublicKey :=
  let* tm := get in
  match jwkCache tm !! kid with
  | Some key => ret key
  | None =>
    let* _ :=
      match jwkSet tm with
      | None => fetchJWKSet
      | Some _ => ret tt
      end in
    let* keys := jwkSet_Keys in
    let* jwk :=
      match find_kid kid keys with
      | Some jwk => ret jwk
      | None =>
          let* _ := wrapping "failed to refetch JWK set: %w" fetchJWKSet in
          let* keys := jwkSet_Keys in
          match find_kid kid keys with
          | Some jwk => ret jwk
          | None => fail (Errorf "key with kid %s not found" [AStr kid])
          end
      end in
    let* publicKey :=
      lift (wrap_err "failed to convert JWK to RSA public key: %w"
                     (jwkToRSAPublicKey jwk)) in
    let* _ := modify (set_jwkCache kid publicKey) in
    ret publicKey
  end.

End KeySetCache.

(** ** github.com/golang-jwt/jwt/v5, as far as [ValidateIDToken] calls it *)

(** The library (v5.3.0 in the module file) is not part of the package.
    [jwt_Parse] below writes down the order of its steps, which decides when
    the key function runs, and [jwt_Validator_Validate] the checks of its
    claims validator as [jwt.Parse] configures it; what the other steps
    compute (decoding, signature verification, reading a claim as a date) is
    left as parameters. *)

(** The dynamic type of [token.Method]. The RSA-PSS method embeds the RSA
    method but is a type of its own, so the type assertion of [token.Method]
    to the RSA method type holds for the first line only. *)
Inductive SigningMethod : Type :=
| SigningMethodRSA (name : string)       (* RS256, RS384, RS512 *)
| SigningMethodRSAPSS (name : string)    (* PS256, PS384, PS512 *)
| SigningMethodHMAC (name : string)      (* HS256, HS384, HS512 *)
| SigningMethodECDSA (name : string)     (* ES256, ES384, ES512 *)
| SigningMethodEd25519                   (* EdDSA *)
| signingMethodNone.                     (* none *)

Definition one_of (names : list string) (alg : string) : bool :=
  existsb (String.eqb alg) names.

(** [jwt.GetSigningMethod(alg)]: the methods the library registers. *)
Definition jwt_GetSigningMethod (alg : string) : option SigningMethod :=
  if one_of ["RS256"; "RS384"; "RS512"] alg then Some (SigningMethodRSA alg)
  else if one_of ["PS256"; "PS384"; "PS512"] alg then Some (SigningMethodRSAPSS alg)
  else if one_of ["HS256"; "HS384"; "HS512"] alg then Some (SigningMethodHMAC alg)
  else if one_of ["ES256"; "ES384"; "ES512"] alg then Some (SigningMethodECDSA alg)
  else if String.eqb alg "EdDSA" then Some SigningMethodEd25519
  else if String.eqb alg "none" then Some signingMethodNone
  else None.

(** [jwt.Token] *)
Record jwt_Token : Type := {
  Raw : string;
  Method : SigningMethod;
  Header : gmap string json_value;
  token_Claims : gmap string json_value;   (* [jwt.MapClaims] *)
  Signature : list byte;
  Valid : bool
}.

(** The three segments of a compact JWT, decoded. *)
Record jwt_segments : Type := {
  seg_header : gmap string json_value;
  seg_claims : gmap string json_value;
  seg_signing_string : string;             (* [parts[0] + "." + parts[1]] *)
  seg_signature : list byte + error
    (* [DecodeSegment(parts[2])]: the signature, or the decoding error *)
}.

(** The token as [ParseUnverified] leaves it, which [jwt.Parse] hands to the
    key function. *)
Definition unverified (tokenString : string) (method : SigningMethod)
    (seg : jwt_segments) : jwt_Token :=
  {| Raw := tokenString; Method := method; Header := seg_header seg;
     token_Claims := seg_claims seg; Signature := []; Valid := false |}.

(** The algorithm the header declares is one of RS256, RS384, RS512. *)
Definition declares_RSA (seg : jwt_segments) : bool :=
  match seg_header seg !! "alg" with
  | Some (JString alg) => one_of ["RS256"; "RS384"; "RS512"] alg
  | _ => false
  end.

(** The header names a registered algorithm and, as a string, a key id:
    what it takes for the key function to reach the key lookup. *)
Definition names_key (seg : jwt_segments) : bool :=
  match seg_header seg !! "alg", seg_header seg !! "kid" with
  | Some (JString alg), Some (JString _) =>
      match jwt_GetSigningMethod alg with Some _ => true | None => false end
  | _, _ => false
  end.

Section JWT.

Context {St : Type}.

(** Splitting and decoding the token string, [Method.Verify] and the
    library's own claims validator. *)
Variable jwt_decode : string -> outcome jwt_segments.
Variable jwt_Verify :
  SigningMethod -> string -> list byte -> rsa_PublicKey -> option error.
Variable jwt_Validate : gmap string json_value -> option error.

(** [jwt.Parse(tokenString, keyFunc)], in the order of
    [Parser.ParseWithClaims]: decode the header and the claims and look up
    the signing method from the [alg] header, decode the signature, call
    [keyFunc], verify the signature, validate the claims, set [Valid]. *)
Definition jwt_Parse (tokenString : string)
    (keyFunc : jwt_Token -> M St rsa_PublicKey) : M St jwt_Token :=
  let* seg := lift (wrap_err "token is malformed: %w" (jwt_decode tokenString)) in
  match seg_header seg !! "alg" with
  | Some (JString alg) =>
    match jwt_GetSigningMethod alg with
    | None =>
        fail (Errorf "token is unverifiable: signing method (alg) is unavailable" [])
    | Some method =>
      let token := unverified tokenString method seg in
      match seg_signature seg with
      | inr err =>
          fail (Errorf "token is malformed: could not base64 decode signature: %w"
                       [AErr err])
      | inl sig =>
        let* key :=
          wrapping "token is unverifiable: error while executing keyfunc: %w"
                   (keyFunc token) in
        match jwt_Verify method (seg_signing_string seg) sig key with
        | Some err => fail (Errorf "token signature is invalid: %w" [AErr err])
        | None =>
          match jwt_Validate (seg_claims seg) with
          | Some err => fail (Errorf "token has invalid claims: %w" [AErr err])
          | None =>
              ret {| Raw := tokenString; Method := method;
                     Header := seg_header seg; token_Claims := seg_claims seg;
                     Signature := sig; Valid := true |}
          end
        end
      end
    end
  | _ =>
      fail (Errorf "token is unverifiable: signing method (alg) is unspecified" [])
  end.

End JWT.

(** *** The claims validator of [jwt.Parse] *)

(** What [MapClaims.GetExpirationTime] and [MapClaims.GetNotBefore] find:
    no date (the claim is absent, or is the number 0), a date, or a value
    that is not a number. *)
Inductive numeric_date : Type :=
| DateAbsent
| DateAt (t : Time)
| DateInvalid (e : error).

Definition ErrTokenExpired : error := New "token is expired".
Definition ErrTokenNotValidYet : error := New "token is not valid yet".

(** [joinErrors(errs...)]: the messages are joined by a comma, and every
    error stays wrapped. *)
Definition jwt_joinErrors (errs : list error) : error :=
  Errorf (String.concat ", " (map (fun _ => "%w") errs)) (map AErr errs).

(** [verifyExpiresAt(claims, cmp, false)], without leeway: the time of the
    check has to be before [exp]. A token without [exp] passes. *)
Definition jwt_verifyExpiresAt (exp : numeric_date) (cmp : Time)
  : option error :=
  match exp with
  | DateInvalid err => Some err
  | DateAbsent => None
  | DateAt exp => if time_Before cmp exp then None else Some ErrTokenExpired
  end.

(** [verifyNotBefore(claims, cmp, false)], without leeway: the time of the
    check must not be before [nbf]. *)
Definition jwt_verifyNotBefore (nbf : numeric_date) (cmp : Time)
  : option error :=
  match nbf with
  | DateInvalid err => Some err
  | DateAbsent => None
  | DateAt nbf =>
      if negb (time_Before cmp nbf) then None else Some ErrTokenNotValidYet
  end.

Section ClaimsValidator.

(** Reading the [exp] and the [nbf] claim of a claims map as a date. *)
Variable MapClaims_GetExpirationTime : gmap string json_value -> numeric_date.
Variable MapClaims_GetNotBefore : gmap string json_value -> numeric_date.

(** [Validator.Validate(claims)] as [jwt.Parse] sets the validator up, that
    is without options: [exp] and [nbf] are checked against the clock, read
    here as [now]; [iat], audience, issuer and subject are not looked at.
    The errors found are joined. *)
Definition jwt_Validator_Validate (now : Time)
    (claims : gmap string json_value) : option error :=
  let errs :=
    (option_list
       (jwt_verifyExpiresAt (MapClaims_GetExpirationTime claims) now)
     ++ option_list
          (jwt_verifyNotBefore (MapClaims_GetNotBefore claims) now))%list in
  match errs with
  | [] => None
  | _ => Some (jwt_joinErrors errs)
  end.

End ClaimsValidator.

(** ** tokens.go: [ValidateIDToken] *)

Section Validator.

Variable http_NewRequest : string -> string -> option error.
Variable json_Unmarshal_JWKSet : string -> outcome JWKSet.
Variable base64_StdEncoding_DecodeString : string -> outcome (list byte).
Variable base64_RawURLEncoding_DecodeString : string -> outcome (list byte).
Variable x509_ParseCertificate : list byte -> outcome x509_Certificate.
Variable jwt_decode : string -> outcome jwt_segments.
Variable jwt_Verify :
  SigningMethod -> string -> list byte -> rsa_PublicKey -> option error.
Variable MapClaims_GetExpirationTime : gmap string json_value -> numeric_date.
Variable MapClaims_GetNotBefore : gmap string json_value -> numeric_date.

(** [json.Marshal(claimsMap)] and [json.Unmarshal(claimsJSON, claims)]. *)
Variable json_Marshal_MapClaims : gmap string json_value -> outcome string.
Variable json_Unmarshal_Claims : string -> outcome Claims.

Definition tm_getPublicKey : string -> M TokenManager rsa_PublicKey :=
  getPublicKey http_NewRequest json_Unmarshal_JWKSet
    base64_StdEncoding_DecodeString base64_RawURLEncoding_DecodeString
    x509_ParseCertificate.

(** The function literal passed to [jwt.Parse]. *)
Definition keyFunc (token : jwt_Token) : M TokenManager rsa_PublicKey :=
  match Header token !! "kid" with
  | Some (JString kid) =>
      let* publicKey :=
        wrapping "failed to get public key: %w" (tm_getPublicKey kid) in
      match Method token with
      | SigningMethodRSA _ => ret publicKey
      | _ =>
          fail (Errorf "unexpected signing method: %v"
                       [AVal (default JNull (Header token !! "alg"))])
      end
  | _ => fail (Errorf "token header missing kid" [])
  end.

(** [jwt.Parse(idToken, keyFunc)] with the key function above; [now_parse]
    is the value of [time.Now()] when the library validates the claims. *)
Definition tm_jwt_Parse (idToken : string) (now_parse : Time)
  : M TokenManager jwt_Token :=
  jwt_Parse jwt_decode jwt_Verify
    (jwt_Validator_Validate MapClaims_GetExpirationTime MapClaims_GetNotBefore
       now_parse)
    idToken keyFunc.

(** [func (tm *TokenManager) ValidateIDToken(ctx, idToken)]; [now_parse] is
    the value of [time.Now()] inside [jwt.Parse], [now] its value at the
    expiry check of line 249. The type assertion of [token.Claims] to
    [jwt.MapClaims] cannot fail, [jwt.Parse] building the claims as a
    [MapClaims], and has no branch here. *)
Definition ValidateIDToken (idToken : string) (now_parse now : Time)
  : M TokenManager Claims :=
  let* token :=
    wrapping "failed to parse and verify ID token: %w"
      (tm_jwt_Parse idToken now_parse) in
  if negb (Valid token) then fail (Errorf "ID token is invalid" [])
  else
    let claimsMap := token_Claims token in
    let* claimsJSON :=
      lift (wrap_err "failed to marshal claims: %w"
                     (json_Marshal_MapClaims claimsMap)) in
    let* claims :=
      lift (wrap_err "failed to unmarshal claims: %w"
                     (json_Unmarshal_Claims claimsJSON)) in
    let* tm := get in
    let cfg := config (tm_Client tm) in
    if negb (String.eqb (claims_Issuer claims) (Issuer cfg))
    then fail (Errorf "invalid issuer: expected %s, got %s"
                      [AStr (Issuer cfg); AStr (claims_Issuer claims)])
    else if negb (String.eqb (Audience claims) (ClientID cfg))
    then fail (Errorf "invalid audience: expected %s, got %s"
                      [AStr (ClientID cfg); AStr (Audience claims)])
    else if time_Before (time_Unix (Expiry claims) 0) now
    then fail (Errorf "token has expired" [])
    else ret claims.

End Validator.

(** ** client.go: the requests the client sends *)

(** The request [RefreshToken] builds for provider [p]. *)
Definition refresh_request (c : Client) (p : OIDCProvider)
    (refreshToken : string) : Request :=
  {| req_method := "POST";
     req_url := TokenEndpoint p;
     req_header :=
       [("Content-Type", "application/x-www-form-urlencoded");
        ("Accept", "application/json")];
     req_form :=
       [("grant_type", "refresh_token");
        ("client_id", ClientID (config c));
        ("client_secret", ClientSecret (config c));
        ("refresh_token", refreshToken)] |}.

(** ** [strings], [fmt] and [net/url], as far as the client computes with them *)

Module strings.

(** [strings.HasSuffix(s, suffix)] *)
Definition HasSuffix (s suffix : string) : bool :=
  let n := String.length s in
  let k := String.length suffix in
  (k <=? n)%nat && String.eqb (substring (n - k) k s) suffix.

(** [strings.TrimSuffix(s, suffix)] *)
Definition TrimSuffix (s suffix : string) : string :=
  if HasSuffix s suffix
  then substring 0 (String.length s - String.length suffix) s
  else s.

(** [strings.Join(elems, sep)] *)
Definition Join (elems : list string) (sep : string) : string :=
  String.concat sep elems.

End strings.

(** [fmt.Sprintf("%d", n)] *)
Definition fmt_d (n : Z) : string := NilZero.string_of_int (Z.to_int n).

Module url.

Definition upperhex : string := "0123456789ABCDEF".

Definition upperhex_at (n : N) : ascii :=
  nth (N.to_nat n) (list_ascii_of_string upperhex) "0"%char.

(** [escape(s, encodeQueryComponent)], one byte at a time: letters, digits
    and [-_.~] are kept, a space becomes [+], every other byte becomes [%]
    and two upper-case hexadecimal digits. *)
Definition escape_byte (c : ascii) : list ascii :=
  if url_safe_char c then [c]
  else if Ascii.eqb c " "%char then ["+"%char]
  else ["%"%char;
        upperhex_at (N.shiftr (N_of_ascii c) 4);
        upperhex_at (N.land (N_of_ascii c) 15)].

(** [url.QueryEscape(s)] *)
Definition QueryEscape (s : string) : string :=
  string_of_list_ascii (flat_map escape_byte (list_ascii_of_string s)).

(** [url.Values]: [map[string][]string]. *)
Abbreviation Values := (gmap string (list string)).

(** [v.Set(key, value)] *)
Definition Set_ (key value : string) (v : Values) : Values :=
  <[key := [value]]> v.

(** [slices.Sort(keys)] on the keys of the map. *)
Fixpoint insert_sorted (k : string) (l : list string) : list string :=
  match l with
  | [] => [k]
  | x :: rest =>
      if String.leb k x then k :: l else x :: insert_sorted k rest
  end.

Definition sorted_keys (v : Values) : list string :=
  foldr insert_sorted [] (map fst (map_to_list v)).

(** The key and value pairs in the order [Encode] writes them. *)
Definition pairs (v : Values) : list (string * string) :=
  flat_map (fun k => map (pair k) (default [] (v !! k))) (sorted_keys v).

Definition encode_pair (kv : string * string) : string :=
  QueryEscape (fst kv) ++ "=" ++ QueryEscape (snd kv).

(** [v.Encode()] *)
Definition Encode (v : Values) : string :=
  String.concat "&" (map encode_pair (pairs v)).

End url.

(** ** config.go: [DefaultConfig], [Validate] *)

(** [Config] as a caller fills it in, before [Validate] has run: the HTTP
    client may still be nil. Once [Validate] has succeeded the client is
    there and carries the configuration's [Timeout], which is what [Config]
    above stands for. *)
Record Config_unvalidated : Type := {
  given_ClientID : string;
  given_ClientSecret : string;
  given_RedirectURL : string;
  given_Issuer : string;
  given_Scopes : list string;
  given_HTTPClient : option http_Client;
  given_Timeout : Duration
}.

Definition default_Scopes : list string := ["openid"; "profile"; "email"].

Section ConfigGo.

(** [&http.Client{}], the client of [net/http] with its defaults. *)
Variable http_default_Client : http_Client.

(** [func DefaultConfig() *Config] *)
Definition DefaultConfig : Config_unvalidated :=
  {| given_ClientID := "";
     given_ClientSecret := "";
     given_RedirectURL := "";
     given_Issuer := "";
     given_Scopes := default_Scopes;
     given_HTTPClient := Some http_default_Client;
     given_Timeout := 30 * time_Second |}.

(** [func (c *Config) Validate() error]: the result is the configuration as
    the assignments leave it; an error is returned before any of them. *)
Definition Validate (c : Config_unvalidated) : outcome Config :=
  if String.eqb (given_ClientID c) ""
  then Err (Errorf "client ID is required" [])
  else if String.eqb (given_ClientSecret c) ""
  then Err (Errorf "client secret is required" [])
  else if String.eqb (given_RedirectURL c) ""
  then Err (Errorf "redirect URL is required" [])
  else if String.eqb (given_Issuer c) ""
  then Err (Errorf "issuer URL is required" [])
  else
    let scopes :=
      if (List.length (given_Scopes c) =? 0)%nat then default_Scopes
      else given_Scopes c in
    let httpClient :=
      match given_HTTPClient c with
      | None => http_default_Client
      | Some client => client
      end in
    let timeout :=
      if given_Timeout c =? 0 then 30 * time_Second else given_Timeout c in
    Ok {| ClientID := given_ClientID c;
          ClientSecret := given_ClientSecret c;
          RedirectURL := given_RedirectURL c;
          Issuer := given_Issuer c;
          Scopes := scopes;
          HTTPClient := httpClient;
          Timeout := timeout |}.

(** A validated configuration handed to [Validate] again. *)
Definition revalidate (c : Config) : Config_unvalidated :=
  {| given_ClientID := ClientID c;
     given_ClientSecret := ClientSecret c;
     given_RedirectURL := RedirectURL c;
     given_Issuer := Issuer c;
     given_Scopes := Scopes c;
     given_HTTPClient := Some (HTTPClient c);
     given_Timeout := Timeout c |}.

End ConfigGo.

(** ** client.go: discovery, authorization URL, token exchange, userinfo, logout *)

(** [type AuthCodeURLOptions struct] *)
Record AuthCodeURLOptions : Type := {
  opt_State : string;
  opt_Nonce : string;
  opt_CodeChallenge : string;
  opt_Prompt : string;
  opt_MaxAge : Z;
  opt_LoginHint : string
}.

(** [type UserInfo struct] *)
Record UserInfo : Type := {
  ui_Sub : string;
  ui_Name : string;
  ui_GivenName : string;
  ui_FamilyName : string;
  ui_MiddleName : string;
  ui_Nickname : string;
  ui_PreferredUsername : string;
  ui_Profile : string;
  ui_Picture : string;
  ui_Website : string;
  ui_Email : string;
  ui_EmailVerified : bool;
  ui_Gender : string;
  ui_Birthdate : string;
  ui_Zoneinfo : string;
  ui_Locale : string;
  ui_PhoneNumber : string;
  ui_PhoneVerified : bool;
  ui_UpdatedAt : Z
}.

(** The URL [discoverProvider] asks for. *)
Definition wellKnownURL (issuer : string) : string :=
  strings.TrimSuffix issuer "/" ++ "/.well-known/openid_configuration".

(** [params] of [GetAuthCodeURL], as the options leave it. *)
Definition authorization_params (c : Client) (opts : option AuthCodeURLOptions)
  : url.Values :=
  let params : url.Values :=
    <["response_type" := ["code"]]>
      (<["client_id" := [ClientID (config c)]]>
         (<["redirect_uri" := [RedirectURL (config c)]]>
            (<["scope" := [strings.Join (Scopes (config c)) " "]]>
               (<["response_mode" := ["query"]]> ∅)))) in
  match opts with
  | None => params
  | Some opts =>
      let params :=
        if negb (String.eqb (opt_State opts) "")
        then url.Set_ "state" (opt_State opts) params else params in
      let params :=
        if negb (String.eqb (opt_Nonce opts) "")
        then url.Set_ "nonce" (opt_Nonce opts) params else params in
      let params :=
        if negb (String.eqb (opt_CodeChallenge opts) "")
        then url.Set_ "code_challenge_method" "S256"
               (url.Set_ "code_challenge" (opt_CodeChallenge opts) params)
        else params in
      let params :=
        if negb (String.eqb (opt_Prompt opts) "")
        then url.Set_ "prompt" (opt_Prompt opts) params else params in
      let params :=
        if 0 <? opt_MaxAge opts
        then url.Set_ "max_age" (fmt_d (opt_MaxAge opts)) params else params in
      let params :=
        if negb (String.eqb (opt_LoginHint opts) "")
        then url.Set_ "login_hint" (opt_LoginHint opts) params else params in
      params
  end.

(** [func (c *Client) GetAuthCodeURL(opts *AuthCodeURLOptions) (string, error)] *)
Definition GetAuthCodeURL (c : Client) (opts : option AuthCodeURLOptions)
  : outcome string :=
  match provider c with
  | None => Err (Errorf "provider not initialized" [])
  | Some p =>
      let params := authorization_params c opts in
      let authURL := AuthorizationEndpoint p ++ "?" ++ url.Encode params in
      Ok authURL
  end.

(** [data] of [ExchangeCodeForTokens]. *)
Definition exchange_form (c : Client) (code codeVerifier : string) : url.Values :=
  let data : url.Values :=
    <["grant_type" := ["authorization_code"]]>
      (<["client_id" := [ClientID (config c)]]>
         (<["client_secret" := [ClientSecret (config c)]]>
            (<["code" := [code]]>
               (<["redirect_uri" := [RedirectURL (config c)]]> ∅)))) in
  if negb (String.eqb codeVerifier "")
  then url.Set_ "code_verifier" codeVerifier data
  else data.

(** The request [ExchangeCodeForTokens] builds for provider [p]. *)
Definition exchange_request (c : Client) (p : OIDCProvider)
    (code codeVerifier : string) : Request :=
  {| req_method := "POST";
     req_url := TokenEndpoint p;
     req_header :=
       [("Content-Type", "application/x-www-form-urlencoded");
        ("Accept", "application/json")];
     req_form := url.pairs (exchange_form c code codeVerifier) |}.

(** The request [GetUserInfo] builds for provider [p]. *)
Definition userinfo_request (p : OIDCProvider) (accessToken : string) : Request :=
  {| req_method := "GET";
     req_url := UserinfoEndpoint p;
     req_header :=
       [("Authorization", "Bearer " ++ accessToken);
        ("Accept", "application/json")];
     req_form := [] |}.

(** [func (c *Client) GetLogoutURL(postLogoutRedirectURI, idTokenHint string)] *)
Definition GetLogoutURL (c : Client) (postLogoutRedirectURI idTokenHint : string)
  : outcome string :=
  match provider c with
  | None => Err (Errorf "logout endpoint not available" [])
  | Some p =>
      if String.eqb (EndSessionEndpoint p) ""
      then Err (Errorf "logout endpoint not available" [])
      else
        let params : url.Values := ∅ in
        let params :=
          if negb (String.eqb postLogoutRedirectURI "")
          then url.Set_ "post_logout_redirect_uri" postLogoutRedirectURI params
          else params in
        let params :=
          if negb (String.eqb idTokenHint "")
          then url.Set_ "id_token_hint" idTokenHint params
          else params in
        let logoutURL := EndSessionEndpoint p in
        let logoutURL :=
          if (0 <? size params)%nat
          then logoutURL ++ "?" ++ url.Encode params
          else logoutURL in
        Ok logoutURL
  end.

(** [func (c *Client) CreateAuthorizationFlow()]; [r_state] and [r_pkce] are
    the entropy source as the first and the second read find it. *)
Definition CreateAuthorizationFlow (c : Client) (r_state r_pkce : rand_Reader)
  : outcome (string * string * string) :=
  let? state :=
    wrap_err "failed to generate state: %w" (generateState r_state) in
  let? pkce :=
    wrap_err "failed to generate code challenge: %w"
             (generateCodeChallenge r_pkce) in
  let codeVerifier := fst pkce in
  let codeChallenge := snd pkce in
  let opts :=
    {| opt_State := state; opt_Nonce := "";
       opt_CodeChallenge := codeChallenge; opt_Prompt := "";
       opt_MaxAge := 0; opt_LoginHint := "" |} in
  let? authURL :=
    wrap_err "failed to generate auth URL: %w" (GetAuthCodeURL c (Some opts)) in
  Ok (authURL, state, codeVerifier).

Section ClientCalls.

Variable http_NewRequest : string -> string -> option error.
Variable json_Unmarshal_TokenResponse : string -> outcome TokenResponse.
Variable json_Unmarshal_UserInfo : string -> outcome UserInfo.
Variable json_Decode_OIDCProvider : string -> outcome OIDCProvider.
Variable http_default_Client : http_Client.

(** [func (c *Client) discoverProvider(ctx) error]: the result is the client
    with its provider set; on an error the client is left as it was.
    [json.NewDecoder(resp.Body).Decode] reads the body itself, so a failed
    read surfaces as a decoding error. *)
Definition discoverProvider (c : Client) : M nat Client :=
  let wellKnownURL := wellKnownURL (Issuer (config c)) in
  match http_NewRequest "GET" wellKnownURL with
  | Some err => fail (Errorf "failed to create request: %w" [AErr err])
  | None =>
    let req := {| req_method := "GET"; req_url := wellKnownURL;
                  req_header := []; req_form := [] |} in
    let* resp := round_trip c req in
    match resp with
    | TransportError err =>
        fail (Errorf "failed to fetch provider metadata: %w" [AErr err])
    | ReadError status err =>
        if negb (status =? http_StatusOK)
        then fail (Errorf "provider metadata request failed with status: %d"
                          [AInt status])
        else fail (Errorf "failed to decode provider metadata: %w" [AErr err])
    | Response status body =>
        if negb (status =? http_StatusOK)
        then fail (Errorf "provider metadata request failed with status: %d"
                          [AInt status])
        else
          let* provider :=
            lift (wrap_err "failed to decode provider metadata: %w"
                           (json_Decode_OIDCProvider body)) in
          ret {| config := config c; provider := Some provider |}
    end
  end.

(** [func NewClient(config *Config)] *)
Definition NewClient (cfg : Config_unvalidated) : M nat Client :=
  let* cfg :=
    lift (wrap_err "invalid config: %w" (Validate http_default_Client cfg)) in
  let client := {| config := cfg; provider := None |} in
  wrapping "failed to discover provider: %w" (discoverProvider client).

(** [func (c *Client) ExchangeCodeForTokens(ctx, code, codeVerifier)] *)
Definition Client_ExchangeCodeForTokens (c : Client) (code codeVerifier : string)
  : M nat TokenResponse :=
  match provider c with
  | None => fail (Errorf "provider not initialized" [])
  | Some p =>
    match http_NewRequest "POST" (TokenEndpoint p) with
    | Some err => fail (Errorf "failed to create token request: %w" [AErr err])
    | None =>
      let req := exchange_request c p code codeVerifier in
      let* resp := round_trip c req in
      match resp with
      | TransportError err =>
          fail (Errorf "token request failed: %w" [AErr err])
      | ReadError _ err =>
          fail (Errorf "failed to read token response: %w" [AErr err])
      | Response status body =>
          if negb (status =? http_StatusOK)
          then fail (Errorf "token exchange failed with status %d: %s"
                            [AInt status; AStr body])
          else lift (wrap_err "failed to decode token response: %w"
                              (json_Unmarshal_TokenResponse body))
      end
    end
  end.

(** [func (c *Client) GetUserInfo(ctx, accessToken)] *)
Definition Client_GetUserInfo (c : Client) (accessToken : string)
  : M nat UserInfo :=
  match provider c with
  | None => fail (Errorf "provider not initialized" [])
  | Some p =>
    match http_NewRequest "GET" (UserinfoEndpoint p) with
    | Some err =>
        fail (Errorf "failed to create userinfo request: %w" [AErr err])
    | None =>
      let req := userinfo_request p accessToken in
      let* resp := round_trip c req in
      match resp with
      | TransportError err =>
          fail (Errorf "userinfo request failed: %w" [AErr err])
      | ReadError _ err =>
          fail (Errorf "failed to read userinfo response: %w" [AErr err])
      | Response status body =>
          if negb (status =? http_StatusOK)
          then fail (Errorf "userinfo request failed with status %d: %s"
                            [AInt status; AStr body])
          else lift (wrap_err "failed to decode userinfo response: %w"
                              (json_Unmarshal_UserInfo body))
      end
    end
  end.

End ClientCalls.

(** * Vocabulary of the statements *)

(** The characters [QueryEscape] can produce. *)
Definition query_char (c : ascii) : bool :=
  url_safe_char c || Ascii.eqb c "%"%char || Ascii.eqb c "+"%char.

(** How often a character occurs in a string. *)
Definition count_char (c : ascii) (s : string) : nat :=
  List.length (filter (fun x => Ascii.eqb x c = true) (list_ascii_of_string s)).

(** [if b { params.Set(k, v) }] *)
Definition set_when (b : bool) (k v : string) (m : url.Values) : url.Values :=
  if b then url.Set_ k v m else m.

(** The parameters [GetAuthCodeURL] always sets. *)
Definition fixed_params (c : Client) : url.Values :=
  <["response_type" := ["code"]]>
    (<["client_id" := [ClientID (config c)]]>
       (<["redirect_uri" := [RedirectURL (config c)]]>
          (<["scope" := [strings.Join (Scopes (config c)) " "]]>
             (<["response_mode" := ["query"]]> ∅)))).

(** The request [discoverProvider] sends. *)
Definition discovery_request (issuer : string) : Request :=
  {| req_method := "GET"; req_url := wellKnownURL issuer;
     req_header := []; req_form := [] |}.

(** * Fixtures: a provider, a client and stand-ins for the libraries *)

Module Fixture.

Definition sample_tokens : TokenResponse :=
  {| AccessToken := "test-access-token";
     RefreshToken := "test-refresh-token";
     IDToken := "";
     TokenType := "Bearer";
     ExpiresIn := 3600;
     Scope := "" |}.

Definition tokens_without_expiry : TokenResponse :=
  {| AccessToken := "test"; RefreshToken := ""; IDToken := "";
     TokenType := "Bearer"; ExpiresIn := 0; Scope := "" |}.

Definition civic : OIDCProvider :=
  {| provider_Issuer := "https://auth.civic.com";
     AuthorizationEndpoint := "https://auth.civic.com/authorize";
     TokenEndpoint := "https://auth.civic.com/token";
     UserinfoEndpoint := "https://auth.civic.com/userinfo";
     JwksURI := "https://auth.civic.com/jwks";
     EndSessionEndpoint := "" |}.

(** A client whose HTTP client answers every request with [answer]. *)
Definition client_with (answer : nat -> Request -> HttpResult) : Client :=
  {| config :=
       {| ClientID := "test-client-id";
          ClientSecret := "test-client-secret";
          RedirectURL := "http://localhost:8080/callback";
          Issuer := "https://auth.civic.com";
          Scopes := ["openid"; "profile"; "email"];
          HTTPClient := {| Do := answer |};
          Timeout := 30 * time_Second |};
     provider := Some civic |}.

(** Every method and URL makes a request. *)
Definition NewRequest_ok (method url : string) : option error := None.

(** A token endpoint that answers a refresh with a new access token and no
    refresh token. *)
Definition refreshed : TokenResponse :=
  {| AccessToken := "new-access-token"; RefreshToken := ""; IDToken := "";
     TokenType := "Bearer"; ExpiresIn := 3600; Scope := "" |}.

Definition token_endpoint_ok (n : nat) (req : Request) : HttpResult :=
  Response 200 "{access_token: new-access-token}".

Definition decode_refreshed (body : string) : outcome TokenResponse :=
  if String.eqb body "{access_token: new-access-token}" then Ok refreshed
  else Err (New "unexpected end of JSON input").

(** A token endpoint that refuses the refresh token. *)
Definition token_endpoint_invalid_grant (n : nat) (req : Request) : HttpResult :=
  Response 400 "{error: invalid_grant}".

Definition stored (userID : string) (t : TokenResponse) : InMemoryTokenStorage :=
  {| tokens := {[ userID := t ]} |}.

(** An entropy source that delivers zero bytes only, and one that counts. *)
Definition zeros : rand_Reader := RandBytes (fun _ => x00).

Definition counting : rand_Reader :=
  RandBytes (fun i => sha256.byte_of_N (N.of_nat (17 * i + 3))).

(** A key set served in two versions: the second adds [key-2]. Both keys
    carry a certificate chain; [key-3] has a modulus and an exponent only. *)
Definition key_1 : JWK :=
  {| Kty := "RSA"; Use := "sig"; Kid := "key-1"; X5t := "";
     JWK_N := ""; JWK_E := ""; X5c := ["Y2VydC0x"] |}.

Definition key_2 : JWK :=
  {| Kty := "RSA"; Use := "sig"; Kid := "key-2"; X5t := "";
     JWK_N := ""; JWK_E := ""; X5c := ["Y2VydC0y"; "Y2VydC0x"] |}.

Definition key_3 : JWK :=
  {| Kty := "RSA"; Use := "sig"; Kid := "key-3"; X5t := "";
     JWK_N := "w1sR"; JWK_E := "AQAB"; X5c := [] |}.

Definition jwks_v1 : JWKSet := {| Keys := [key_1] |}.
Definition jwks_v2 : JWKSet := {| Keys := [key_1; key_2] |}.
Definition jwks_v3 : JWKSet := {| Keys := [key_3] |}.

(** The JWKS endpoint answers the first request with version 1 and every
    later one with version 2. *)
Definition jwks_endpoint_rotating (n : nat) (req : Request) : HttpResult :=
  match n with
  | O => Response 200 "jwks-v1"
  | _ => Response 200 "jwks-v2"
  end.

(** The JWKS endpoint always answers with version 1. *)
Definition jwks_endpoint_v1 (n : nat) (req : Request) : HttpResult :=
  Response 200 "jwks-v1".

(** The JWKS endpoint always answers with version 3. *)
Definition jwks_endpoint_v3 (n : nat) (req : Request) : HttpResult :=
  Response 200 "jwks-v3".

Definition decode_jwks (body : string) : outcome JWKSet :=
  if String.eqb body "jwks-v1" then Ok jwks_v1
  else if String.eqb body "jwks-v2" then Ok jwks_v2
  else if String.eqb body "jwks-v3" then Ok jwks_v3
  else Err (New "invalid character").

(** Stand-ins for the decoders, defined on the strings the fixtures use. *)
Definition lookup_table {A} (table : list (string * A)) (msg : string)
    (s : string) : outcome A :=
  match List.find (fun p => String.eqb (fst p) s) table with
  | Some p => Ok (snd p)
  | None => Err (New msg)
  end.

Definition Std_decode : string -> outcome (list byte) :=
  lookup_table [("Y2VydC0x", list_byte_of_string "cert-1");
                ("Y2VydC0y", list_byte_of_string "cert-2")]
               "illegal base64 data".

Definition RawURL_decode : string -> outcome (list byte) :=
  lookup_table [("w1sR", [xc3; x5b; x11]); ("AQAB", [x01; x00; x01])]
               "illegal base64 data".

Definition rsa_key_1 : rsa_PublicKey := {| rsa_N := Some 12802833; rsa_E := 65537 |}.
Definition rsa_key_2 : rsa_PublicKey := {| rsa_N := Some 15485863; rsa_E := 65537 |}.

Definition parse_cert (der : list byte) : outcome x509_Certificate :=
  if String.eqb (string_of_list_byte der) "cert-1"
  then Ok {| PublicKey := RSAPublicKey rsa_key_1 |}
  else if String.eqb (string_of_list_byte der) "cert-2"
  then Ok {| PublicKey := RSAPublicKey rsa_key_2 |}
  else Err (New "x509: malformed certificate").

(** ID tokens. The token strings stand for compact JWTs; [decode_jwt]
    gives their decoded segments. *)
Definition claims_map_of (iss exp : string) : gmap string json_value :=
  <["iss" := JString iss]>
    (<["aud" := JString "test-client-id"]>
       (<["sub" := JString "user123"]>
          (<["exp" := JNumber exp]>
             (<["name" := JString "Test User"]>
                (<["email" := JString "user@example.com"]>
                   (<["email_verified" := JBool true]> ∅)))))).

Definition id_claims_map (exp : string) : gmap string json_value :=
  claims_map_of "https://auth.civic.com" exp.

Definition segments_of (iss alg kid exp : string) : jwt_segments :=
  {| seg_header := <["alg" := JString alg]> (<["kid" := JString kid]> ∅);
     seg_claims := claims_map_of iss exp;
     seg_signing_string := "header.claims";
     seg_signature := inl (list_byte_of_string "signature") |}.

Definition segments (alg kid exp : string) : jwt_segments :=
  segments_of "https://auth.civic.com" alg kid exp.

(** The same token with a third segment that is not base64. *)
Definition segments_bad_signature (alg kid exp : string) : jwt_segments :=
  {| seg_header := seg_header (segments alg kid exp);
     seg_claims := seg_claims (segments alg kid exp);
     seg_signing_string := "header.claims";
     seg_signature := inr (New "illegal base64 data at input byte 0") |}.

Definition decode_jwt (tokenString : string) : outcome jwt_segments :=
  if String.eqb tokenString "rs256.key-1.token"
  then Ok (segments "RS256" "key-1" "1700000000")
  else if String.eqb tokenString "rs256.key-1.other-issuer.token"
  then Ok (segments_of "https://login.example.org" "RS256" "key-1" "1700000000")
  else if String.eqb tokenString "hs256.key-1.token"
  then Ok (segments "HS256" "key-1" "1700000000")
  else if String.eqb tokenString "hs256.key-1.!!!"
  then Ok (segments_bad_signature "HS256" "key-1" "1700000000")
  else if String.eqb tokenString "none.key-9.token"
  then Ok (segments "none" "key-9" "1700000000")
  else Err (New "token contains an invalid number of segments").

(** The signature verifies under [rsa_key_1] and under no other key. *)
Definition verify (method : SigningMethod) (signingString : string)
    (sig : list byte) (key : rsa_PublicKey) : option error :=
  match rsa_N key with
  | Some n => if n =? 12802833 then None
              else Some (New "crypto/rsa: verification error")
  | None => Some (New "crypto/rsa: verification error")
  end.

(** Reading a claim as a date, for claims in whole seconds. *)
Definition numeric_date_of (key : string) (claims : gmap string json_value)
  : numeric_date :=
  match claims !! key with
  | None => DateAbsent
  | Some (JNumber literal) =>
      match NilZero.int_of_string literal with
      | Some seconds =>
          if Z.of_int seconds =? 0 then DateAbsent
          else DateAt (time_Unix (Z.of_int seconds) 0)
      | None =>
          DateInvalid (Errorf "invalid type for claim: %s is invalid" [AStr key])
      end
  | Some _ =>
      DateInvalid (Errorf "invalid type for claim: %s is invalid" [AStr key])
  end.

Definition id_claims : Claims :=
  {| claims_Issuer := "https://auth.civic.com";
     Subject := "user123";
     Audience := "test-client-id";
     Expiry := 1700000000;
     IssuedAt := 0;
     Nonce := "";
     AuthTime := 0;
     SessionState := "";
     Name := "Test User"; GivenName := ""; FamilyName := ""; MiddleName := "";
     Nickname := ""; PreferredUsername := ""; Profile := ""; Picture := "";
     Website := ""; Email := "user@example.com"; EmailVerified := true;
     Gender := ""; Birthdate := ""; Zoneinfo := ""; Locale := "";
     PhoneNumber := ""; PhoneVerified := false; UpdatedAt := 0 |}.

(** The claims of the token of another issuer. *)
Definition other_issuer_claims : Claims :=
  {| claims_Issuer := "https://login.example.org";
     Subject := "user123";
     Audience := "test-client-id";
     Expiry := 1700000000;
     IssuedAt := 0;
     Nonce := "";
     AuthTime := 0;
     SessionState := "";
     Name := "Test User"; GivenName := ""; FamilyName := ""; MiddleName := "";
     Nickname := ""; PreferredUsername := ""; Profile := ""; Picture := "";
     Website := ""; Email := "user@example.com"; EmailVerified := true;
     Gender := ""; Birthdate := ""; Zoneinfo := ""; Locale := "";
     PhoneNumber := ""; PhoneVerified := false; UpdatedAt := 0 |}.

(** The JSON text of a claims map, named by its issuer and its expiry. *)
Definition marshal_claims (m : gmap string json_value) : outcome string :=
  match m !! "iss", m !! "exp" with
  | Some (JString iss), Some (JNumber exp) =>
      Ok ("{iss: " ++ iss ++ ", exp: " ++ exp ++ "}")
  | _, _ => Err (New "json: unsupported value")
  end.

Definition unmarshal_claims : string -> outcome Claims :=
  lookup_table
    [("{iss: https://auth.civic.com, exp: 1700000000}", id_claims);
     ("{iss: https://login.example.org, exp: 1700000000}", other_issuer_claims)]
    "unexpected end of JSON input".

(** The validator over the fixtures; the first time is what the library
    reads, the second what the expiry check reads. *)
Definition validator : string -> Time -> Time -> M TokenManager Claims :=
  ValidateIDToken NewRequest_ok decode_jwks Std_decode
    RawURL_decode parse_cert decode_jwt verify
    (numeric_date_of "exp") (numeric_date_of "nbf")
    marshal_claims unmarshal_claims.

Definition manager : TokenManager :=
  NewTokenManager (client_with jwks_endpoint_v1).

(** [manager] after it has fetched the key set and cached [key-1]. *)
Definition manager_key_1 : TokenManager :=
  {| tm_Client := client_with jwks_endpoint_v1;
     jwkSet := Some jwks_v1;
     jwkCache := <["key-1" := rsa_key_1]> ∅;
     tm_round_trips := 1 |}.

(** A client for which discovery never ran. *)
Definition client_without_provider : Client :=
  {| config := config (client_with token_endpoint_ok); provider := None |}.

(** A provider that has an end-session endpoint. *)
Definition civic_with_logout : OIDCProvider :=
  {| provider_Issuer := "https://auth.civic.com";
     AuthorizationEndpoint := "https://auth.civic.com/authorize";
     TokenEndpoint := "https://auth.civic.com/token";
     UserinfoEndpoint := "https://auth.civic.com/userinfo";
     JwksURI := "https://auth.civic.com/jwks";
     EndSessionEndpoint := "https://auth.civic.com/logout" |}.

Definition client_with_logout : Client :=
  {| config := config (client_with token_endpoint_ok);
     provider := Some civic_with_logout |}.

Definition decode_userinfo (body : string) : outcome UserInfo :=
  if String.eqb body "{sub: user123}"
  then Ok {| ui_Sub := "user123"; ui_Name := ""; ui_GivenName := "";
             ui_FamilyName := ""; ui_MiddleName := ""; ui_Nickname := "";
             ui_PreferredUsername := ""; ui_Profile := ""; ui_Picture := "";
             ui_Website := ""; ui_Email := ""; ui_EmailVerified := false;
             ui_Gender := ""; ui_Birthdate := ""; ui_Zoneinfo := "";
             ui_Locale := ""; ui_PhoneNumber := ""; ui_PhoneVerified := false;
             ui_UpdatedAt := 0 |}
  else Err (New "unexpected end of JSON input").

(** A server that answers by the request it gets: the discovery document,
    a token for an authorization code or a refresh token, the user info for
    the right bearer token, and 404 for anything else. *)
Definition civic_server (n : nat) (req : Request) : HttpResult :=
  if String.eqb (req_url req)
       "https://auth.civic.com/.well-known/openid_configuration"
  then Response 200 "{issuer: https://auth.civic.com}"
  else if String.eqb (req_url req) "https://auth.civic.com/token"
  then Response 200 "{access_token: new-access-token}"
  else if String.eqb (req_url req) "https://auth.civic.com/userinfo"
  then if existsb (fun h => String.eqb (fst h) "Authorization"
                            && String.eqb (snd h) "Bearer new-access-token")
                  (req_header req)
       then Response 200 "{sub: user123}"
       else Response 401 "{error: invalid_token}"
  else Response 404 "not found".

Definition decode_provider (body : string) : outcome OIDCProvider :=
  if String.eqb body "{issuer: https://auth.civic.com}" then Ok civic
  else Err (New "invalid character").

(** The client of [net/http] with its defaults, talking to that server. *)
Definition default_client : http_Client := {| Do := civic_server |}.

(** A configuration with the four required fields and nothing else. *)
Definition minimal_config : Config_unvalidated :=
  {| given_ClientID := "test-client-id";
     given_ClientSecret := "test-client-secret";
     given_RedirectURL := "http://localhost:8080/callback";
     given_Issuer := "https://auth.civic.com";
     given_Scopes := [];
     given_HTTPClient := None;
     given_Timeout := 0 |}.

(** [minimal_config] once validated, and the client discovery makes of it. *)
Definition validated_config : Config :=
  {| ClientID := "test-client-id";
     ClientSecret := "test-client-secret";
     RedirectURL := "http://localhost:8080/callback";
     Issuer := "https://auth.civic.com";
     Scopes := ["openid"; "profile"; "email"];
     HTTPClient := default_client;
     Timeout := 30 * time_Second |}.

Definition discovered_client : Client :=
  {| config := validated_config; provider := Some civic |}.

End Fixture.

(** * Test vectors *)

Example sha256_constants :
  List.length sha256.K = 64%nat
  /\ nth 0 sha256.K 0%N = 0x428a2f98%N
  /\ nth 63 sha256.K 0%N = 0xc67178f2%N
  /\ nth 0 sha256.init 0%N = 0x6a09e667%N
  /\ nth 7 sha256.init 0%N = 0x5be0cd19%N.
Proof. vm_compute. repeat split; reflexivity. Qed.

Example sha256_abc :
  hex (sha256.Sum256 (list_byte_of_string "abc"))
  = "ba7816bf8f01cfea414140de5dae2223b00361a396177a9cb410ff61f20015ad".
Proof. vm_compute. reflexivity. Qed.

Example sha256_empty :
  hex (sha256.Sum256 [])
  = "e3b0c44298fc1c149afbf4c8996fb92427ae41e4649b934ca495991b7852b855".
Proof. vm_compute. reflexivity. Qed.

Example sha256_two_blocks :
  hex (sha256.Sum256 (list_byte_of_string
         "abcdbcdecdefdefgefghfghighijhijkijkljklmklmnlmnomnopnopq"))
  = "248d6a61d20638b8e5c026930c3e6039a33ce45964ff2167f6ecedd419db06c1".
Proof. vm_compute. reflexivity. Qed.

Example base64_foobar :
  map base64.RawURLEncoding_EncodeToString
    (map list_byte_of_string ["f"; "fo"; "foo"; "foob"; "fooba"; "foobar"])
  = ["Zg"; "Zm8"; "Zm9v"; "Zm9vYg"; "Zm9vYmE"; "Zm9vYmFy"].
Proof. vm_compute. reflexivity. Qed.

(** RFC 7636, appendix B. *)
Example pkce_rfc7636 :
  base64.RawURLEncoding_EncodeToString
    (sha256.Sum256 (list_byte_of_string
       "dBjftJeZ4CVP-mB92K27uhbUJU1p1r_wW1gFWFOEjXk"))
  = "E9Melhoa2OwvFrEMTJguCHaoeK1t8URWbuGJSstw-cM".
Proof. vm_compute. reflexivity. Qed.

(** [time.Unix]: a date, nanoseconds beyond and below the range of one
    second, and the wrap-around at the largest [int64]. *)
Example time_Unix_vectors :
  time_Unix 1700000000 0 = 1700000000000000000
  /\ time_Unix 0 1500000000 = 1500000000
  /\ time_Unix 0 (-1) = -1
  /\ time_Unix 3 (-2000000001) = 999999999
  /\ time_Unix 9223372036854775807 0 < time_Unix 0 0.
Proof. repeat split; vm_compute; reflexivity. Qed.

(** The library's validator at the second of [exp]: a nanosecond before it
    the token passes, at it the token is expired; before [nbf] the token is
    not valid yet, and both objections are joined. *)
Example jwt_Validator_Validate_vectors :
  let claims := Fixture.id_claims_map "1700000000" in
  let early := <["nbf" := JNumber "1800000000"]> claims in
  let validate :=
    jwt_Validator_Validate (Fixture.numeric_date_of "exp")
      (Fixture.numeric_date_of "nbf") in
  validate (time_Unix 1699999999 999999999) claims = None
  /\ validate (time_Unix 1700000000 0) claims
     = Some (Errorf "%w" [AErr (New "token is expired")])
  /\ validate (time_Unix 1700000000 0) early
     = Some (Errorf "%w, %w" [AErr (New "token is expired");
                              AErr (New "token is not valid yet")]).
Proof. repeat split; vm_compute; reflexivity. Qed.

(** * The in-memory token storage *)

Section StorageFacts.

Implicit Types (s : InMemoryTokenStorage) (t : TokenResponse).

Lemma Store_ok userID t s :
  userID <> "" ->
  Store userID t s = (Ok tt, {| tokens := <[userID := t]> (tokens s) |}).
Proof.
  intros Hne. cbn. unfold InMemory.Store.
  apply String.eqb_neq in Hne. rewrite Hne. reflexivity.
Qed.

Lemma Delete_ok userID s :
  userID <> "" ->
  Delete userID s = (Ok tt, {| tokens := delete userID (tokens s) |}).
Proof.
  intros Hne. cbn. unfold InMemory.Delete.
  apply String.eqb_neq in Hne. rewrite Hne. reflexivity.
Qed.

Lemma Retrieve_found userID t s :
  userID <> "" ->
  tokens s !! userID = Some t ->
  Retrieve userID s = (Ok t, s).
Proof.
  intros Hne Hl. cbn. unfold InMemory.Retrieve.
  apply String.eqb_neq in Hne. rewrite Hne.
  unfold bind, get. rewrite Hl. reflexivity.
Qed.

Lemma Retrieve_missing userID s :
  userID <> "" ->
  tokens s !! userID = None ->
  Retrieve userID s = (Err (New "tokens not found for user"), s).
Proof.
  intros Hne Hl. cbn. unfold InMemory.Retrieve.
  apply String.eqb_neq in Hne. rewrite Hne.
  unfold bind, get. rewrite Hl. reflexivity.
Qed.

(** A successful [Retrieve] never changes the store, and tells that the id
    is not empty and which record it is bound to. *)
Lemma Retrieve_Ok_inv userID t s s' :
  Retrieve userID s = (Ok t, s') ->
  userID <> "" /\ tokens s !! userID = Some t /\ s' = s.
Proof.
  cbn. unfold InMemory.Retrieve.
  destruct (String.eqb userID "") eqn:E; [discriminate |].
  apply String.eqb_neq in E.
  unfold bind, get. destruct (tokens s !! userID) eqn:Hl; [| discriminate].
  unfold ret. intros [= -> ->]. auto.
Qed.

End StorageFacts.

(** C9. On the in-memory storage, for a non-empty user id, [Store] followed
    by [Retrieve] gives back the stored token set, and [Delete] followed by
    [Retrieve] fails with the not-found error. *)
Theorem store_retrieve_delete_roundtrip
    (s : InMemoryTokenStorage) (userID : string) (T : TokenResponse) :
  userID <> "" ->
  (exists s1, Store userID T s = (Ok tt, s1)
              /\ Retrieve userID s1 = (Ok T, s1))
  /\ (exists s2, Delete userID s = (Ok tt, s2)
                 /\ Retrieve userID s2
                    = (Err (New "tokens not found for user"), s2)).
Proof.
  intros Hne. split.
  - eexists. split; [apply Store_ok; assumption |].
    apply Retrieve_found; [assumption |]. cbn. apply lookup_insert_eq.
  - eexists. split; [apply Delete_ok; assumption |].
    apply Retrieve_missing; [assumption |]. cbn. apply lookup_delete_eq.
Qed.

Lemma store_retrieve_delete_roundtrip_witness :
  "user123" <> ""
  /\ (exists s1, Store "user123" Fixture.sample_tokens NewInMemoryTokenStorage = (Ok tt, s1)
                 /\ Retrieve "user123" s1 = (Ok Fixture.sample_tokens, s1))
  /\ (exists s2, Delete "user123" NewInMemoryTokenStorage = (Ok tt, s2)
                 /\ Retrieve "user123" s2
                    = (Err (New "tokens not found for user"), s2)).
Proof.
  split; [discriminate |].
  apply (store_retrieve_delete_roundtrip NewInMemoryTokenStorage "user123"
           Fixture.sample_tokens).
  discriminate.
Defined.

(** * [IsTokenExpired] *)

(** C10. A token response whose [expires_in] is zero or negative is never
    reported as expired, whatever the issue time and the current time. *)
Theorem IsTokenExpired_without_expiry
    (tokenResp : TokenResponse) (issuedAt now : Time) :
  ExpiresIn tokenResp <= 0 ->
  IsTokenExpired tokenResp issuedAt now = false.
Proof.
  intros Hle. unfold IsTokenExpired.
  destruct (ExpiresIn tokenResp <=? 0) eqn:E; [reflexivity |].
  apply Z.leb_gt in E. lia.
Qed.

Lemma IsTokenExpired_without_expiry_witness :
  ExpiresIn Fixture.tokens_without_expiry <= 0
  /\ IsTokenExpired Fixture.tokens_without_expiry 0 (time_Unix 86400 0) = false.
Proof.
  split; [cbn; lia |].
  apply (IsTokenExpired_without_expiry Fixture.tokens_without_expiry 0 (time_Unix 86400 0)).
  cbn. lia.
Defined.

(** With a positive [expires_in] the answer does depend on the clock. *)
Example IsTokenExpired_one_hour :
  IsTokenExpired Fixture.sample_tokens 0 (time_Unix 1800 0) = false
  /\ IsTokenExpired Fixture.sample_tokens 0 (time_Unix 7200 0) = true.
Proof. split; reflexivity. Qed.

(** * [GetValidToken] *)

Section RefreshFlow.

Variable http_NewRequest : string -> string -> option error.
Variable json_Unmarshal_TokenResponse : string -> outcome TokenResponse.

Local Abbreviation refresh_call trm rt :=
  (Client_RefreshToken http_NewRequest json_Unmarshal_TokenResponse
     (trm_Client trm) rt (round_trips trm)).

Local Abbreviation GetValidToken' :=
  (GetValidToken http_NewRequest json_Unmarshal_TokenResponse).

(** What [GetValidToken] does once the stored record is known: the three
    ways through the refresh branch. *)
Lemma GetValidToken_refresh_step
    (trm : TokenRefreshManager InMemoryTokenStorage)
    (userID : string) (old : TokenResponse) :
  Retrieve userID (storage trm) = (Ok old, storage trm) ->
  RefreshToken old <> "" ->
  GetValidToken' userID trm =
    match refresh_call trm (RefreshToken old) with
    | (Ok newTokens, n') =>
        let merged :=
          if String.eqb (RefreshToken newTokens) ""
          then set_RefreshToken (RefreshToken old) newTokens
          else newTokens in
        (Ok merged,
         {| trm_Client := trm_Client trm;
            storage := {| tokens := <[userID := merged]> (tokens (storage trm)) |};
            round_trips := n' |})
    | (Err e, n') =>
        (Err (Errorf "failed to refresh token: %w" [AErr e]),
         {| trm_Client := trm_Client trm;
            storage := storage trm;
            round_trips := n' |})
    | (Panic, n') =>
        (Panic,
         {| trm_Client := trm_Client trm;
            storage := storage trm;
            round_trips := n' |})
    end.
Proof.
  intros Hret Hrt.
  destruct (Retrieve_Ok_inv _ _ _ _ Hret) as (Hne & _ & _).
  unfold GetValidToken, bind, wrapping, on_storage at 1.
  rewrite Hret. cbn [wrap_err].
  apply String.eqb_neq in Hrt. rewrite Hrt. cbn [negb].
  unfold on_Client. cbn [trm_Client round_trips storage].
  destruct (Client_RefreshToken _ _ _ _ _) as [[newTokens | e |] n'];
    cbn [wrap_err]; try reflexivity.
  unfold on_storage. cbn [storage trm_Client round_trips].
  rewrite (Store_ok _ _ _ Hne). reflexivity.
Qed.

End RefreshFlow.



(** C8. When the stored record of a user holds a refresh token and the
    refresh fails, [GetValidToken] returns the refresh error (wrapped) and
    the storage is exactly what it was: nothing is stored or deleted. *)
Theorem GetValidToken_refresh_failure
    (http_NewRequest : string -> string -> option error)
    (json_Unmarshal_TokenResponse : string -> outcome TokenResponse)
    (trm : TokenRefreshManager InMemoryTokenStorage)
    (userID : string) (old : TokenResponse) (e : error) (n' : nat) :
  Retrieve userID (storage trm) = (Ok old, storage trm) ->
  RefreshToken old <> "" ->
  Client_RefreshToken http_NewRequest json_Unmarshal_TokenResponse
    (trm_Client trm) (RefreshToken old) (round_trips trm) = (Err e, n') ->
  exists trm',
    GetValidToken http_NewRequest json_Unmarshal_TokenResponse userID trm
    = (Err (Errorf "failed to refresh token: %w" [AErr e]), trm')
    /\ storage trm' = storage trm
    /\ Retrieve userID (storage trm') = (Ok old, storage trm').
Proof.
  intros Hret Hrt Hcall.
  rewrite (GetValidToken_refresh_step _ _ trm userID old Hret Hrt), Hcall.
  eexists. split; [reflexivity |]. cbn [storage]. split; [reflexivity | exact Hret].
Qed.

Lemma GetValidToken_refresh_failure_witness :
  let trm := {| trm_Client :=
                  Fixture.client_with Fixture.token_endpoint_invalid_grant;
                storage := Fixture.stored "user123" Fixture.sample_tokens;
                round_trips := 0 |} in
  exists trm',
    GetValidToken Fixture.NewRequest_ok Fixture.decode_refreshed "user123" trm
    = (Err (Errorf "failed to refresh token: %w"
              [AErr (Errorf "token refresh failed with status %d: %s"
                            [AInt 400; AStr "{error: invalid_grant}"])]),
       trm')
    /\ storage trm' = storage trm
    /\ Retrieve "user123" (storage trm')
       = (Ok Fixture.sample_tokens, storage trm').
Proof.
  intros trm.
  apply (GetValidToken_refresh_failure
           Fixture.NewRequest_ok Fixture.decode_refreshed trm "user123"
           Fixture.sample_tokens _ 1%nat).
  - reflexivity.
  - discriminate.
  - reflexivity.
Defined.

(** * PKCE and state generation *)

Section Base64Facts.

(** Induction over a byte string three bytes at a time, the way [Encode]
    consumes it. *)
Lemma list_ind3 {A} (P : list A -> Prop) :
  P [] ->
  (forall a, P [a]) ->
  (forall a b, P [a; b]) ->
  (forall a b c l, P l -> P (a :: b :: c :: l)) ->
  forall l, P l.
Proof.
  intros H0 H1 H2 H3. fix IH 1.
  intros [| a [| b [| c l]]].
  - exact H0.
  - exact (H1 a).
  - exact (H2 a b).
  - exact (H3 a b c l (IH l)).
Qed.

Lemma nth_forallb {A} (P : A -> bool) (d : A) (l : list A) (n : nat) :
  P d = true -> forallb P l = true -> P (nth n l d) = true.
Proof.
  intros Hd. revert n. induction l as [| x l IH]; intros [| n] Hl; cbn in *;
    try assumption.
  - apply andb_prop in Hl. tauto.
  - apply andb_prop in Hl. apply IH. tauto.
Qed.

Lemma encode_at_url_safe (i : N) : url_safe_char (base64.encode_at i) = true.
Proof.
  unfold base64.encode_at. apply nth_forallb; vm_compute; reflexivity.
Qed.

Lemma Encode_url_safe (src : list byte) :
  forallb url_safe_char (base64.Encode src) = true.
Proof.
  induction src as [| a | a b | a b c l IH] using list_ind3;
    cbn [base64.Encode forallb];
    rewrite ?encode_at_url_safe, ?IH; reflexivity.
Qed.

(** [RawURLEncoding.EncodedLen]: [(n*8 + 5) / 6]. *)
Lemma Encode_length (src : list byte) :
  List.length (base64.Encode src) = ((List.length src * 8 + 5) / 6)%nat.
Proof.
  induction src as [| a | a b | a b c l IH] using list_ind3;
    cbn [base64.Encode List.length]; try reflexivity.
  rewrite IH.
  replace (S (S (S (List.length l))) * 8 + 5)%nat
    with ((List.length l * 8 + 5) + 4 * 6)%nat by lia.
  rewrite Nat.div_add by discriminate. lia.
Qed.

Lemma EncodeToString_length (src : list byte) :
  String.length (base64.RawURLEncoding_EncodeToString src)
  = ((List.length src * 8 + 5) / 6)%nat.
Proof.
  unfold base64.RawURLEncoding_EncodeToString.
  rewrite <- Encode_length.
  generalize (base64.Encode src) as l.
  induction l as [| c l IH]; cbn; [reflexivity | now rewrite IH].
Qed.

Lemma EncodeToString_url_safe (src : list byte) :
  url_safe (base64.RawURLEncoding_EncodeToString src) = true.
Proof.
  unfold url_safe, base64.RawURLEncoding_EncodeToString.
  rewrite list_ascii_of_string_of_list_ascii. apply Encode_url_safe.
Qed.

Lemma rand_Read_length (r : rand_Reader) (n : nat) (b : list byte) :
  rand_Read r n = Ok b -> List.length b = n.
Proof.
  destruct r as [e | stream]; cbn; [discriminate |].
  intros [= <-]. now rewrite length_map, length_seq.
Qed.

End Base64Facts.

(** C5. For every pair a successful [generateCodeChallenge] returns, the
    challenge is the unpadded URL-safe base64 encoding of the SHA-256 digest
    of the verifier, and the verifier is a URL-safe string whose length (43)
    lies between 43 and 128. *)
Theorem generateCodeChallenge_pair
    (r : rand_Reader) (codeVerifier codeChallenge : string) :
  generateCodeChallenge r = Ok (codeVerifier, codeChallenge) ->
  codeChallenge
  = base64.RawURLEncoding_EncodeToString
      (sha256.Sum256 (list_byte_of_string codeVerifier))
  /\ url_safe codeVerifier = true
  /\ (43 <= String.length codeVerifier <= 128)%nat.
Proof.
  unfold generateCodeChallenge.
  destruct (rand_Read r 32) as [b | e |] eqn:Hread; try discriminate.
  intros [= <- <-]. split; [reflexivity |].
  split; [apply EncodeToString_url_safe |].
  rewrite EncodeToString_length, (rand_Read_length _ _ _ Hread).
  cbn. lia.
Qed.

Lemma generateCodeChallenge_pair_witness :
  let verifier := "AxQlNkdYaXqLnK2-z-DxAhMkNUZXaHmKm6y9zt_wARI" in
  let challenge := "p1sr6olCIJ_dY5FGkww_uHYy2En1VTuNJVfAb7ZoFuY" in
  generateCodeChallenge Fixture.counting = Ok (verifier, challenge)
  /\ challenge
     = base64.RawURLEncoding_EncodeToString
         (sha256.Sum256 (list_byte_of_string verifier))
  /\ url_safe verifier = true
  /\ (43 <= String.length verifier <= 128)%nat.
Proof.
  intros verifier challenge.
  assert (H : generateCodeChallenge Fixture.counting = Ok (verifier, challenge))
    by (vm_compute; reflexivity).
  split; [exact H |].
  exact (generateCodeChallenge_pair Fixture.counting verifier challenge H).
Defined.

(** C6, as the code has it. Every state value a successful [generateState]
    returns is the encoding of 16 random bytes: it has exactly 22 characters,
    all of them URL-safe. *)
Theorem generateState_shape (r : rand_Reader) (state : string) :
  generateState r = Ok state ->
  String.length state = 22%nat /\ url_safe state = true.
Proof.
  unfold generateState.
  destruct (rand_Read r 16) as [b | e |] eqn:Hread; try discriminate.
  intros [= <-]. split; [| apply EncodeToString_url_safe].
  rewrite EncodeToString_length, (rand_Read_length _ _ _ Hread). reflexivity.
Qed.

Lemma generateState_shape_witness :
  generateState Fixture.zeros = Ok "AAAAAAAAAAAAAAAAAAAAAA"
  /\ String.length "AAAAAAAAAAAAAAAAAAAAAA" = 22%nat
  /\ url_safe "AAAAAAAAAAAAAAAAAAAAAA" = true.
Proof.
  split; [reflexivity |].
  apply (generateState_shape Fixture.zeros "AAAAAAAAAAAAAAAAAAAAAA").
  reflexivity.
Defined.

(** C6, as stated, fails: a successful call returns a state of 22
    characters, which is not between 43 and 128. *)
Lemma generateState_length_counterexample :
  generateState Fixture.zeros = Ok "AAAAAAAAAAAAAAAAAAAAAA"
  /\ ~ (43 <= String.length "AAAAAAAAAAAAAAAAAAAAAA" <= 128)%nat.
Proof.
  split; [reflexivity |]. cbn. lia.
Qed.

(** * Key conversion *)

Section KeyConversion.

Variable base64_StdEncoding_DecodeString : string -> outcome (list byte).
Variable base64_RawURLEncoding_DecodeString : string -> outcome (list byte).
Variable x509_ParseCertificate : list byte -> outcome x509_Certificate.

Local Abbreviation convert :=
  (jwkToRSAPublicKey base64_StdEncoding_DecodeString
     base64_RawURLEncoding_DecodeString x509_ParseCertificate).

(** With a certificate chain the key is the leaf certificate's. *)
Lemma jwkToRSAPublicKey_x5c jwk x5c0 rest certData cert rsaKey :
  X5c jwk = x5c0 :: rest ->
  base64_StdEncoding_DecodeString x5c0 = Ok certData ->
  x509_ParseCertificate certData = Ok cert ->
  PublicKey cert = RSAPublicKey rsaKey ->
  convert jwk = Ok rsaKey.
Proof.
  intros Hx Hd Hp Hk. unfold jwkToRSAPublicKey.
  rewrite Hx, Hd. cbn. rewrite Hp. cbn. rewrite Hk. reflexivity.
Qed.

(** Without a chain and without both [n] and [e] the entry is refused. *)
Lemma jwkToRSAPublicKey_missing jwk :
  X5c jwk = [] ->
  JWK_N jwk = "" \/ JWK_E jwk = "" ->
  convert jwk = Err (Errorf "JWK missing required parameters" []).
Proof.
  intros Hx Hne. unfold jwkToRSAPublicKey. rewrite Hx.
  destruct Hne as [-> | ->]; cbn [String.eqb orb]; [reflexivity |].
  rewrite orb_true_r. reflexivity.
Qed.

(** The modulus and exponent path never produces a key: it can only fail
    on a decoding error or panic. *)
Lemma jwkToRSAPublicKey_modulus_path_no_key jwk key :
  X5c jwk = [] -> convert jwk <> Ok key.
Proof.
  intros Hx. unfold jwkToRSAPublicKey. rewrite Hx.
  destruct (_ || _); [discriminate |].
  destruct (base64_RawURLEncoding_DecodeString (JWK_N jwk)); cbn;
    try discriminate.
  destruct (base64_RawURLEncoding_DecodeString (JWK_E jwk)); cbn;
    discriminate.
Qed.

End KeyConversion.

(** C4, where the code departs from it. For a JWK without a certificate
    chain whose [n] and [e] are present and decode, [jwkToRSAPublicKey] does
    not return the reconstructed key: [new(rsa.PublicKey).N] is a nil
    [*big.Int], and [SetBytes] on it panics. *)
Theorem jwkToRSAPublicKey_modulus_exponent_panics
    (base64_StdEncoding_DecodeString : string -> outcome (list byte))
    (base64_RawURLEncoding_DecodeString : string -> outcome (list byte))
    (x509_ParseCertificate : list byte -> outcome x509_Certificate)
    (jwk : JWK) (nBytes eBytes : list byte) :
  X5c jwk = [] ->
  JWK_N jwk <> "" ->
  JWK_E jwk <> "" ->
  base64_RawURLEncoding_DecodeString (JWK_N jwk) = Ok nBytes ->
  base64_RawURLEncoding_DecodeString (JWK_E jwk) = Ok eBytes ->
  jwkToRSAPublicKey base64_StdEncoding_DecodeString
    base64_RawURLEncoding_DecodeString x509_ParseCertificate jwk = Panic.
Proof.
  intros Hx Hn He Hdn Hde. unfold jwkToRSAPublicKey. rewrite Hx.
  apply String.eqb_neq in Hn, He. rewrite Hn, He. cbn [orb].
  rewrite Hdn, Hde. reflexivity.
Qed.

Lemma jwkToRSAPublicKey_modulus_exponent_panics_witness :
  X5c Fixture.key_3 = []
  /\ jwkToRSAPublicKey Fixture.Std_decode Fixture.RawURL_decode
       Fixture.parse_cert Fixture.key_3 = Panic.
Proof.
  split; [reflexivity |].
  apply (jwkToRSAPublicKey_modulus_exponent_panics
           Fixture.Std_decode Fixture.RawURL_decode Fixture.parse_cert
           Fixture.key_3 [xc3; x5b; x11] [x01; x00; x01]);
    solve [reflexivity | discriminate].
Defined.

(** The other two cases of the conversion policy, on the fixtures. *)
Example jwkToRSAPublicKey_leaf_certificate :
  jwkToRSAPublicKey Fixture.Std_decode Fixture.RawURL_decode
    Fixture.parse_cert Fixture.key_2 = Ok Fixture.rsa_key_2.
Proof. reflexivity. Qed.

(** * The key-set cache *)

Section CacheFacts.

Variable http_NewRequest : string -> string -> option error.
Variable json_Unmarshal_JWKSet : string -> outcome JWKSet.
Variable base64_StdEncoding_DecodeString : string -> outcome (list byte).
Variable base64_RawURLEncoding_DecodeString : string -> outcome (list byte).
Variable x509_ParseCertificate : list byte -> outcome x509_Certificate.

Local Abbreviation fetch := (fetchJWKSet http_NewRequest json_Unmarshal_JWKSet).
Local Abbreviation convert :=
  (jwkToRSAPublicKey base64_StdEncoding_DecodeString
     base64_RawURLEncoding_DecodeString x509_ParseCertificate).
Local Abbreviation getKey :=
  (getPublicKey http_NewRequest json_Unmarshal_JWKSet
     base64_StdEncoding_DecodeString base64_RawURLEncoding_DecodeString
     x509_ParseCertificate).
Local Abbreviation jwks_response :=
  (jwks_response http_NewRequest json_Unmarshal_JWKSet).

(** A successful fetch replaces the held key set by the fetched one and
    touches nothing else but the request count. *)
Lemma fetchJWKSet_response tm set :
  jwks_response (tm_Client tm) (tm_round_trips tm) set ->
  fetch tm = (Ok tt, {| tm_Client := tm_Client tm;
                        jwkSet := Some set;
                        jwkCache := jwkCache tm;
                        tm_round_trips := S (tm_round_trips tm) |}).
Proof.
  intros (p & body & Hp & Hreq & Hdo & Hdec).
  unfold fetchJWKSet, bind, get. rewrite Hp, Hreq.
  cbv zeta. rewrite Hdo. cbn. rewrite Hdec. reflexivity.
Qed.

(** [getPublicKey] on a key id that the cache lacks and that the first set
    searched lacks too: [k] is 1 when that set had to be fetched, 0 when it
    was held already; one more fetch follows and decides. *)
Lemma getPublicKey_after_miss tm kid first last :
  jwkCache tm !! kid = None ->
  match jwkSet tm with
  | Some held => first = held
  | None => jwks_response (tm_Client tm) (tm_round_trips tm) first
  end ->
  find_kid kid (Keys first) = None ->
  let k := match jwkSet tm with None => 1%nat | Some _ => 0%nat end in
  jwks_response (tm_Client tm) (k + tm_round_trips tm) last ->
  let tm' := {| tm_Client := tm_Client tm;
                jwkSet := Some last;
                jwkCache := jwkCache tm;
                tm_round_trips := S k + tm_round_trips tm |} in
  getKey kid tm =
    match find_kid kid (Keys last) with
    | None => (Err (Errorf "key with kid %s not found" [AStr kid]), tm')
    | Some jwk =>
        match convert jwk with
        | Ok key => (Ok key, set_jwkCache kid key tm')
        | Err e =>
            (Err (Errorf "failed to convert JWK to RSA public key: %w" [AErr e]),
             tm')
        | Panic => (Panic, tm')
        end
    end.
Proof.
  intros Hcache Hfirst Hmiss k Hlast tm'.
  unfold getPublicKey. unfold bind at 1. unfold get at 1. rewrite Hcache.
  destruct (jwkSet tm) as [held |] eqn:Hset.
  - (* a key set is held: it is searched, then one fetch *)
    subst first k tm'. cbn [Nat.add] in *.
    unfold bind at 1. unfold ret at 1.
    unfold bind at 1. unfold jwkSet_Keys at 1, bind at 1, get at 1.
    rewrite Hset. unfold ret at 1. rewrite Hmiss.
    unfold bind at 1. unfold bind at 1. unfold wrapping.
    rewrite (fetchJWKSet_response tm last Hlast). cbn [wrap_err].
    unfold bind at 1. unfold jwkSet_Keys, bind at 1, get at 1.
    cbn [jwkSet]. unfold ret at 1.
    destruct (find_kid kid (Keys last)) as [jwk |]; [| reflexivity].
    unfold ret at 1. unfold bind at 1. unfold lift.
    destruct (convert jwk); reflexivity.
  - (* nothing held: the first fetch, the search, the forced re-fetch *)
    subst k tm'. cbn [Nat.add] in *.
    unfold bind at 1.
    rewrite (fetchJWKSet_response tm first Hfirst).
    unfold bind at 1. unfold jwkSet_Keys at 1, bind at 1, get at 1.
    cbn [jwkSet]. unfold ret at 1. rewrite Hmiss.
    unfold bind at 1. unfold bind at 1. unfold wrapping.
    match goal with
    | |- context [fetch ?t] =>
        rewrite (fetchJWKSet_response t last Hlast)
    end.
    cbn [wrap_err tm_Client jwkCache tm_round_trips].
    unfold bind at 1. unfold jwkSet_Keys, bind at 1, get at 1.
    cbn [jwkSet]. unfold ret at 1.
    destruct (find_kid kid (Keys last)) as [jwk |]; [| reflexivity].
    unfold ret at 1. unfold bind at 1. unfold lift.
    destruct (convert jwk); reflexivity.
Qed.

(** A key found in the cache is returned without any request. *)
Lemma getPublicKey_cached tm kid key :
  jwkCache tm !! kid = Some key -> getKey kid tm = (Ok key, tm).
Proof.
  intros Hc. unfold getPublicKey, bind, get. rewrite Hc. reflexivity.
Qed.

End CacheFacts.

(** C3, as the code has it. For a key id absent from the key cache and
    from the first key set searched, [getPublicKey] fetches the key set once
    more, the fetched set replacing the held one, and decides on that set.
    The first set searched is the one already held, if any: then the call
    makes one fetch; otherwise it is fetched first and the call makes two.
    When the last set lacks the key id the call fails with the unknown-key
    error and leaves the cache as it was; when it has an entry for the key id
    and the entry converts, the key is cached under the key id and returned. *)
Theorem getPublicKey_cache_miss
    (http_NewRequest : string -> string -> option error)
    (json_Unmarshal_JWKSet : string -> outcome JWKSet)
    (base64_StdEncoding_DecodeString : string -> outcome (list byte))
    (base64_RawURLEncoding_DecodeString : string -> outcome (list byte))
    (x509_ParseCertificate : list byte -> outcome x509_Certificate)
    (tm : TokenManager) (kid : string) (first last : JWKSet) :
  jwkCache tm !! kid = None ->
  match jwkSet tm with
  | Some held => first = held
  | None =>
      jwks_response http_NewRequest json_Unmarshal_JWKSet
        (tm_Client tm) (tm_round_trips tm) first
  end ->
  find_kid kid (Keys first) = None ->
  let fetches := match jwkSet tm with None => 2%nat | Some _ => 1%nat end in
  jwks_response http_NewRequest json_Unmarshal_JWKSet
    (tm_Client tm) (fetches - 1 + tm_round_trips tm) last ->
  let tm' := {| tm_Client := tm_Client tm;
                jwkSet := Some last;
                jwkCache := jwkCache tm;
                tm_round_trips := fetches + tm_round_trips tm |} in
  let getKey :=
    getPublicKey http_NewRequest json_Unmarshal_JWKSet
      base64_StdEncoding_DecodeString base64_RawURLEncoding_DecodeString
      x509_ParseCertificate in
  (find_kid kid (Keys last) = None ->
   getKey kid tm = (Err (Errorf "key with kid %s not found" [AStr kid]), tm'))
  /\ (forall jwk key,
        find_kid kid (Keys last) = Some jwk ->
        jwkToRSAPublicKey base64_StdEncoding_DecodeString
          base64_RawURLEncoding_DecodeString x509_ParseCertificate jwk
        = Ok key ->
        getKey kid tm = (Ok key, set_jwkCache kid key tm')
        /\ jwkCache (set_jwkCache kid key tm') !! kid = Some key).
Proof.
  intros Hcache Hfirst Hmiss fetches Hlast tm' getKey.
  assert (Hstep := getPublicKey_after_miss
            http_NewRequest json_Unmarshal_JWKSet
            base64_StdEncoding_DecodeString base64_RawURLEncoding_DecodeString
            x509_ParseCertificate tm kid first last Hcache Hfirst Hmiss).
  cbv zeta in Hstep.
  assert (Hk : (fetches - 1)%nat
               = match jwkSet tm with None => 1%nat | Some _ => 0%nat end)
    by (subst fetches; destruct (jwkSet tm); reflexivity).
  assert (Hf : fetches
               = S match jwkSet tm with None => 1%nat | Some _ => 0%nat end)
    by (subst fetches; destruct (jwkSet tm); reflexivity).
  rewrite Hk in Hlast. specialize (Hstep Hlast).
  subst getKey tm'. rewrite Hf. split.
  - intros Hnone. rewrite Hstep, Hnone. reflexivity.
  - intros jwk key Hsome Hconv. rewrite Hstep, Hsome, Hconv.
    split; [reflexivity |]. cbn. apply lookup_insert_eq.
Qed.

Lemma getPublicKey_cache_miss_witness :
  let tm := NewTokenManager (Fixture.client_with Fixture.jwks_endpoint_rotating) in
  let getKey :=
    getPublicKey Fixture.NewRequest_ok Fixture.decode_jwks Fixture.Std_decode
      Fixture.RawURL_decode Fixture.parse_cert in
  jwkCache tm !! "key-2" = None
  /\ find_kid "key-2" (Keys Fixture.jwks_v1) = None
  /\ find_kid "key-2" (Keys Fixture.jwks_v2) = Some Fixture.key_2
  /\ getKey "key-2" tm
     = (Ok Fixture.rsa_key_2,
        {| tm_Client := tm_Client tm;
           jwkSet := Some Fixture.jwks_v2;
           jwkCache := <["key-2" := Fixture.rsa_key_2]> ∅;
           tm_round_trips := 2 |}).
Proof.
  intros tm getKey.
  split; [reflexivity |]. split; [reflexivity |]. split; [reflexivity |].
  refine (proj1 (proj2 (getPublicKey_cache_miss
            Fixture.NewRequest_ok Fixture.decode_jwks Fixture.Std_decode
            Fixture.RawURL_decode Fixture.parse_cert
            tm "key-2" Fixture.jwks_v1 Fixture.jwks_v2 _ _ _ _)
          Fixture.key_2 Fixture.rsa_key_2 _ _)).
  - reflexivity.
  - exists Fixture.civic, "jwks-v1". repeat split; reflexivity.
  - reflexivity.
  - exists Fixture.civic, "jwks-v2". repeat split; reflexivity.
  - reflexivity.
  - reflexivity.
Defined.

(** A key set in the plain [{kty, use, kid, n, e}] form makes the lookup of
    its key panic, through the conversion. *)
Example getPublicKey_modulus_key_panics :
  fst (getPublicKey Fixture.NewRequest_ok Fixture.decode_jwks Fixture.Std_decode
         Fixture.RawURL_decode Fixture.parse_cert "key-3"
         (NewTokenManager (Fixture.client_with Fixture.jwks_endpoint_v3)))
  = Panic.
Proof. reflexivity. Qed.

(** C3, as stated, fails: once a key set is held (here after [key-1] was
    resolved), a call for a key id that is in neither the cache nor the key
    set fails with the unknown-key error after one fetch, not two. *)
Lemma getPublicKey_two_fetches_counterexample :
  let getKey :=
    getPublicKey Fixture.NewRequest_ok Fixture.decode_jwks Fixture.Std_decode
      Fixture.RawURL_decode Fixture.parse_cert in
  let tm0 :=
    snd (getKey "key-1"
           (NewTokenManager (Fixture.client_with Fixture.jwks_endpoint_v1))) in
  jwkCache tm0 !! "key-9" = None
  /\ fst (getKey "key-9" tm0)
     = Err (Errorf "key with kid %s not found" [AStr "key-9"])
  /\ tm_round_trips (snd (getKey "key-9" tm0)) = S (tm_round_trips tm0)
  /\ tm_round_trips (snd (getKey "key-9" tm0)) <> (2 + tm_round_trips tm0)%nat.
Proof.
  cbv zeta. repeat split; try reflexivity. vm_compute. discriminate.
Qed.

(** * The manager's client is never replaced *)

(** No method of the token manager assigns [tm.Client]: whatever a call
    does to the key set and the cache, the configuration it validates
    against is the one it started with ([keeps_Client]). *)
Create HintDb keeps_Client discriminated.

Section KeepsClient.

Context {A B : Type}.

Lemma keeps_ret (a : A) : keeps_Client (ret a).
Proof. intros tm. reflexivity. Qed.

Lemma keeps_fail (e : error) : keeps_Client (@fail TokenManager A e).
Proof. intros tm. reflexivity. Qed.

Lemma keeps_lift (o : outcome A) : keeps_Client (lift o).
Proof. intros tm. reflexivity. Qed.

Lemma keeps_get : keeps_Client get.
Proof. intros tm. reflexivity. Qed.

Lemma keeps_modify (f : TokenManager -> TokenManager) :
  (forall tm, tm_Client (f tm) = tm_Client tm) -> keeps_Client (modify f).
Proof. intros Hf tm. apply Hf. Qed.

Lemma keeps_bind (m : M TokenManager A) (k : A -> M TokenManager B) :
  keeps_Client m -> (forall a, keeps_Client (k a)) -> keeps_Client (bind m k).
Proof.
  intros Hm Hk tm. unfold bind. specialize (Hm tm).
  destruct (m tm) as [[a | e |] tm1]; cbn in *; try assumption.
  rewrite (Hk a tm1). assumption.
Qed.

Lemma keeps_wrapping (format : string) (m : M TokenManager A) :
  keeps_Client m -> keeps_Client (wrapping format m).
Proof.
  intros Hm tm. unfold wrapping. specialize (Hm tm).
  destruct (m tm) as [o tm1]. assumption.
Qed.

End KeepsClient.

#[export] Hint Resolve keeps_ret keeps_fail keeps_lift keeps_get keeps_modify
  keeps_bind keeps_wrapping : keeps_Client.

(** Walk through a method body: binds, wrappings and case distinctions. *)
Ltac keeps_Client_step :=
  match goal with
  | |- keeps_Client (bind _ _) => apply keeps_bind; [| intros ?]
  | |- keeps_Client (wrapping _ _) => apply keeps_wrapping
  | |- keeps_Client (modify _) => apply keeps_modify; intros ?; reflexivity
  | |- keeps_Client (match ?x with _ => _ end) => destruct x
  | |- keeps_Client (if ?b then _ else _) => destruct b
  | |- keeps_Client (let _ := _ in _) => cbv zeta
  | |- keeps_Client _ => solve [auto with keeps_Client]
  end.

Section ManagerKeepsClient.

Variable http_NewRequest : string -> string -> option error.
Variable json_Unmarshal_JWKSet : string -> outcome JWKSet.
Variable base64_StdEncoding_DecodeString : string -> outcome (list byte).
Variable base64_RawURLEncoding_DecodeString : string -> outcome (list byte).
Variable x509_ParseCertificate : list byte -> outcome x509_Certificate.
Variable jwt_decode : string -> outcome jwt_segments.
Variable jwt_Verify :
  SigningMethod -> string -> list byte -> rsa_PublicKey -> option error.
Variable jwt_Validate : gmap string json_value -> option error.

Lemma fetchJWKSet_keeps_Client :
  keeps_Client (fetchJWKSet http_NewRequest json_Unmarshal_JWKSet).
Proof. unfold fetchJWKSet. repeat keeps_Client_step. Qed.

Lemma jwkSet_Keys_keeps_Client : keeps_Client jwkSet_Keys.
Proof. unfold jwkSet_Keys. repeat keeps_Client_step. Qed.

Lemma getPublicKey_keeps_Client kid :
  keeps_Client
    (getPublicKey http_NewRequest json_Unmarshal_JWKSet
       base64_StdEncoding_DecodeString base64_RawURLEncoding_DecodeString
       x509_ParseCertificate kid).
Proof.
  pose proof fetchJWKSet_keeps_Client. pose proof jwkSet_Keys_keeps_Client.
  unfold getPublicKey. repeat keeps_Client_step.
Qed.

Lemma keyFunc_keeps_Client token :
  keeps_Client
    (keyFunc http_NewRequest json_Unmarshal_JWKSet
       base64_StdEncoding_DecodeString base64_RawURLEncoding_DecodeString
       x509_ParseCertificate token).
Proof.
  pose proof getPublicKey_keeps_Client.
  unfold keyFunc, tm_getPublicKey. repeat keeps_Client_step.
Qed.

Lemma jwt_Parse_keeps_Client tokenString :
  keeps_Client
    (jwt_Parse jwt_decode jwt_Verify jwt_Validate tokenString
       (keyFunc http_NewRequest json_Unmarshal_JWKSet
          base64_StdEncoding_DecodeString base64_RawURLEncoding_DecodeString
          x509_ParseCertificate)).
Proof.
  pose proof keyFunc_keeps_Client.
  unfold jwt_Parse. repeat keeps_Client_step.
Qed.

End ManagerKeepsClient.

(** * ID token validation *)

Lemma GetSigningMethod_RSA alg name :
  jwt_GetSigningMethod alg = Some (SigningMethodRSA name) ->
  one_of ["RS256"; "RS384"; "RS512"] alg = true.
Proof.
  unfold jwt_GetSigningMethod.
  destruct (one_of ["RS256"; "RS384"; "RS512"] alg); [reflexivity |].
  repeat match goal with
         | |- context [if ?b then _ else _] => destruct b
         end; discriminate.
Qed.

Section ParseFacts.

Context {St : Type}.
Variable jwt_decode : string -> outcome jwt_segments.
Variable jwt_Verify :
  SigningMethod -> string -> list byte -> rsa_PublicKey -> option error.
Variable jwt_Validate : gmap string json_value -> option error.

(** [jwt.Parse] step by step, for a token that decodes and declares a
    registered algorithm: the signature is decoded before the key function
    runs, the claims are validated last. *)
Lemma jwt_Parse_steps tokenString (keyFunc : jwt_Token -> M St rsa_PublicKey)
    st seg alg method :
  jwt_decode tokenString = Ok seg ->
  seg_header seg !! "alg" = Some (JString alg) ->
  jwt_GetSigningMethod alg = Some method ->
  jwt_Parse jwt_decode jwt_Verify jwt_Validate tokenString keyFunc st =
    match seg_signature seg with
    | inr err =>
        (Err (Errorf "token is malformed: could not base64 decode signature: %w"
                [AErr err]), st)
    | inl sig =>
        match keyFunc (unverified tokenString method seg) st with
        | (Ok key, st') =>
            match jwt_Verify method (seg_signing_string seg) sig key with
            | Some err =>
                (Err (Errorf "token signature is invalid: %w" [AErr err]), st')
            | None =>
                match jwt_Validate (seg_claims seg) with
                | Some err =>
                    (Err (Errorf "token has invalid claims: %w" [AErr err]), st')
                | None =>
                    (Ok {| Raw := tokenString; Method := method;
                           Header := seg_header seg;
                           token_Claims := seg_claims seg;
                           Signature := sig; Valid := true |}, st')
                end
            end
        | (Err e, st') =>
            (Err (Errorf
                    "token is unverifiable: error while executing keyfunc: %w"
                    [AErr e]), st')
        | (Panic, st') => (Panic, st')
        end
    end.
Proof.
  intros Hdec Halg Hm. unfold jwt_Parse, bind at 1, lift.
  rewrite Hdec. cbn [wrap_err]. rewrite Halg, Hm. cbv zeta.
  destruct (seg_signature seg) as [sig | err]; [| reflexivity].
  unfold bind at 1, wrapping.
  destruct (keyFunc (unverified tokenString method seg) st)
    as [[key | e |] st1]; cbn [wrap_err]; try reflexivity.
  destruct (jwt_Verify method (seg_signing_string seg) sig key);
    [reflexivity |].
  destruct (jwt_Validate (seg_claims seg)); reflexivity.
Qed.

(** A successful [jwt.Parse] went through every step: the key function
    returned a key for the declared method, and the token is marked valid.
    The state is the one the key function left. *)
Lemma jwt_Parse_Ok_inv tokenString (keyFunc : jwt_Token -> M St rsa_PublicKey)
    st token st' :
  jwt_Parse jwt_decode jwt_Verify jwt_Validate tokenString keyFunc st
  = (Ok token, st') ->
  exists seg alg key,
    jwt_decode tokenString = Ok seg
    /\ seg_header seg !! "alg" = Some (JString alg)
    /\ jwt_GetSigningMethod alg = Some (Method token)
    /\ keyFunc (unverified tokenString (Method token) seg) st = (Ok key, st')
    /\ token_Claims token = seg_claims seg
    /\ Valid token = true.
Proof.
  unfold jwt_Parse, bind at 1, lift.
  destruct (jwt_decode tokenString) as [seg | e |]; cbn [wrap_err];
    try discriminate.
  destruct (seg_header seg !! "alg") as [[| | | alg |] |] eqn:Halg;
    try discriminate.
  destruct (jwt_GetSigningMethod alg) as [method |] eqn:Hm; try discriminate.
  cbv zeta.
  destruct (seg_signature seg) as [sig | e]; try discriminate.
  unfold bind at 1, wrapping.
  destruct (keyFunc (unverified tokenString method seg) st)
    as [[key | e |] st1] eqn:Hkf; cbn [wrap_err]; try discriminate.
  destruct (jwt_Verify method (seg_signing_string seg) sig key);
    try discriminate.
  destruct (jwt_Validate (seg_claims seg)); try discriminate.
  unfold ret. intros [= <- <-]. cbn.
  exists seg, alg, key. repeat split; assumption.
Qed.

End ParseFacts.

Section ValidatorFacts.

Variable http_NewRequest : string -> string -> option error.
Variable json_Unmarshal_JWKSet : string -> outcome JWKSet.
Variable base64_StdEncoding_DecodeString : string -> outcome (list byte).
Variable base64_RawURLEncoding_DecodeString : string -> outcome (list byte).
Variable x509_ParseCertificate : list byte -> outcome x509_Certificate.
Variable jwt_decode : string -> outcome jwt_segments.
Variable jwt_Verify :
  SigningMethod -> string -> list byte -> rsa_PublicKey -> option error.
Variable MapClaims_GetExpirationTime : gmap string json_value -> numeric_date.
Variable MapClaims_GetNotBefore : gmap string json_value -> numeric_date.
Variable json_Marshal_MapClaims : gmap string json_value -> outcome string.
Variable json_Unmarshal_Claims : string -> outcome Claims.

Local Abbreviation getKey :=
  (tm_getPublicKey http_NewRequest json_Unmarshal_JWKSet
     base64_StdEncoding_DecodeString base64_RawURLEncoding_DecodeString
     x509_ParseCertificate).
Local Abbreviation keyFunc' :=
  (keyFunc http_NewRequest json_Unmarshal_JWKSet
     base64_StdEncoding_DecodeString base64_RawURLEncoding_DecodeString
     x509_ParseCertificate).
Local Abbreviation library_validator :=
  (jwt_Validator_Validate MapClaims_GetExpirationTime MapClaims_GetNotBefore).
Local Abbreviation parse :=
  (tm_jwt_Parse http_NewRequest json_Unmarshal_JWKSet
     base64_StdEncoding_DecodeString base64_RawURLEncoding_DecodeString
     x509_ParseCertificate jwt_decode jwt_Verify
     MapClaims_GetExpirationTime MapClaims_GetNotBefore).
Local Abbreviation validate :=
  (ValidateIDToken http_NewRequest json_Unmarshal_JWKSet
     base64_StdEncoding_DecodeString base64_RawURLEncoding_DecodeString
     x509_ParseCertificate jwt_decode jwt_Verify
     MapClaims_GetExpirationTime MapClaims_GetNotBefore
     json_Marshal_MapClaims json_Unmarshal_Claims).

(** The errors [jwt.Parse] and the key function are wrapped in. *)
Local Abbreviation parse_error e :=
  (Errorf "failed to parse and verify ID token: %w" [AErr e]).
Local Abbreviation keyfunc_error e :=
  (parse_error
     (Errorf "token is unverifiable: error while executing keyfunc: %w"
        [AErr e])).

(** The key function hands out a key for an RSA method only. *)
Lemma keyFunc_Ok_inv token tm key tm' :
  keyFunc' token tm = (Ok key, tm') ->
  exists name, Method token = SigningMethodRSA name.
Proof.
  unfold keyFunc.
  destruct (Header token !! "kid") as [[| | | kid |] |]; try discriminate.
  unfold bind, wrapping.
  destruct (getKey kid tm) as [[k | e |] tm1]; cbn [wrap_err]; try discriminate.
  destruct (Method token); try discriminate. eauto.
Qed.

(** What the key function does with a token that names a key id: resolve
    the key first, look at the method afterwards. *)
Lemma keyFunc_kid token tm kid :
  Header token !! "kid" = Some (JString kid) ->
  keyFunc' token tm =
    match getKey kid tm with
    | (Ok publicKey, tm') =>
        match Method token with
        | SigningMethodRSA _ => (Ok publicKey, tm')
        | _ => (Err (Errorf "unexpected signing method: %v"
                       [AVal (default JNull (Header token !! "alg"))]), tm')
        end
    | (Err e, tm') => (Err (Errorf "failed to get public key: %w" [AErr e]), tm')
    | (Panic, tm') => (Panic, tm')
    end.
Proof.
  intros Hkid. unfold keyFunc. rewrite Hkid. unfold bind, wrapping.
  destruct (getKey kid tm) as [[k | e |] tm1]; cbn [wrap_err]; try reflexivity.
  destruct (Method token); reflexivity.
Qed.

(** Without a key id (as a string) in the header the key function stops at
    once. *)
Lemma keyFunc_no_kid token tm :
  (forall kid, Header token !! "kid" <> Some (JString kid)) ->
  keyFunc' token tm = (Err (Errorf "token header missing kid" []), tm).
Proof.
  intros Hno. unfold keyFunc.
  destruct (Header token !! "kid") as [[| | | kid |] |]; try reflexivity.
  exfalso. exact (Hno kid eq_refl).
Qed.

(** Claims come out of [ValidateIDToken] only after [jwt.Parse] accepted. *)
Lemma ValidateIDToken_Ok_inv idToken now_parse now tm claims tm' :
  validate idToken now_parse now tm = (Ok claims, tm') ->
  exists token tm1, parse idToken now_parse tm = (Ok token, tm1).
Proof.
  unfold ValidateIDToken, bind at 1, wrapping.
  destruct (parse idToken now_parse tm) as [[token | e |] tm1];
    cbn [wrap_err]; try discriminate.
  eauto.
Qed.

(** What [jwt.Parse] turns away, [ValidateIDToken] turns away, with the
    error wrapped and in the state [jwt.Parse] left. *)
Lemma ValidateIDToken_parse_rejects idToken now_parse now tm :
  match parse idToken now_parse tm with
  | (Ok _, _) => True
  | (Err e, tm') =>
      validate idToken now_parse now tm = (Err (parse_error e), tm')
  | (Panic, tm') => validate idToken now_parse now tm = (Panic, tm')
  end.
Proof.
  set (r := validate idToken now_parse now tm).
  assert (Hr : r = validate idToken now_parse now tm) by reflexivity.
  clearbody r. unfold ValidateIDToken, bind at 1, wrapping in Hr.
  destruct (parse idToken now_parse tm) as [[token | e |] tm1];
    [exact I | exact Hr | exact Hr].
Qed.

(** The claim checks that follow a successful [jwt.Parse]. *)
Lemma ValidateIDToken_after_parse idToken now_parse now tm token tm'
    claimsJSON claims :
  parse idToken now_parse tm = (Ok token, tm') ->
  json_Marshal_MapClaims (token_Claims token) = Ok claimsJSON ->
  json_Unmarshal_Claims claimsJSON = Ok claims ->
  let cfg := config (tm_Client tm) in
  validate idToken now_parse now tm =
    (if negb (String.eqb (claims_Issuer claims) (Issuer cfg))
     then Err (Errorf "invalid issuer: expected %s, got %s"
                 [AStr (Issuer cfg); AStr (claims_Issuer claims)])
     else if negb (String.eqb (Audience claims) (ClientID cfg))
     then Err (Errorf "invalid audience: expected %s, got %s"
                 [AStr (ClientID cfg); AStr (Audience claims)])
     else if time_Unix (Expiry claims) 0 <? now
     then Err (Errorf "token has expired" [])
     else Ok claims,
     tm').
Proof.
  intros Hparse Hm Hu cfg.
  assert (Hvalid : Valid token = true).
  { unfold tm_jwt_Parse in Hparse.
    destruct (jwt_Parse_Ok_inv _ _ _ _ _ _ _ _ Hparse)
      as (seg & alg & key & _ & _ & _ & _ & _ & Hvalid).
    exact Hvalid. }
  assert (Hclient : tm_Client tm' = tm_Client tm).
  { pose proof (jwt_Parse_keeps_Client http_NewRequest json_Unmarshal_JWKSet
                  base64_StdEncoding_DecodeString
                  base64_RawURLEncoding_DecodeString x509_ParseCertificate
                  jwt_decode jwt_Verify (library_validator now_parse)
                  idToken tm) as Hkeep.
    unfold tm_jwt_Parse in Hparse. rewrite Hparse in Hkeep. exact Hkeep. }
  unfold ValidateIDToken, bind at 1, wrapping. rewrite Hparse.
  cbn [wrap_err]. rewrite Hvalid. cbn [negb].
  unfold bind at 1, lift. rewrite Hm. cbn [wrap_err].
  unfold bind at 1. rewrite Hu. cbn [wrap_err].
  unfold bind, get. rewrite Hclient. fold cfg. unfold time_Before.
  destruct (negb _); [reflexivity |].
  destruct (negb _); [reflexivity |].
  destruct (_ <? _); reflexivity.
Qed.

(** A method that a header not declaring RS256, RS384 or RS512 leads to is
    not the RSA method. *)
Lemma non_RSA_method seg alg method :
  declares_RSA seg = false ->
  seg_header seg !! "alg" = Some (JString alg) ->
  jwt_GetSigningMethod alg = Some method ->
  forall name, method <> SigningMethodRSA name.
Proof.
  intros Hrsa Halg Hm name ->.
  apply GetSigningMethod_RSA in Hm.
  unfold declares_RSA in Hrsa. rewrite Halg in Hrsa. congruence.
Qed.

(** The way of a token that does not declare RS256, RS384 or RS512 through
    [ValidateIDToken], step by step. *)
Lemma ValidateIDToken_non_RSA_steps idToken now_parse now tm seg :
  jwt_decode idToken = Ok seg ->
  declares_RSA seg = false ->
  validate idToken now_parse now tm =
    match seg_header seg !! "alg" with
    | Some (JString alg) =>
        match jwt_GetSigningMethod alg with
        | None =>
            (Err (parse_error
                    (Errorf
                       "token is unverifiable: signing method (alg) is unavailable"
                       [])), tm)
        | Some _ =>
            match seg_signature seg with
            | inr err =>
                (Err (parse_error
                        (Errorf
                           "token is malformed: could not base64 decode signature: %w"
                           [AErr err])), tm)
            | inl _ =>
                match seg_header seg !! "kid" with
                | Some (JString kid) =>
                    match getKey kid tm with
                    | (Ok _, tm') =>
                        (Err (keyfunc_error
                                (Errorf "unexpected signing method: %v"
                                   [AVal (JString alg)])), tm')
                    | (Err e, tm') =>
                        (Err (keyfunc_error
                                (Errorf "failed to get public key: %w"
                                   [AErr e])), tm')
                    | (Panic, tm') => (Panic, tm')
                    end
                | _ =>
                    (Err (keyfunc_error (Errorf "token header missing kid" [])),
                     tm)
                end
            end
        end
    | _ =>
        (Err (parse_error
                (Errorf
                   "token is unverifiable: signing method (alg) is unspecified"
                   [])), tm)
    end.
Proof.
  intros Hdec Hrsa.
  pose proof (ValidateIDToken_parse_rejects idToken now_parse now tm) as Hrej.
  destruct (seg_header seg !! "alg") as [v |] eqn:Halg.
  2: { unfold tm_jwt_Parse, jwt_Parse, bind at 1, lift in Hrej.
       rewrite Hdec in Hrej. cbn [wrap_err] in Hrej. rewrite Halg in Hrej.
       exact Hrej. }
  destruct v as [| b | lit | alg | text];
    try (unfold tm_jwt_Parse, jwt_Parse, bind at 1, lift in Hrej;
         rewrite Hdec in Hrej; cbn [wrap_err] in Hrej; rewrite Halg in Hrej;
         exact Hrej).
  destruct (jwt_GetSigningMethod alg) as [method |] eqn:Hm.
  2: { unfold tm_jwt_Parse, jwt_Parse, bind at 1, lift in Hrej.
       rewrite Hdec in Hrej. cbn [wrap_err] in Hrej.
       rewrite Halg, Hm in Hrej. exact Hrej. }
  pose proof (non_RSA_method seg alg method Hrsa Halg Hm) as Hnot.
  unfold tm_jwt_Parse in Hrej.
  rewrite (jwt_Parse_steps _ _ _ _ _ _ _ _ _ Hdec Halg Hm) in Hrej.
  destruct (seg_signature seg) as [sig | err]; [| exact Hrej].
  destruct (seg_header seg !! "kid") as [v |] eqn:Hkid.
  2: { rewrite keyFunc_no_kid in Hrej; [exact Hrej |].
       intros kid. cbn [Header unverified]. rewrite Hkid. discriminate. }
  destruct v as [| b | lit | kid | text];
    try (rewrite keyFunc_no_kid in Hrej;
         [exact Hrej
         | intros kid; cbn [Header unverified]; rewrite Hkid; discriminate]).
  rewrite (keyFunc_kid (unverified idToken method seg) tm kid Hkid) in Hrej.
  cbn [Method Header unverified] in Hrej. rewrite Halg in Hrej.
  cbn [default from_option id] in Hrej.
  destruct (getKey kid tm) as [[key | e |] tm1]; try exact Hrej.
  destruct method; try exact Hrej.
  exfalso. exact (Hnot name eq_refl).
Qed.

(** C1, as the code has it. A token whose header does not declare RS256,
    RS384 or RS512 never yields claims, and the call returns an error unless
    [getPublicKey] panics. The rejection is immediate, the manager being
    left as it was, when the header declares no algorithm the library has
    registered, when the signature segment does not decode, which
    [jwt.Parse] finds out before it calls the key function, and when the
    header names no key id. Otherwise the check of the method sits in the
    key function behind the key lookup: a failure of [getPublicKey] is what
    is returned, and when [getPublicKey] resolves the key the
    unexpected-signing-method error is returned in the state it left, that
    is after its fetches and its cache fill. *)
Theorem ValidateIDToken_rejects_non_RSA
    (idToken : string) (now_parse now : Time) (tm : TokenManager)
    (seg : jwt_segments) :
  jwt_decode idToken = Ok seg ->
  declares_RSA seg = false ->
  let result := validate idToken now_parse now tm in
  (forall claims tm', result <> (Ok claims, tm'))
  /\ (is_Err (fst result) = true
      \/ exists kid, seg_header seg !! "kid" = Some (JString kid)
                     /\ fst (getKey kid tm) = Panic)
  /\ result =
       match seg_header seg !! "alg" with
       | Some (JString alg) =>
           match jwt_GetSigningMethod alg with
           | None =>
               (Err (parse_error
                       (Errorf
                          "token is unverifiable: signing method (alg) is unavailable"
                          [])), tm)
           | Some _ =>
               match seg_signature seg with
               | inr err =>
                   (Err (parse_error
                           (Errorf
                              "token is malformed: could not base64 decode signature: %w"
                              [AErr err])), tm)
               | inl _ =>
                   match seg_header seg !! "kid" with
                   | Some (JString kid) =>
                       match getKey kid tm with
                       | (Ok _, tm') =>
                           (Err (keyfunc_error
                                   (Errorf "unexpected signing method: %v"
                                      [AVal (JString alg)])), tm')
                       | (Err e, tm') =>
                           (Err (keyfunc_error
                                   (Errorf "failed to get public key: %w"
                                      [AErr e])), tm')
                       | (Panic, tm') => (Panic, tm')
                       end
                   | _ =>
                       (Err (keyfunc_error
                               (Errorf "token header missing kid" [])), tm)
                   end
               end
           end
       | _ =>
           (Err (parse_error
                   (Errorf
                      "token is unverifiable: signing method (alg) is unspecified"
                      [])), tm)
       end.
Proof.
  intros Hdec Hrsa result.
  pose proof (ValidateIDToken_non_RSA_steps idToken now_parse now tm seg
                Hdec Hrsa) as Hsteps.
  fold result in Hsteps.
  split; [| split; [| exact Hsteps]].
  - intros claims tm' Hok. rewrite Hsteps in Hok.
    destruct (seg_header seg !! "alg") as [[| | | alg |] |];
      try discriminate.
    destruct (jwt_GetSigningMethod alg); try discriminate.
    destruct (seg_signature seg); try discriminate.
    destruct (seg_header seg !! "kid") as [[| | | kid |] |];
      try discriminate.
    destruct (getKey kid tm) as [[key | e |] tm1]; discriminate.
  - rewrite Hsteps.
    destruct (seg_header seg !! "alg") as [[| | | alg |] |];
      try (left; reflexivity).
    destruct (jwt_GetSigningMethod alg); try (left; reflexivity).
    destruct (seg_signature seg); try (left; reflexivity).
    destruct (seg_header seg !! "kid") as [[| | | kid |] |];
      try (left; reflexivity).
    destruct (getKey kid tm) as [[key | e |] tm1] eqn:Hget;
      try (left; reflexivity).
    right. exists kid. split; [reflexivity | rewrite Hget; reflexivity].
Qed.


(** What the library's validator lets pass. *)
Lemma jwt_Validator_Validate_None now_parse claims :
  library_validator now_parse claims = None
  <-> jwt_verifyExpiresAt (MapClaims_GetExpirationTime claims) now_parse = None
      /\ jwt_verifyNotBefore (MapClaims_GetNotBefore claims) now_parse = None.
Proof.
  unfold jwt_Validator_Validate.
  destruct (jwt_verifyExpiresAt _ _), (jwt_verifyNotBefore _ _); cbn;
    split; intros H; try discriminate; try (destruct H; discriminate);
    auto.
Qed.


End ValidatorFacts.

Lemma ValidateIDToken_rejects_non_RSA_witness :
  let now := time_Unix 1600000000 0 in
  (forall claims tm',
     Fixture.validator "hs256.key-1.token" now now Fixture.manager
     <> (Ok claims, tm'))
  /\ Fixture.validator "hs256.key-1.!!!" now now Fixture.manager
     = (Err (Errorf "failed to parse and verify ID token: %w"
               [AErr (Errorf
                  "token is malformed: could not base64 decode signature: %w"
                  [AErr (New "illegal base64 data at input byte 0")])]),
        Fixture.manager).
Proof.
  intros now. split.
  - refine (proj1 (ValidateIDToken_rejects_non_RSA
              Fixture.NewRequest_ok Fixture.decode_jwks Fixture.Std_decode
              Fixture.RawURL_decode Fixture.parse_cert Fixture.decode_jwt
              Fixture.verify (Fixture.numeric_date_of "exp")
              (Fixture.numeric_date_of "nbf") Fixture.marshal_claims
              Fixture.unmarshal_claims
              "hs256.key-1.token" now now Fixture.manager
              (Fixture.segments "HS256" "key-1" "1700000000") _ _));
      reflexivity.
  - refine (eq_trans
              (proj2 (proj2 (ValidateIDToken_rejects_non_RSA
                 Fixture.NewRequest_ok Fixture.decode_jwks Fixture.Std_decode
                 Fixture.RawURL_decode Fixture.parse_cert Fixture.decode_jwt
                 Fixture.verify (Fixture.numeric_date_of "exp")
                 (Fixture.numeric_date_of "nbf") Fixture.marshal_claims
                 Fixture.unmarshal_claims
                 "hs256.key-1.!!!" now now Fixture.manager
                 (Fixture.segments_bad_signature "HS256" "key-1" "1700000000")
                 _ _))) _);
      reflexivity.
Defined.

(** C1, as stated, fails on the order. An HS256 token that names [key-1] is
    rejected for its algorithm only after the key set was fetched and the
    key cached; a token with algorithm none that names an unknown key id is
    rejected for the key, after two fetches, and the algorithm is never
    looked at. *)
Lemma ValidateIDToken_alg_check_order_counterexample :
  let now := time_Unix 1600000000 0 in
  let hs := Fixture.validator "hs256.key-1.token" now now Fixture.manager in
  let none := Fixture.validator "none.key-9.token" now now Fixture.manager in
  declares_RSA (Fixture.segments "HS256" "key-1" "1700000000") = false
  /\ fst hs
     = Err (Errorf "failed to parse and verify ID token: %w"
              [AErr (Errorf
                 "token is unverifiable: error while executing keyfunc: %w"
                 [AErr (Errorf "unexpected signing method: %v"
                          [AVal (JString "HS256")])])])
  /\ jwkCache Fixture.manager !! "key-1" = None
  /\ snd hs = Fixture.manager_key_1
  /\ jwkCache (snd hs) !! "key-1" = Some Fixture.rsa_key_1
  /\ tm_round_trips (snd hs) = 1%nat
  /\ declares_RSA (Fixture.segments "none" "key-9" "1700000000") = false
  /\ fst none
     = Err (Errorf "failed to parse and verify ID token: %w"
              [AErr (Errorf
                 "token is unverifiable: error while executing keyfunc: %w"
                 [AErr (Errorf "failed to get public key: %w"
                    [AErr (Errorf "key with kid %s not found"
                             [AStr "key-9"])])])])
  /\ tm_round_trips (snd none) = 2%nat.
Proof.
  cbv zeta. repeat split; reflexivity.
Qed.



(** * More on the in-memory token storage *)

(** The empty user id is refused by all three operations, and the refusal
    leaves the storage as it was. *)
Lemma storage_empty_user_id (s : InMemoryTokenStorage) (t : TokenResponse) :
  Store "" t s = (Err (New "user ID cannot be empty"), s)
  /\ Retrieve "" s = (Err (New "user ID cannot be empty"), s)
  /\ Delete "" s = (Err (New "user ID cannot be empty"), s).
Proof. repeat split. Qed.

(** Storing or deleting the record of one user does not change what
    [Retrieve] answers for any other user. *)
Theorem storage_other_users_untouched
    (s : InMemoryTokenStorage) (userID other : string) (t : TokenResponse) :
  userID <> "" ->
  other <> userID ->
  fst (Retrieve other (snd (Store userID t s))) = fst (Retrieve other s)
  /\ fst (Retrieve other (snd (Delete userID s))) = fst (Retrieve other s).
Proof.
  intros Hne Hother.
  rewrite (Store_ok _ t _ Hne), (Delete_ok _ s Hne). cbn [snd].
  cbn. unfold InMemory.Retrieve.
  destruct (String.eqb other ""); [split; reflexivity |].
  unfold bind, get. cbn [tokens].
  rewrite lookup_insert_ne, lookup_delete_ne by congruence.
  destruct (tokens s !! other); split; reflexivity.
Qed.

Lemma storage_other_users_untouched_witness :
  let s := Fixture.stored "user456" Fixture.tokens_without_expiry in
  fst (Retrieve "user456" (snd (Store "user123" Fixture.sample_tokens s)))
  = Ok Fixture.tokens_without_expiry
  /\ fst (Retrieve "user456" (snd (Delete "user123" s)))
     = Ok Fixture.tokens_without_expiry.
Proof.
  intros s.
  destruct (storage_other_users_untouched s "user123" "user456"
              Fixture.sample_tokens) as [H1 H2];
    [discriminate | discriminate |].
  rewrite H1, H2. split; reflexivity.
Defined.

(** A record is overwritten by the next [Store] for the same user: the last
    write wins, and the storage is the same as if only the last one had been
    stored. *)
Theorem storage_last_write_wins
    (s : InMemoryTokenStorage) (userID : string) (t1 t2 : TokenResponse) :
  userID <> "" ->
  snd (Store userID t2 (snd (Store userID t1 s))) = snd (Store userID t2 s)
  /\ Retrieve userID (snd (Store userID t2 (snd (Store userID t1 s))))
     = (Ok t2, snd (Store userID t2 s)).
Proof.
  intros Hne.
  rewrite !(Store_ok _ _ _ Hne). cbn [snd tokens].
  rewrite insert_insert_eq. split; [reflexivity |].
  apply Retrieve_found; [assumption |]. cbn. apply lookup_insert_eq.
Qed.

Lemma storage_last_write_wins_witness :
  Retrieve "user123"
    (snd (Store "user123" Fixture.refreshed
            (snd (Store "user123" Fixture.sample_tokens
                    NewInMemoryTokenStorage))))
  = (Ok Fixture.refreshed,
     snd (Store "user123" Fixture.refreshed NewInMemoryTokenStorage)).
Proof.
  refine (proj2 (storage_last_write_wins NewInMemoryTokenStorage "user123"
                   Fixture.sample_tokens Fixture.refreshed _)).
  discriminate.
Defined.

(** [Delete] succeeds whether or not the user has a record; deleting a user
    without a record changes nothing, so deleting twice is deleting once. *)
Theorem storage_delete_absent
    (s : InMemoryTokenStorage) (userID : string) :
  userID <> "" ->
  (tokens s !! userID = None -> Delete userID s = (Ok tt, s))
  /\ Delete userID (snd (Delete userID s)) = (Ok tt, snd (Delete userID s)).
Proof.
  intros Hne. rewrite !(Delete_ok _ _ Hne). cbn [snd tokens]. split.
  - intros Hnone. rewrite (delete_id _ _ Hnone). destruct s; reflexivity.
  - rewrite delete_delete_eq. reflexivity.
Qed.

Lemma storage_delete_absent_witness :
  Delete "nonexistent" NewInMemoryTokenStorage = (Ok tt, NewInMemoryTokenStorage).
Proof.
  refine (proj1 (storage_delete_absent NewInMemoryTokenStorage "nonexistent" _) _).
  - discriminate.
  - reflexivity.
Defined.

(** * More on [IsTokenExpired] *)

Lemma wrap64_small (z : Z) : - 2 ^ 63 <= z < 2 ^ 63 -> wrap64 z = z.
Proof.
  intros Hz. unfold wrap64. rewrite Z.mod_small by lia. lia.
Qed.

(** For a positive [expires_in] whose duration fits 64 bits (up to
    9223372036 seconds) the token is expired exactly when the current time
    is strictly after the issue time plus [expires_in] seconds; at the very
    instant of expiry it is not yet expired. *)
Theorem IsTokenExpired_positive
    (tokenResp : TokenResponse) (issuedAt now : Time) :
  0 < ExpiresIn tokenResp <= 9223372036 ->
  IsTokenExpired tokenResp issuedAt now
  = (issuedAt + ExpiresIn tokenResp * 1000000000 <? now).
Proof.
  intros Hr. unfold IsTokenExpired.
  destruct (ExpiresIn tokenResp <=? 0) eqn:E; [apply Z.leb_le in E; lia |].
  unfold time_After, time_Add, time_Second.
  rewrite (wrap64_small (ExpiresIn tokenResp)) by lia.
  rewrite wrap64_small by lia. reflexivity.
Qed.

Lemma IsTokenExpired_positive_witness :
  IsTokenExpired Fixture.sample_tokens 5 (5 + 3600 * 1000000000) = false
  /\ IsTokenExpired Fixture.sample_tokens 5 (6 + 3600 * 1000000000) = true.
Proof.
  rewrite !(IsTokenExpired_positive Fixture.sample_tokens) by (cbn; lia).
  split; reflexivity.
Defined.

(** Beyond that range the multiplication by [time.Second] wraps around: for
    an [expires_in] between 9223372037 and 18446744073 seconds the duration
    is negative, and the token counts as expired at its own issue time. *)
Theorem IsTokenExpired_duration_overflow
    (tokenResp : TokenResponse) (issuedAt : Time) :
  9223372037 <= ExpiresIn tokenResp <= 18446744073 ->
  IsTokenExpired tokenResp issuedAt issuedAt = true.
Proof.
  intros Hr. unfold IsTokenExpired.
  destruct (ExpiresIn tokenResp <=? 0) eqn:E; [apply Z.leb_le in E; lia |].
  unfold time_After, time_Add, time_Second.
  rewrite (wrap64_small (ExpiresIn tokenResp)) by lia.
  apply Z.ltb_lt. unfold wrap64.
  assert (Hm : (ExpiresIn tokenResp * 1000000000 + 2 ^ 63) mod 2 ^ 64
               = ExpiresIn tokenResp * 1000000000 + 2 ^ 63 - 2 ^ 64).
  { symmetry. apply Z.mod_unique with (q := 1); lia. }
  rewrite Hm. lia.
Qed.

Lemma IsTokenExpired_duration_overflow_witness :
  IsTokenExpired
    {| AccessToken := "a"; RefreshToken := ""; IDToken := "";
       TokenType := "Bearer"; ExpiresIn := 10000000000; Scope := "" |}
    0 0 = true.
Proof.
  apply IsTokenExpired_duration_overflow. cbn. lia.
Defined.

(** * More on [RefreshToken] and [GetValidToken] *)

Section RefreshFacts.

Variable http_NewRequest : string -> string -> option error.
Variable json_Unmarshal_TokenResponse : string -> outcome TokenResponse.

Local Abbreviation refresh :=
  (Client_RefreshToken http_NewRequest json_Unmarshal_TokenResponse).
Local Abbreviation getValid :=
  (GetValidToken http_NewRequest json_Unmarshal_TokenResponse).

(** [RefreshToken] sends at most one request, and none at all when the
    provider is missing or the request cannot be built. *)
Lemma RefreshToken_round_trips c refreshToken n :
  snd (refresh c refreshToken n) = n \/ snd (refresh c refreshToken n) = S n.
Proof.
  unfold Client_RefreshToken.
  destruct (provider c) as [p |]; [| left; reflexivity].
  destruct (http_NewRequest "POST" (TokenEndpoint p)); [left; reflexivity |].
  right. cbv zeta. unfold bind, round_trip.
  destruct (Do _ _ _) as [e | st e | st body]; try reflexivity.
  destruct (negb _); reflexivity.
Qed.

(** [RefreshToken] returns a token set exactly when the provider is known,
    the request is built, the token endpoint answers 200 and the body
    decodes; that is then the one request sent. *)
Theorem RefreshToken_Ok_iff (c : Client) (refreshToken : string) (n n' : nat)
    (t : TokenResponse) :
  refresh c refreshToken n = (Ok t, n')
  <-> exists p body,
        provider c = Some p
        /\ http_NewRequest "POST" (TokenEndpoint p) = None
        /\ Do (HTTPClient (config c)) n (refresh_request c p refreshToken)
           = Response 200 body
        /\ json_Unmarshal_TokenResponse body = Ok t
        /\ n' = S n.
Proof.
  unfold Client_RefreshToken. split.
  - destruct (provider c) as [p |]; [| discriminate].
    destruct (http_NewRequest "POST" (TokenEndpoint p)) eqn:Hreq;
      [discriminate |].
    cbv zeta. unfold bind, round_trip. fold (refresh_request c p refreshToken).
    destruct (Do _ _ _) as [e | st e | st body] eqn:Hdo; try discriminate.
    destruct (st =? http_StatusOK) eqn:Hst; cbn [negb]; [| discriminate].
    apply Z.eqb_eq in Hst. subst st. unfold lift.
    destruct (json_Unmarshal_TokenResponse body) eqn:Hdec; cbn [wrap_err];
      try discriminate.
    intros [= -> <-]. exists p, body. auto.
  - intros (p & body & -> & -> & Hdo & Hdec & ->).
    cbv zeta. unfold bind, round_trip. fold (refresh_request c p refreshToken).
    rewrite Hdo. cbn. rewrite Hdec. reflexivity.
Qed.

(** An answer other than 200 is reported with its status and its raw body;
    the body is not decoded. *)
Theorem RefreshToken_status_error (c : Client) (p : OIDCProvider)
    (refreshToken : string) (n : nat) (status : Z) (body : string) :
  provider c = Some p ->
  http_NewRequest "POST" (TokenEndpoint p) = None ->
  Do (HTTPClient (config c)) n (refresh_request c p refreshToken)
  = Response status body ->
  status <> 200 ->
  refresh c refreshToken n
  = (Err (Errorf "token refresh failed with status %d: %s"
            [AInt status; AStr body]), S n).
Proof.
  intros Hp Hreq Hdo Hst. unfold Client_RefreshToken. rewrite Hp, Hreq.
  cbv zeta. unfold bind, round_trip. fold (refresh_request c p refreshToken).
  rewrite Hdo. apply Z.eqb_neq in Hst. unfold http_StatusOK. rewrite Hst.
  reflexivity.
Qed.

(** Without a stored refresh token [GetValidToken] hands out the stored
    token set as it is: no request is sent and nothing is stored. *)
Theorem GetValidToken_without_refresh_token
    (trm : TokenRefreshManager InMemoryTokenStorage)
    (userID : string) (old : TokenResponse) :
  Retrieve userID (storage trm) = (Ok old, storage trm) ->
  RefreshToken old = "" ->
  getValid userID trm = (Ok old, trm).
Proof.
  intros Hret Hrt.
  unfold GetValidToken, bind, wrapping, on_storage. rewrite Hret.
  cbn [wrap_err]. rewrite Hrt. cbn. destruct trm; reflexivity.
Qed.

(** For a user without a record, as for the empty user id, [GetValidToken]
    fails with the storage error wrapped; no request is sent and the
    manager is left as it was. *)
Theorem GetValidToken_unknown_user
    (trm : TokenRefreshManager InMemoryTokenStorage) (userID : string) :
  tokens (storage trm) !! userID = None \/ userID = "" ->
  exists e,
    getValid userID trm
    = (Err (Errorf "failed to retrieve tokens: %w" [AErr e]), trm)
    /\ Retrieve userID (storage trm) = (Err e, storage trm).
Proof.
  intros Hcase.
  assert (Hret : exists e, Retrieve userID (storage trm) = (Err e, storage trm)).
  { destruct (String.eqb userID "") eqn:E.
    - apply String.eqb_eq in E. subst. eexists. reflexivity.
    - apply String.eqb_neq in E. destruct Hcase as [Hnone | ->]; [| congruence].
      eexists. apply Retrieve_missing; assumption. }
  destruct Hret as [e Hret]. exists e. split; [| exact Hret].
  unfold GetValidToken, bind, wrapping, on_storage. rewrite Hret.
  cbn. destruct trm; reflexivity.
Qed.

(** Whatever way [GetValidToken] succeeds, the token set it returns is the
    record the storage holds for the user afterwards; the records of other
    users are untouched, and at most one request was sent. *)
Theorem GetValidToken_returns_stored_record
    (trm trm' : TokenRefreshManager InMemoryTokenStorage)
    (userID : string) (t : TokenResponse) :
  getValid userID trm = (Ok t, trm') ->
  Retrieve userID (storage trm') = (Ok t, storage trm')
  /\ (forall other, other <> userID ->
        tokens (storage trm') !! other = tokens (storage trm) !! other)
  /\ (round_trips trm' <= S (round_trips trm))%nat
  /\ trm_Client trm' = trm_Client trm.
Proof.
  intros Hok.
  destruct (Retrieve userID (storage trm)) as [[old | e |] s1] eqn:Hret.
  2,3: unfold GetValidToken, bind, wrapping, on_storage in Hok;
       rewrite Hret in Hok; discriminate.
  destruct (Retrieve_Ok_inv _ _ _ _ Hret) as (Hne & Hl & ->).
  destruct (String.eqb (RefreshToken old) "") eqn:Hrt.
  - apply String.eqb_eq in Hrt.
    assert (Hpass : getValid userID trm = (Ok old, trm)).
    { unfold GetValidToken, bind, wrapping, on_storage. rewrite Hret.
      cbn [wrap_err]. rewrite Hrt. cbn. destruct trm; reflexivity. }
    rewrite Hpass in Hok.
    injection Hok as <- <-. repeat split; auto.
  - apply String.eqb_neq in Hrt.
    rewrite (GetValidToken_refresh_step _ _ trm userID old Hret Hrt) in Hok.
    pose proof (RefreshToken_round_trips (trm_Client trm) (RefreshToken old)
                  (round_trips trm)) as Hrounds.
    destruct (refresh (trm_Client trm) (RefreshToken old) (round_trips trm))
      as [[newTokens | e |] n']; try discriminate.
    cbn [snd] in Hrounds. cbv zeta in Hok. injection Hok as <- <-.
    cbn [storage tokens round_trips trm_Client]. repeat split.
    + apply Retrieve_found; [assumption |]. cbn. apply lookup_insert_eq.
    + intros other Hother. apply lookup_insert_ne. congruence.
    + lia.
Qed.

End RefreshFacts.

Lemma RefreshToken_status_error_witness :
  Client_RefreshToken Fixture.NewRequest_ok Fixture.decode_refreshed
    (Fixture.client_with Fixture.token_endpoint_invalid_grant)
    "test-refresh-token" 0%nat
  = (Err (Errorf "token refresh failed with status %d: %s"
            [AInt 400; AStr "{error: invalid_grant}"]), 1%nat).
Proof.
  apply (RefreshToken_status_error Fixture.NewRequest_ok
           Fixture.decode_refreshed
           (Fixture.client_with Fixture.token_endpoint_invalid_grant)
           Fixture.civic "test-refresh-token" 0%nat 400
           "{error: invalid_grant}");
    solve [reflexivity | discriminate].
Defined.

Lemma GetValidToken_without_refresh_token_witness :
  let trm := {| trm_Client := Fixture.client_with Fixture.token_endpoint_ok;
                storage := Fixture.stored "user123" Fixture.tokens_without_expiry;
                round_trips := 0 |} in
  GetValidToken Fixture.NewRequest_ok Fixture.decode_refreshed "user123" trm
  = (Ok Fixture.tokens_without_expiry, trm).
Proof.
  intros trm.
  apply (GetValidToken_without_refresh_token Fixture.NewRequest_ok
           Fixture.decode_refreshed trm "user123"
           Fixture.tokens_without_expiry); reflexivity.
Defined.

Lemma GetValidToken_unknown_user_witness :
  let trm := {| trm_Client := Fixture.client_with Fixture.token_endpoint_ok;
                storage := NewInMemoryTokenStorage;
                round_trips := 0 |} in
  exists e,
    GetValidToken Fixture.NewRequest_ok Fixture.decode_refreshed "nonexistent" trm
    = (Err (Errorf "failed to retrieve tokens: %w" [AErr e]), trm)
    /\ Retrieve "nonexistent" (storage trm) = (Err e, storage trm).
Proof.
  intros trm.
  apply (GetValidToken_unknown_user Fixture.NewRequest_ok
           Fixture.decode_refreshed trm "nonexistent").
  left. reflexivity.
Defined.

Lemma GetValidToken_returns_stored_record_witness :
  let trm := {| trm_Client := Fixture.client_with Fixture.token_endpoint_ok;
                storage := Fixture.stored "user123" Fixture.sample_tokens;
                round_trips := 0 |} in
  let r := GetValidToken Fixture.NewRequest_ok Fixture.decode_refreshed
             "user123" trm in
  fst r = Ok (set_RefreshToken "test-refresh-token" Fixture.refreshed)
  /\ Retrieve "user123" (storage (snd r))
     = (Ok (set_RefreshToken "test-refresh-token" Fixture.refreshed),
        storage (snd r)).
Proof.
  intros trm r. split; [reflexivity |].
  refine (proj1 (GetValidToken_returns_stored_record Fixture.NewRequest_ok
                   Fixture.decode_refreshed trm (snd r) "user123"
                   (set_RefreshToken "test-refresh-token" Fixture.refreshed) _)).
  reflexivity.
Defined.

Lemma RefreshToken_Ok_iff_witness :
  Client_RefreshToken Fixture.NewRequest_ok Fixture.decode_refreshed
    (Fixture.client_with Fixture.token_endpoint_ok) "test-refresh-token" 0%nat
  = (Ok Fixture.refreshed, 1%nat).
Proof.
  apply (proj2 (RefreshToken_Ok_iff Fixture.NewRequest_ok
                  Fixture.decode_refreshed
                  (Fixture.client_with Fixture.token_endpoint_ok)
                  "test-refresh-token" 0%nat 1%nat Fixture.refreshed)).
  exists Fixture.civic, "{access_token: new-access-token}".
  repeat split; reflexivity.
Defined.

(** * More on the key-set cache *)

Section CacheEffects.

Variable http_NewRequest : string -> string -> option error.
Variable json_Unmarshal_JWKSet : string -> outcome JWKSet.
Variable base64_StdEncoding_DecodeString : string -> outcome (list byte).
Variable base64_RawURLEncoding_DecodeString : string -> outcome (list byte).
Variable x509_ParseCertificate : list byte -> outcome x509_Certificate.

Local Abbreviation fetch := (fetchJWKSet http_NewRequest json_Unmarshal_JWKSet).
Local Abbreviation convert :=
  (jwkToRSAPublicKey base64_StdEncoding_DecodeString
     base64_RawURLEncoding_DecodeString x509_ParseCertificate).
Local Abbreviation getKey :=
  (getPublicKey http_NewRequest json_Unmarshal_JWKSet
     base64_StdEncoding_DecodeString base64_RawURLEncoding_DecodeString
     x509_ParseCertificate).

Lemma fetchJWKSet_frame (tm : TokenManager) :
  jwkCache (snd (fetch tm)) = jwkCache tm
  /\ (tm_round_trips (snd (fetch tm)) = tm_round_trips tm
      \/ tm_round_trips (snd (fetch tm)) = S (tm_round_trips tm)).
Proof.
  unfold fetchJWKSet, bind, get.
  destruct (provider (tm_Client tm)) as [p |]; [| cbn; auto].
  destruct (http_NewRequest "GET" (JwksURI p)); [cbn; auto |].
  cbv zeta. unfold modify.
  destruct (Do _ _ _) as [e | st e | st body]; cbn [fst snd].
  - cbn. auto.
  - destruct (negb _); cbn; auto.
  - destruct (negb _); [cbn; auto |]. unfold lift.
    destruct (json_Unmarshal_JWKSet body); cbn; auto.
Qed.

(** A fetch never touches the key cache and sends at most one request. When
    it does not succeed, for whatever reason, the key set held before is
    still held; when it succeeds a key set is held. *)
Theorem fetchJWKSet_effect (tm : TokenManager) :
  jwkCache (snd (fetch tm)) = jwkCache tm
  /\ (tm_round_trips (snd (fetch tm)) = tm_round_trips tm
      \/ tm_round_trips (snd (fetch tm)) = S (tm_round_trips tm))
  /\ match fst (fetch tm) with
     | Ok _ => exists set, jwkSet (snd (fetch tm)) = Some set
     | _ => jwkSet (snd (fetch tm)) = jwkSet tm
     end.
Proof.
  unfold fetchJWKSet, bind, get.
  destruct (provider (tm_Client tm)) as [p |]; [| cbn; auto].
  destruct (http_NewRequest "GET" (JwksURI p)); [cbn; auto |].
  cbv zeta. unfold modify.
  destruct (Do _ _ _) as [e | st e | st body]; cbn [fst snd].
  - cbn. auto.
  - destruct (negb _); cbn; auto.
  - destruct (negb _); [cbn; auto |]. unfold lift.
    destruct (json_Unmarshal_JWKSet body); cbn; eauto.
Qed.

(** When the held key set has an entry for the key id, nothing is fetched:
    the entry is converted, and the key cached on success. *)
Theorem getPublicKey_held_set (tm : TokenManager) (kid : string)
    (held : JWKSet) (jwk : JWK) :
  jwkCache tm !! kid = None ->
  jwkSet tm = Some held ->
  find_kid kid (Keys held) = Some jwk ->
  getKey kid tm =
    match convert jwk with
    | Ok key => (Ok key, set_jwkCache kid key tm)
    | Err e =>
        (Err (Errorf "failed to convert JWK to RSA public key: %w" [AErr e]), tm)
    | Panic => (Panic, tm)
    end.
Proof.
  intros Hc Hs Hf. unfold getPublicKey, bind, get. rewrite Hc, Hs.
  unfold ret, jwkSet_Keys, bind, get. rewrite Hs. unfold ret. rewrite Hf.
  unfold lift. destruct (convert jwk); reflexivity.
Qed.

Lemma miss_effect_stop tm kid (o : outcome rsa_PublicKey) tm2 :
  (forall key, o <> Ok key) ->
  jwkCache tm2 = jwkCache tm ->
  (tm_round_trips tm <= tm_round_trips tm2 <= 2 + tm_round_trips tm)%nat ->
  miss_effect tm kid (o, tm2).
Proof. intros Ho Hc Hr. split; [left; split; assumption | exact Hr]. Qed.

Lemma getPublicKey_effect (tm : TokenManager) (kid : string) :
  (exists cached, jwkCache tm !! kid = Some cached
                  /\ getKey kid tm = (Ok cached, tm))
  \/ (jwkCache tm !! kid = None /\ miss_effect tm kid (getKey kid tm)).
Proof.
  destruct (jwkCache tm !! kid) as [cached |] eqn:Hc.
  { left. exists cached. split; [reflexivity |].
    unfold getPublicKey, bind, get. rewrite Hc. reflexivity. }
  right. split; [reflexivity |].
  (* the conversion of the entry found, and the cache fill *)
  assert (Hconv :
    forall jwk tm2,
      jwkCache tm2 = jwkCache tm ->
      (tm_round_trips tm <= tm_round_trips tm2 <= 2 + tm_round_trips tm)%nat ->
      miss_effect tm kid
        (bind
           (lift (wrap_err "failed to convert JWK to RSA public key: %w"
                           (convert jwk)))
           (fun publicKey =>
              bind (modify (set_jwkCache kid publicKey))
                (fun _ => ret publicKey)) tm2)).
  { intros jwk tm2 Hc2 Hr2. unfold bind, lift, modify, ret.
    destruct (convert jwk) as [key | e |]; cbn [wrap_err].
    - split; [right; exists key; cbn; rewrite Hc2; auto | exact Hr2].
    - apply miss_effect_stop; [discriminate | assumption | assumption].
    - apply miss_effect_stop; [discriminate | assumption | assumption]. }
  (* the first search: in the held set, or in a set fetched for it *)
  assert (Hfirst :
    forall tm1,
      jwkCache tm1 = jwkCache tm ->
      (tm_round_trips tm <= tm_round_trips tm1 <= 1 + tm_round_trips tm)%nat ->
      miss_effect tm kid
        (bind jwkSet_Keys
          (fun keys =>
             bind
               match find_kid kid keys with
               | Some jwk => ret jwk
               | None =>
                   bind (wrapping "failed to refetch JWK set: %w" fetch)
                     (fun _ =>
                        bind jwkSet_Keys
                          (fun keys =>
                             match find_kid kid keys with
                             | Some jwk => ret jwk
                             | None =>
                                 fail (Errorf "key with kid %s not found"
                                         [AStr kid])
                             end))
               end
               (fun jwk =>
                  bind
                    (lift (wrap_err
                             "failed to convert JWK to RSA public key: %w"
                             (convert jwk)))
                    (fun publicKey =>
                       bind (modify (set_jwkCache kid publicKey))
                         (fun _ => ret publicKey)))) tm1)).
  { intros tm1 Hc1 Hr1.
    unfold bind at 1. unfold jwkSet_Keys at 1, bind at 1, get at 1.
    destruct (jwkSet tm1) as [set1 |]; [unfold ret at 1 | unfold lift at 1].
    2: { apply miss_effect_stop; [discriminate | assumption | lia]. }
    destruct (find_kid kid (Keys set1)) as [jwk |].
    { unfold bind at 1, ret at 1. apply Hconv; [assumption | lia]. }
    unfold bind at 1. unfold bind at 1. unfold wrapping.
    destruct (fetchJWKSet_frame tm1) as (Hfc & Hfr).
    destruct (fetch tm1) as [[[] | e |] tm2]; cbn [fst snd wrap_err] in *.
    2,3: apply miss_effect_stop; [discriminate | congruence | lia].
    unfold bind at 1. unfold jwkSet_Keys at 1, bind at 1, get at 1.
    destruct (jwkSet tm2) as [set2 |]; [unfold ret at 1 | unfold lift at 1].
    2: { apply miss_effect_stop; [discriminate | congruence | lia]. }
    destruct (find_kid kid (Keys set2)) as [jwk |].
    { unfold ret at 1. apply Hconv; [congruence | lia]. }
    apply miss_effect_stop; [discriminate | congruence | lia]. }
  unfold getPublicKey. unfold bind at 1, get at 1. rewrite Hc.
  unfold bind at 1.
  destruct (jwkSet tm) as [held |] eqn:Hs.
  - unfold ret at 1. apply Hfirst; [reflexivity | lia].
  - destruct (fetchJWKSet_frame tm) as (Hfc & Hfr).
    destruct (fetch tm) as [[[] | e |] tm1]; cbn [fst snd] in *.
    2,3: apply miss_effect_stop; [discriminate | assumption | lia].
    apply Hfirst; [assumption | lia].
Qed.

(** The cache only grows: whatever a call of [getPublicKey] returns, every
    key cached before it is cached after it, unchanged; and a call sends at
    most two requests. *)
Theorem getPublicKey_cache_grows (tm : TokenManager) (kid : string) :
  (forall k key, jwkCache tm !! k = Some key ->
                 jwkCache (snd (getKey kid tm)) !! k = Some key)
  /\ (tm_round_trips tm <= tm_round_trips (snd (getKey kid tm))
      <= 2 + tm_round_trips tm)%nat.
Proof.
  destruct (getPublicKey_effect tm kid)
    as [(cached & Hc & ->) | (Hc & [[Hsame _] | (key & _ & Hins)] & Hr)];
    cbn [snd]; (split; [| lia || exact Hr]); intros k v Hk.
  - exact Hk.
  - rewrite Hsame. exact Hk.
  - rewrite Hins. rewrite lookup_insert_ne; [exact Hk | congruence].
Qed.

Lemma getPublicKey_Ok_in_cache (tm tm' : TokenManager) (kid : string)
    (key : rsa_PublicKey) :
  getKey kid tm = (Ok key, tm') -> jwkCache tm' !! kid = Some key.
Proof.
  intros Hok.
  destruct (getPublicKey_effect tm kid)
    as [(cached & Hc & Hhit) | (Hc & [[_ Hno] | (key' & Hfst & Hins)] & _)];
    rewrite Hok in *; cbn [fst snd] in *.
  - injection Hhit as <- <-. exact Hc.
  - exfalso. exact (Hno key eq_refl).
  - injection Hfst as <-. rewrite Hins. apply lookup_insert_eq.
Qed.

(** A key that [getPublicKey] returns is in the cache afterwards, so that
    asking again gives the same key without any request and without any
    change to the manager. *)
Theorem getPublicKey_Ok_cached (tm tm' : TokenManager) (kid : string)
    (key : rsa_PublicKey) :
  getKey kid tm = (Ok key, tm') ->
  jwkCache tm' !! kid = Some key
  /\ getKey kid tm' = (Ok key, tm').
Proof.
  intros Hok.
  pose proof (getPublicKey_Ok_in_cache _ _ _ _ Hok) as Hcached.
  split; [exact Hcached |].
  apply getPublicKey_cached. exact Hcached.
Qed.

End CacheEffects.

Lemma getPublicKey_held_set_witness :
  getPublicKey Fixture.NewRequest_ok Fixture.decode_jwks Fixture.Std_decode
    Fixture.RawURL_decode Fixture.parse_cert "key-2"
    {| tm_Client := Fixture.client_with Fixture.jwks_endpoint_v1;
       jwkSet := Some Fixture.jwks_v2;
       jwkCache := ∅;
       tm_round_trips := 7 |}
  = (Ok Fixture.rsa_key_2,
     {| tm_Client := Fixture.client_with Fixture.jwks_endpoint_v1;
        jwkSet := Some Fixture.jwks_v2;
        jwkCache := <["key-2" := Fixture.rsa_key_2]> ∅;
        tm_round_trips := 7 |}).
Proof.
  rewrite (getPublicKey_held_set Fixture.NewRequest_ok Fixture.decode_jwks
             Fixture.Std_decode Fixture.RawURL_decode Fixture.parse_cert
             _ "key-2" Fixture.jwks_v2 Fixture.key_2) by reflexivity.
  reflexivity.
Defined.

Lemma getPublicKey_cache_grows_witness :
  jwkCache
    (snd (getPublicKey Fixture.NewRequest_ok Fixture.decode_jwks
            Fixture.Std_decode Fixture.RawURL_decode Fixture.parse_cert
            "key-2" Fixture.manager_key_1)) !! "key-1"
  = Some Fixture.rsa_key_1.
Proof.
  apply (proj1 (getPublicKey_cache_grows Fixture.NewRequest_ok
                  Fixture.decode_jwks Fixture.Std_decode Fixture.RawURL_decode
                  Fixture.parse_cert Fixture.manager_key_1 "key-2")).
  reflexivity.
Defined.

Lemma getPublicKey_Ok_cached_witness :
  jwkCache Fixture.manager_key_1 !! "key-1" = Some Fixture.rsa_key_1
  /\ getPublicKey Fixture.NewRequest_ok Fixture.decode_jwks Fixture.Std_decode
       Fixture.RawURL_decode Fixture.parse_cert "key-1" Fixture.manager_key_1
     = (Ok Fixture.rsa_key_1, Fixture.manager_key_1).
Proof.
  apply (getPublicKey_Ok_cached Fixture.NewRequest_ok Fixture.decode_jwks
           Fixture.Std_decode Fixture.RawURL_decode Fixture.parse_cert
           Fixture.manager Fixture.manager_key_1 "key-1" Fixture.rsa_key_1).
  reflexivity.
Defined.

(** * More on key conversion *)

(** Conversion returns a key in one case only: the entry has a certificate
    chain whose first certificate decodes, parses and holds an RSA key, and
    that key is the result. The other certificates of the chain and the
    [n] and [e] parameters play no part. *)
Theorem jwkToRSAPublicKey_Ok_iff
    (base64_StdEncoding_DecodeString : string -> outcome (list byte))
    (base64_RawURLEncoding_DecodeString : string -> outcome (list byte))
    (x509_ParseCertificate : list byte -> outcome x509_Certificate)
    (jwk : JWK) (key : rsa_PublicKey) :
  jwkToRSAPublicKey base64_StdEncoding_DecodeString
    base64_RawURLEncoding_DecodeString x509_ParseCertificate jwk = Ok key
  <-> exists leaf rest certData cert,
        X5c jwk = leaf :: rest
        /\ base64_StdEncoding_DecodeString leaf = Ok certData
        /\ x509_ParseCertificate certData = Ok cert
        /\ PublicKey cert = RSAPublicKey key.
Proof.
  split.
  - intros Hok. destruct (X5c jwk) as [| leaf rest] eqn:Hx.
    + exfalso. revert Hok.
      apply jwkToRSAPublicKey_modulus_path_no_key. exact Hx.
    + unfold jwkToRSAPublicKey in Hok. rewrite Hx in Hok.
      destruct (base64_StdEncoding_DecodeString leaf) as [certData | |] eqn:Hd;
        cbn in Hok; try discriminate.
      destruct (x509_ParseCertificate certData) as [cert | |] eqn:Hp;
        cbn in Hok; try discriminate.
      destruct (PublicKey cert) as [k |] eqn:Hk; try discriminate.
      injection Hok as ->. exists leaf, rest, certData, cert. auto.
  - intros (leaf & rest & certData & cert & Hx & Hd & Hp & Hk).
    eapply jwkToRSAPublicKey_x5c; eassumption.
Qed.

Lemma jwkToRSAPublicKey_Ok_iff_witness :
  jwkToRSAPublicKey Fixture.Std_decode Fixture.RawURL_decode Fixture.parse_cert
    Fixture.key_2 = Ok Fixture.rsa_key_2.
Proof.
  apply (proj2 (jwkToRSAPublicKey_Ok_iff Fixture.Std_decode
                  Fixture.RawURL_decode Fixture.parse_cert
                  Fixture.key_2 Fixture.rsa_key_2)).
  exists "Y2VydC0y", ["Y2VydC0x"], (list_byte_of_string "cert-2"),
    {| PublicKey := RSAPublicKey Fixture.rsa_key_2 |}.
  repeat split; reflexivity.
Defined.

(** * More on ID token validation *)

Lemma GetSigningMethod_RSA_name alg name :
  jwt_GetSigningMethod alg = Some (SigningMethodRSA name) -> name = alg.
Proof.
  unfold jwt_GetSigningMethod.
  repeat match goal with
         | |- context [if ?b then _ else _] => destruct b
         end; try discriminate.
  intros [= <-]. reflexivity.
Qed.

Section ParseVerified.

Context {St : Type}.
Variable jwt_decode : string -> outcome jwt_segments.
Variable jwt_Verify :
  SigningMethod -> string -> list byte -> rsa_PublicKey -> option error.
Variable jwt_Validate : gmap string json_value -> option error.

(** A token accepted by [jwt.Parse] had its signature verified under the
    key the key function returned, and its claims passed the library's
    validator. *)
Lemma jwt_Parse_Ok_verified tokenString
    (keyFunc : jwt_Token -> M St rsa_PublicKey) st token st' :
  jwt_Parse jwt_decode jwt_Verify jwt_Validate tokenString keyFunc st
  = (Ok token, st') ->
  exists seg key sig,
    jwt_decode tokenString = Ok seg
    /\ keyFunc (unverified tokenString (Method token) seg) st = (Ok key, st')
    /\ seg_signature seg = inl sig
    /\ jwt_Verify (Method token) (seg_signing_string seg) sig key = None
    /\ jwt_Validate (seg_claims seg) = None.
Proof.
  unfold jwt_Parse, bind at 1, lift.
  destruct (jwt_decode tokenString) as [seg | e |]; cbn [wrap_err];
    try discriminate.
  destruct (seg_header seg !! "alg") as [[| | | alg |] |]; try discriminate.
  destruct (jwt_GetSigningMethod alg) as [method |]; try discriminate.
  cbv zeta.
  destruct (seg_signature seg) as [sig | e] eqn:Hsig; try discriminate.
  unfold bind at 1, wrapping.
  destruct (keyFunc (unverified tokenString method seg) st)
    as [[key | e |] st1] eqn:Hkf; cbn [wrap_err]; try discriminate.
  destruct (jwt_Verify method (seg_signing_string seg) sig key) eqn:Hv;
    try discriminate.
  destruct (jwt_Validate (seg_claims seg)) eqn:Hval; try discriminate.
  unfold ret. intros [= <- <-]. cbn.
  exists seg, key, sig. repeat split; assumption.
Qed.

End ParseVerified.

Section ValidatorSoundness.

Variable http_NewRequest : string -> string -> option error.
Variable json_Unmarshal_JWKSet : string -> outcome JWKSet.
Variable base64_StdEncoding_DecodeString : string -> outcome (list byte).
Variable base64_RawURLEncoding_DecodeString : string -> outcome (list byte).
Variable x509_ParseCertificate : list byte -> outcome x509_Certificate.
Variable jwt_decode : string -> outcome jwt_segments.
Variable jwt_Verify :
  SigningMethod -> string -> list byte -> rsa_PublicKey -> option error.
Variable MapClaims_GetExpirationTime : gmap string json_value -> numeric_date.
Variable MapClaims_GetNotBefore : gmap string json_value -> numeric_date.
Variable json_Marshal_MapClaims : gmap string json_value -> outcome string.
Variable json_Unmarshal_Claims : string -> outcome Claims.

Local Abbreviation getKey :=
  (tm_getPublicKey http_NewRequest json_Unmarshal_JWKSet
     base64_StdEncoding_DecodeString base64_RawURLEncoding_DecodeString
     x509_ParseCertificate).
Local Abbreviation keyFunc' :=
  (keyFunc http_NewRequest json_Unmarshal_JWKSet
     base64_StdEncoding_DecodeString base64_RawURLEncoding_DecodeString
     x509_ParseCertificate).
Local Abbreviation library_validator :=
  (jwt_Validator_Validate MapClaims_GetExpirationTime MapClaims_GetNotBefore).
Local Abbreviation parse :=
  (tm_jwt_Parse http_NewRequest json_Unmarshal_JWKSet
     base64_StdEncoding_DecodeString base64_RawURLEncoding_DecodeString
     x509_ParseCertificate jwt_decode jwt_Verify
     MapClaims_GetExpirationTime MapClaims_GetNotBefore).
Local Abbreviation validate :=
  (ValidateIDToken http_NewRequest json_Unmarshal_JWKSet
     base64_StdEncoding_DecodeString base64_RawURLEncoding_DecodeString
     x509_ParseCertificate jwt_decode jwt_Verify
     MapClaims_GetExpirationTime MapClaims_GetNotBefore
     json_Marshal_MapClaims json_Unmarshal_Claims).

(** A key comes out of the key function only through [getPublicKey], for
    the key id in the header. *)
Lemma keyFunc_Ok_lookup token tm key tm' :
  keyFunc' token tm = (Ok key, tm') ->
  exists kid,
    Header token !! "kid" = Some (JString kid)
    /\ getKey kid tm = (Ok key, tm').
Proof.
  unfold keyFunc.
  destruct (Header token !! "kid") as [[| | | kid |] |]; try discriminate.
  unfold bind, wrapping.
  destruct (getKey kid tm) as [[k | e |] tm1] eqn:Hget; cbn [wrap_err];
    try discriminate.
  destruct (Method token); try discriminate.
  unfold ret. intros [= -> ->]. exists kid. split; [reflexivity | exact Hget].
Qed.

(** Claims are returned only for a fully validated token: the header
    declares RS256, RS384 or RS512 and names a key id; the key for that id
    was resolved by [getPublicKey] and is in the cache; the signature
    verified under that key and the library's validator accepted the claims
    at the time it read; and the decoded claims carry the configured issuer,
    the configured client id as audience, and an expiry that is not before
    the current time. *)
Theorem ValidateIDToken_sound
    (idToken : string) (now_parse now : Time) (tm tm' : TokenManager)
    (claims : Claims) :
  validate idToken now_parse now tm = (Ok claims, tm') ->
  exists seg alg kid key sig claimsJSON,
    jwt_decode idToken = Ok seg
    /\ seg_header seg !! "alg" = Some (JString alg)
    /\ one_of ["RS256"; "RS384"; "RS512"] alg = true
    /\ seg_header seg !! "kid" = Some (JString kid)
    /\ getKey kid tm = (Ok key, tm')
    /\ jwkCache tm' !! kid = Some key
    /\ seg_signature seg = inl sig
    /\ jwt_Verify (SigningMethodRSA alg) (seg_signing_string seg) sig key = None
    /\ library_validator now_parse (seg_claims seg) = None
    /\ json_Marshal_MapClaims (seg_claims seg) = Ok claimsJSON
    /\ json_Unmarshal_Claims claimsJSON = Ok claims
    /\ claims_Issuer claims = Issuer (config (tm_Client tm))
    /\ Audience claims = ClientID (config (tm_Client tm))
    /\ now <= time_Unix (Expiry claims) 0.
Proof.
  intros Hok.
  destruct (ValidateIDToken_Ok_inv _ _ _ _ _ _ _ _ _ _ _ _ _ _ _ _ _ Hok)
    as (token & tm1 & Hparse).
  pose proof Hparse as Hparse'. unfold tm_jwt_Parse in Hparse'.
  destruct (jwt_Parse_Ok_inv _ _ _ _ _ _ _ _ Hparse')
    as (seg & alg & _ & Hdec & Halg & Hm & _ & Hclaims & _).
  destruct (jwt_Parse_Ok_verified _ _ _ _ _ _ _ _ Hparse')
    as (seg' & key & sig & Hdec' & Hkf & Hsig & Hver & Hval).
  rewrite Hdec in Hdec'. injection Hdec' as <-.
  destruct (keyFunc_Ok_inv _ _ _ _ _ _ _ _ _ Hkf) as [name Hname].
  destruct (keyFunc_Ok_lookup _ _ _ _ Hkf) as (kid & Hkid & Hget).
  cbn [Method Header unverified] in Hname, Hkid.
  rewrite Hname in Hm, Hver.
  pose proof (GetSigningMethod_RSA_name _ _ Hm) as Hn. subst name.
  pose proof (GetSigningMethod_RSA _ _ Hm) as Hrs.
  destruct (json_Marshal_MapClaims (token_Claims token))
    as [claimsJSON | e |] eqn:Hmar.
  2,3: unfold ValidateIDToken, bind at 1, wrapping in Hok;
       rewrite Hparse in Hok; cbn [wrap_err] in Hok;
       destruct (negb (Valid token)); [discriminate |];
       unfold bind at 1, lift in Hok; rewrite Hmar in Hok; discriminate.
  destruct (json_Unmarshal_Claims claimsJSON) as [claims' | e |] eqn:Hun.
  2,3: unfold ValidateIDToken, bind at 1, wrapping in Hok;
       rewrite Hparse in Hok; cbn [wrap_err] in Hok;
       destruct (negb (Valid token)); [discriminate |];
       unfold bind at 1, lift in Hok; rewrite Hmar in Hok;
       cbn [wrap_err] in Hok; unfold bind at 1 in Hok; rewrite Hun in Hok;
       discriminate.
  rewrite (ValidateIDToken_after_parse _ _ _ _ _ _ _ _ _ _ _ _ _ _ _ _ _ _ _
             Hparse Hmar Hun) in Hok.
  cbv zeta in Hok.
  destruct (String.eqb (claims_Issuer claims') _) eqn:Hiss; cbn [negb] in Hok;
    [| discriminate].
  destruct (String.eqb (Audience claims') _) eqn:Haud; cbn [negb] in Hok;
    [| discriminate].
  destruct (_ <? _) eqn:Hexp; [discriminate |].
  injection Hok as -> ->.
  apply String.eqb_eq in Hiss, Haud. apply Z.ltb_ge in Hexp.
  rewrite Hclaims in Hmar.
  exists seg, alg, kid, key, sig, claimsJSON.
  repeat split; try assumption.
  unfold tm_getPublicKey in Hget.
  exact (getPublicKey_Ok_in_cache _ _ _ _ _ _ _ _ _ Hget).
Qed.

(** A token that does not decode, or whose header does not name both a
    registered algorithm and a key id, is turned away before any key
    lookup: it never yields claims, and the manager (key set, cache,
    requests sent) is exactly as before. *)
Theorem ValidateIDToken_no_lookup
    (idToken : string) (now_parse now : Time) (tm : TokenManager) :
  (forall seg, jwt_decode idToken = Ok seg -> names_key seg = false) ->
  snd (validate idToken now_parse now tm) = tm
  /\ forall claims, fst (validate idToken now_parse now tm) <> Ok claims.
Proof.
  intros Hno.
  set (r := validate idToken now_parse now tm).
  assert (Hr : r = validate idToken now_parse now tm) by reflexivity.
  clearbody r.
  unfold ValidateIDToken, bind at 1, wrapping, tm_jwt_Parse, jwt_Parse,
    bind at 1, lift in Hr.
  destruct (jwt_decode idToken) as [seg | e |] eqn:Hdec; cbn [wrap_err] in Hr;
    try (subst r; cbn; split; [reflexivity | discriminate]).
  specialize (Hno seg eq_refl). unfold names_key in Hno.
  destruct (seg_header seg !! "alg") as [[| | | alg |] |];
    try (subst r; cbn; split; [reflexivity | discriminate]).
  destruct (jwt_GetSigningMethod alg) as [method |];
    try (subst r; cbn; split; [reflexivity | discriminate]).
  cbv zeta in Hr.
  destruct (seg_signature seg) as [sig | err];
    try (subst r; cbn; split; [reflexivity | discriminate]).
  unfold bind at 1, wrapping, keyFunc in Hr.
  cbn [Header unverified] in Hr.
  destruct (seg_header seg !! "kid") as [[| | | kid |] |];
    try discriminate; subst r; cbn; split; reflexivity || discriminate.
Qed.

End ValidatorSoundness.

Lemma ValidateIDToken_sound_witness :
  exists seg alg kid key sig claimsJSON,
    Fixture.decode_jwt "rs256.key-1.token" = Ok seg
    /\ seg_header seg !! "alg" = Some (JString alg)
    /\ one_of ["RS256"; "RS384"; "RS512"] alg = true
    /\ seg_header seg !! "kid" = Some (JString kid)
    /\ tm_getPublicKey Fixture.NewRequest_ok Fixture.decode_jwks
         Fixture.Std_decode Fixture.RawURL_decode Fixture.parse_cert
         kid Fixture.manager = (Ok key, Fixture.manager_key_1)
    /\ jwkCache Fixture.manager_key_1 !! kid = Some key
    /\ seg_signature seg = inl sig
    /\ Fixture.verify (SigningMethodRSA alg) (seg_signing_string seg) sig key
       = None
    /\ jwt_Validator_Validate (Fixture.numeric_date_of "exp")
         (Fixture.numeric_date_of "nbf") (time_Unix 1600000000 0)
         (seg_claims seg) = None
    /\ Fixture.marshal_claims (seg_claims seg) = Ok claimsJSON
    /\ Fixture.unmarshal_claims claimsJSON = Ok Fixture.id_claims
    /\ claims_Issuer Fixture.id_claims
       = Issuer (config (tm_Client Fixture.manager))
    /\ Audience Fixture.id_claims
       = ClientID (config (tm_Client Fixture.manager))
    /\ time_Unix 1600000000 0 <= time_Unix (Expiry Fixture.id_claims) 0.
Proof.
  apply (ValidateIDToken_sound Fixture.NewRequest_ok Fixture.decode_jwks
           Fixture.Std_decode Fixture.RawURL_decode Fixture.parse_cert
           Fixture.decode_jwt Fixture.verify
           (Fixture.numeric_date_of "exp") (Fixture.numeric_date_of "nbf")
           Fixture.marshal_claims Fixture.unmarshal_claims
           "rs256.key-1.token" (time_Unix 1600000000 0)
           (time_Unix 1600000000 0)
           Fixture.manager Fixture.manager_key_1 Fixture.id_claims).
  reflexivity.
Defined.

Lemma ValidateIDToken_no_lookup_witness :
  snd (Fixture.validator "not-a-jwt" (time_Unix 1600000000 0)
         (time_Unix 1600000000 0) Fixture.manager)
  = Fixture.manager
  /\ forall claims,
       fst (Fixture.validator "not-a-jwt" (time_Unix 1600000000 0)
              (time_Unix 1600000000 0) Fixture.manager) <> Ok claims.
Proof.
  apply (ValidateIDToken_no_lookup Fixture.NewRequest_ok Fixture.decode_jwks
           Fixture.Std_decode Fixture.RawURL_decode Fixture.parse_cert
           Fixture.decode_jwt Fixture.verify
           (Fixture.numeric_date_of "exp") (Fixture.numeric_date_of "nbf")
           Fixture.marshal_claims Fixture.unmarshal_claims
           "not-a-jwt" (time_Unix 1600000000 0) (time_Unix 1600000000 0)
           Fixture.manager).
  intros seg. vm_compute. discriminate.
Defined.

(** * More on PKCE generation *)

Section Sha256Facts.

Lemma be_bytes_length k x : List.length (sha256.be_bytes k x) = k.
Proof. induction k as [| k IH]; cbn; [reflexivity | now rewrite IH]. Qed.

Lemma round_length st kw : List.length (sha256.round st kw) = List.length st.
Proof.
  unfold sha256.round.
  destruct st as [| a [| b [| c [| d [| e [| f [| g [| h [| i st]]]]]]]]];
    reflexivity.
Qed.

Lemma rounds_length kws st :
  List.length (fold_left sha256.round kws st) = List.length st.
Proof.
  revert st. induction kws as [| kw kws IH]; intros st; cbn; [reflexivity |].
  rewrite IH. apply round_length.
Qed.

Lemma compress_length h block :
  List.length (sha256.compress h block) = List.length h.
Proof.
  unfold sha256.compress. rewrite length_map, length_combine, rounds_length.
  apply Nat.min_id.
Qed.

Lemma compress_all_length blocks h :
  List.length (fold_left sha256.compress blocks h) = List.length h.
Proof.
  revert h. induction blocks as [| b blocks IH]; intros h; cbn; [reflexivity |].
  rewrite IH. apply compress_length.
Qed.

(** A SHA-256 digest has 32 bytes. *)
Lemma Sum256_length data : List.length (sha256.Sum256 data) = 32%nat.
Proof.
  unfold sha256.Sum256. cbv zeta.
  generalize (sha256.chunks 64
                (List.length (sha256.pad data) / 64) (sha256.pad data)).
  intros blocks.
  assert (H8 : List.length (fold_left sha256.compress blocks sha256.init) = 8%nat).
  { rewrite compress_all_length. vm_compute. reflexivity. }
  destruct (fold_left sha256.compress blocks sha256.init)
    as [| a [| b [| c [| d [| e [| f [| g [| h [| i st]]]]]]]]];
    try discriminate.
  cbn [flat_map]. rewrite !length_app, !be_bytes_length. reflexivity.
Qed.

End Sha256Facts.

Lemma generateCodeChallenge_Ok_inv
    (r : rand_Reader) (codeVerifier codeChallenge : string) :
  generateCodeChallenge r = Ok (codeVerifier, codeChallenge) ->
  codeChallenge
  = base64.RawURLEncoding_EncodeToString
      (sha256.Sum256 (list_byte_of_string codeVerifier))
  /\ String.length codeChallenge = 43%nat
  /\ String.length codeVerifier = 43%nat.
Proof.
  unfold generateCodeChallenge.
  destruct (rand_Read r 32) as [b | e |] eqn:Hread; try discriminate.
  intros [= <- <-]. split; [reflexivity |].
  rewrite !EncodeToString_length, Sum256_length,
    (rand_Read_length _ _ _ Hread).
  split; reflexivity.
Qed.

Lemma generateState_Ok_length (r : rand_Reader) (state : string) :
  generateState r = Ok state -> String.length state = 22%nat.
Proof.
  unfold generateState.
  destruct (rand_Read r 16) as [b | e |] eqn:Hread; try discriminate.
  intros [= <-].
  rewrite EncodeToString_length, (rand_Read_length _ _ _ Hread). reflexivity.
Qed.

(** [rand.Read] hands no error on: the generators have none to return. *)
Lemma generateCodeChallenge_no_error (r : rand_Reader) (e : error) :
  generateCodeChallenge r <> Err e.
Proof.
  unfold generateCodeChallenge.
  destruct r as [e0 | stream]; cbv beta iota delta [rand_Read]; discriminate.
Qed.

Lemma generateState_no_error (r : rand_Reader) (e : error) :
  generateState r <> Err e.
Proof.
  unfold generateState.
  destruct r as [e0 | stream]; cbv beta iota delta [rand_Read]; discriminate.
Qed.

(** Every challenge a successful [generateCodeChallenge] returns has 43
    URL-safe characters, as the verifier has. Neither generator ever returns
    an error: a generator returns its value when the entropy source
    delivers, and does not return at all when the source fails, the
    run-time stopping the program. So the two errors that
    [CreateAuthorizationFlow] has for a failing generator are never
    returned: the only error it returns is that of a client without
    provider metadata. *)
Theorem generators_shape_and_failure (r : rand_Reader) :
  (forall codeVerifier codeChallenge,
     generateCodeChallenge r = Ok (codeVerifier, codeChallenge) ->
     String.length codeChallenge = 43%nat
     /\ url_safe codeChallenge = true
     /\ String.length codeVerifier = 43%nat)
  /\ (forall e, generateCodeChallenge r <> Err e)
  /\ (forall e, generateState r <> Err e)
  /\ (generateCodeChallenge r = Panic <-> exists e, r = RandUnavailable e)
  /\ (generateState r = Panic <-> exists e, r = RandUnavailable e)
  /\ (forall c r_pkce e,
        CreateAuthorizationFlow c r r_pkce = Err e ->
        provider c = None
        /\ e = Errorf "failed to generate auth URL: %w"
                 [AErr (Errorf "provider not initialized" [])]).
Proof.
  split; [| split; [| split; [| split; [| split]]]].
  - unfold generateCodeChallenge.
    destruct (rand_Read r 32) as [b | e |] eqn:Hread; try discriminate.
    intros v ch [= <- <-].
    rewrite !EncodeToString_length, Sum256_length,
      (rand_Read_length _ _ _ Hread).
    split; [reflexivity | split; [apply EncodeToString_url_safe | reflexivity]].
  - intros e. apply generateCodeChallenge_no_error.
  - intros e. apply generateState_no_error.
  - unfold generateCodeChallenge.
    destruct r as [e0 | stream]; cbv beta iota delta [rand_Read]; split.
    + intros _. exists e0. reflexivity.
    + reflexivity.
    + discriminate.
    + intros [e H]. discriminate H.
  - unfold generateState.
    destruct r as [e0 | stream]; cbv beta iota delta [rand_Read]; split.
    + intros _. exists e0. reflexivity.
    + reflexivity.
    + discriminate.
    + intros [e H]. discriminate H.
  - intros c r_pkce e. unfold CreateAuthorizationFlow, outcome_bind.
    pose proof (generateState_no_error r) as Hst.
    destruct (generateState r) as [st | e1 |]; cbn [wrap_err];
      [| exfalso; exact (Hst e1 eq_refl) | discriminate].
    pose proof (generateCodeChallenge_no_error r_pkce) as Hpk.
    destruct (generateCodeChallenge r_pkce) as [[v ch] | e1 |];
      cbn [wrap_err]; [| exfalso; exact (Hpk e1 eq_refl) | discriminate].
    cbv zeta. cbn [fst snd]. unfold GetAuthCodeURL.
    destruct (provider c) as [p |]; cbn [wrap_err]; [discriminate |].
    intros [= <-]. split; reflexivity.
Qed.

Lemma generators_shape_and_failure_witness :
  let verifier := "AxQlNkdYaXqLnK2-z-DxAhMkNUZXaHmKm6y9zt_wARI" in
  let challenge := "p1sr6olCIJ_dY5FGkww_uHYy2En1VTuNJVfAb7ZoFuY" in
  String.length challenge = 43%nat
  /\ url_safe challenge = true
  /\ String.length verifier = 43%nat.
Proof.
  intros verifier challenge.
  apply (proj1 (generators_shape_and_failure Fixture.counting)
           verifier challenge).
  vm_compute. reflexivity.
Defined.

(** * Query strings *)

Section QueryFacts.

Lemma upperhex_at_url_safe n : url_safe_char (url.upperhex_at n) = true.
Proof. unfold url.upperhex_at. apply nth_forallb; vm_compute; reflexivity. Qed.

Lemma escape_byte_query_chars c : forallb query_char (url.escape_byte c) = true.
Proof.
  unfold url.escape_byte, query_char.
  destruct (url_safe_char c) eqn:Hs; [cbn; now rewrite Hs |].
  destruct (Ascii.eqb c " "); [reflexivity |].
  cbn [forallb]. rewrite !upperhex_at_url_safe. reflexivity.
Qed.

Lemma QueryEscape_query_chars s :
  forallb query_char (list_ascii_of_string (url.QueryEscape s)) = true.
Proof.
  unfold url.QueryEscape. rewrite list_ascii_of_string_of_list_ascii.
  induction (list_ascii_of_string s) as [| c l IH]; [reflexivity |].
  cbn [flat_map]. rewrite forallb_app, escape_byte_query_chars, IH. reflexivity.
Qed.

(** A string of URL-safe characters is its own escape: generated states,
    verifiers and challenges appear in a query string as they are. *)
Lemma QueryEscape_url_safe s : url_safe s = true -> url.QueryEscape s = s.
Proof.
  unfold url_safe, url.QueryEscape. intros Hs.
  rewrite <- (string_of_list_ascii_of_string s) at 2. f_equal.
  induction (list_ascii_of_string s) as [| c l IH]; [reflexivity |].
  cbn in Hs. apply andb_prop in Hs. destruct Hs as [Hc Hl].
  cbn [flat_map]. unfold url.escape_byte at 1. rewrite Hc. cbn.
  now rewrite (IH Hl).
Qed.

Lemma list_ascii_of_string_app s1 s2 :
  list_ascii_of_string (s1 ++ s2)
  = (list_ascii_of_string s1 ++ list_ascii_of_string s2)%list.
Proof.
  induction s1 as [| c s1 IH]; [reflexivity |].
  change (list_ascii_of_string (String c (s1 ++ s2))
          = (c :: list_ascii_of_string s1 ++ list_ascii_of_string s2)%list).
  cbn [list_ascii_of_string]. f_equal. exact IH.
Qed.

Lemma count_char_app c s1 s2 :
  count_char c (s1 ++ s2) = (count_char c s1 + count_char c s2)%nat.
Proof.
  unfold count_char.
  rewrite list_ascii_of_string_app, filter_app, length_app. reflexivity.
Qed.

Lemma count_char_none c s :
  forallb (fun x => negb (Ascii.eqb x c)) (list_ascii_of_string s) = true ->
  count_char c s = 0%nat.
Proof.
  unfold count_char.
  induction (list_ascii_of_string s) as [| x l IH]; [reflexivity |].
  cbn [forallb]. intros H. apply andb_prop in H. destruct H as [Hx Hl].
  rewrite filter_cons. destruct (decide (Ascii.eqb x c = true)) as [E | E].
  - rewrite E in Hx. discriminate.
  - apply IH. exact Hl.
Qed.

Lemma forallb_weaken {A} (P Q : A -> bool) l :
  (forall x, P x = true -> Q x = true) ->
  forallb P l = true -> forallb Q l = true.
Proof.
  intros HPQ. induction l as [| x l IH]; [reflexivity |].
  cbn. intros H. apply andb_prop in H. destruct H as [Hx Hl].
  rewrite (HPQ x Hx), (IH Hl). reflexivity.
Qed.

Lemma QueryEscape_no c s :
  query_char c = false -> count_char c (url.QueryEscape s) = 0%nat.
Proof.
  intros Hc. apply count_char_none.
  apply (forallb_weaken query_char); [| apply QueryEscape_query_chars].
  intros x Hx. destruct (Ascii.eqb x c) eqn:E; [| reflexivity].
  apply Ascii.eqb_eq in E. congruence.
Qed.

Lemma encode_pair_counts kv :
  count_char "&" (url.encode_pair kv) = 0%nat
  /\ count_char "=" (url.encode_pair kv) = 1%nat.
Proof.
  unfold url.encode_pair.
  rewrite !count_char_app, !QueryEscape_no by reflexivity.
  split; reflexivity.
Qed.

Lemma concat_counts c sep (l : list string) k :
  (forall s, In s l -> count_char c s = k) ->
  count_char c (String.concat sep l)
  = (k * List.length l + count_char c sep * (List.length l - 1))%nat.
Proof.
  induction l as [| s [| s' l] IH]; intros Hall.
  - change (count_char c (String.concat sep [])) with 0%nat.
    cbn [List.length]. lia.
  - change (String.concat sep [s]) with s.
    rewrite (Hall s) by (left; reflexivity). cbn [List.length]. lia.
  - change (String.concat sep (s :: s' :: l))
      with (s ++ sep ++ String.concat sep (s' :: l)).
    rewrite !count_char_app, IH by (intros x Hx; apply Hall; right; exact Hx).
    rewrite (Hall s) by (left; reflexivity). cbn [List.length].
    generalize (List.length l) (count_char c sep). intros n m. nia.
Qed.

End QueryFacts.

(** Whatever the keys and values, the encoded query has one [=] for each
    pair and one [&] between two pairs and no other: no key or value can
    smuggle in a separator, and so a parameter of its own. *)
Lemma Encode_separators (v : url.Values) :
  count_char "=" (url.Encode v) = List.length (url.pairs v)
  /\ count_char "&" (url.Encode v) = (List.length (url.pairs v) - 1)%nat.
Proof.
  unfold url.Encode. split.
  - rewrite (concat_counts "=" "&" _ 1).
    + rewrite length_map. change (count_char "=" "&") with 0%nat. lia.
    + intros s Hs. apply in_map_iff in Hs. destruct Hs as (kv & <- & _).
      apply encode_pair_counts.
  - rewrite (concat_counts "&" "&" _ 0).
    + rewrite length_map. change (count_char "&" "&") with 1%nat. lia.
    + intros s Hs. apply in_map_iff in Hs. destruct Hs as (kv & <- & _).
      apply encode_pair_counts.
Qed.

(** * The authorization URL *)

Section AuthorizationURL.

Lemma Set_is_Some k v (m : url.Values) key :
  is_Some (url.Set_ k v m !! key) -> key = k \/ is_Some (m !! key).
Proof.
  unfold url.Set_. rewrite lookup_insert_is_Some.
  intros [-> | [_ H]]; [left; reflexivity | right; exact H].
Qed.

Lemma lookup_set_when_ne b k v (m : url.Values) key :
  key <> k -> set_when b k v m !! key = m !! key.
Proof.
  intros Hne. unfold set_when, url.Set_. destruct b; [| reflexivity].
  apply lookup_insert_ne. congruence.
Qed.

Lemma lookup_set_when_eq b k v (m : url.Values) :
  set_when b k v m !! k = if b then Some [v] else m !! k.
Proof.
  unfold set_when, url.Set_. destruct b; [| reflexivity].
  apply lookup_insert_eq.
Qed.

Lemma set_when_is_Some b k v (m : url.Values) key :
  is_Some (set_when b k v m !! key) -> key = k \/ is_Some (m !! key).
Proof.
  unfold set_when. destruct b; [apply Set_is_Some | auto].
Qed.

(** [authorization_params] as a chain of conditional [Set]s. *)
Lemma authorization_params_chain c o :
  authorization_params c (Some o)
  = set_when (negb (String.eqb (opt_LoginHint o) "")) "login_hint"
      (opt_LoginHint o)
      (set_when (0 <? opt_MaxAge o) "max_age" (fmt_d (opt_MaxAge o))
         (set_when (negb (String.eqb (opt_Prompt o) "")) "prompt"
            (opt_Prompt o)
            (set_when (negb (String.eqb (opt_CodeChallenge o) ""))
               "code_challenge_method" "S256"
               (set_when (negb (String.eqb (opt_CodeChallenge o) ""))
                  "code_challenge" (opt_CodeChallenge o)
                  (set_when (negb (String.eqb (opt_Nonce o) "")) "nonce"
                     (opt_Nonce o)
                     (set_when (negb (String.eqb (opt_State o) "")) "state"
                        (opt_State o) (fixed_params c))))))).
Proof.
  unfold authorization_params, set_when. fold (fixed_params c).
  generalize (fixed_params c). intros base.
  destruct (String.eqb (opt_CodeChallenge o) ""); reflexivity.
Qed.

(** Look a key up through the chain: the [Set]s for other keys are
    skipped, the one for the key decides. *)
Ltac lookup_chain :=
  repeat (rewrite lookup_set_when_ne by discriminate);
  try rewrite lookup_set_when_eq;
  repeat (rewrite lookup_set_when_ne by discriminate);
  unfold fixed_params;
  repeat first [ rewrite lookup_insert_eq
               | rewrite lookup_insert_ne by discriminate
               | rewrite lookup_empty ].

(** Peel the parameters off a query map, one [Set] at a time. *)
Ltac peel_params H :=
  repeat first
    [ apply set_when_is_Some in H; destruct H as [-> | H];
      [cbn; repeat (first [left; reflexivity | right]) |]
    | apply lookup_insert_is_Some in H; destruct H as [<- | [_ H]];
      [cbn; repeat (first [left; reflexivity | right]) |] ];
  try (rewrite lookup_empty in H; destruct H as [? H]; discriminate H).

(** The optional parameters, option by option. *)
Lemma authorization_params_options (c : Client) (o : AuthCodeURLOptions) :
  let params := authorization_params c (Some o) in
  let present (value : string) : option (list string) :=
    if String.eqb value "" then None else Some [value] in
  params !! "state" = present (opt_State o)
  /\ params !! "nonce" = present (opt_Nonce o)
  /\ params !! "code_challenge" = present (opt_CodeChallenge o)
  /\ params !! "code_challenge_method"
     = (if String.eqb (opt_CodeChallenge o) "" then None else Some ["S256"])
  /\ params !! "prompt" = present (opt_Prompt o)
  /\ params !! "login_hint" = present (opt_LoginHint o)
  /\ params !! "max_age"
     = (if 0 <? opt_MaxAge o then Some [fmt_d (opt_MaxAge o)] else None).
Proof.
  cbv zeta. rewrite authorization_params_chain.
  repeat split; lookup_chain;
    try match goal with
        | |- context [String.eqb ?x ""] => destruct (String.eqb x "")
        end; reflexivity.
Qed.

(** The parameters of the authorization request. The five fixed ones are
    always there with the configured values, and no option can replace
    them. An optional parameter is there exactly when its option is set
    (non-empty, or positive for [max_age]); [code_challenge_method] is S256
    exactly when there is a code challenge. Nothing else is ever sent. *)
Theorem authorization_params_content
    (c : Client) (opts : option AuthCodeURLOptions) :
  let params := authorization_params c opts in
  let given (field : AuthCodeURLOptions -> string) : string :=
    match opts with Some o => field o | None => "" end in
  let present (value : string) : option (list string) :=
    if String.eqb value "" then None else Some [value] in
  (params !! "response_type" = Some ["code"]
   /\ params !! "client_id" = Some [ClientID (config c)]
   /\ params !! "redirect_uri" = Some [RedirectURL (config c)]
   /\ params !! "scope" = Some [strings.Join (Scopes (config c)) " "]
   /\ params !! "response_mode" = Some ["query"])
  /\ (params !! "state" = present (given opt_State)
      /\ params !! "nonce" = present (given opt_Nonce)
      /\ params !! "code_challenge" = present (given opt_CodeChallenge)
      /\ params !! "code_challenge_method"
         = (if String.eqb (given opt_CodeChallenge) "" then None
            else Some ["S256"])
      /\ params !! "prompt" = present (given opt_Prompt)
      /\ params !! "login_hint" = present (given opt_LoginHint)
      /\ params !! "max_age"
         = match opts with
           | Some o => if 0 <? opt_MaxAge o
                       then Some [fmt_d (opt_MaxAge o)] else None
           | None => None
           end)
  /\ (forall key,
        is_Some (params !! key) ->
        In key ["response_type"; "client_id"; "redirect_uri"; "scope";
                "response_mode"; "state"; "nonce"; "code_challenge";
                "code_challenge_method"; "prompt"; "max_age"; "login_hint"]).
Proof.
  cbv zeta. destruct opts as [o |].
  - rewrite authorization_params_chain. split; [| split].
    + repeat split; lookup_chain; reflexivity.
    + rewrite <- authorization_params_chain.
      exact (authorization_params_options c o).
    + intros key H. unfold fixed_params in H. peel_params H.
  - unfold authorization_params. fold (fixed_params c). split; [| split].
    + repeat split; lookup_chain; reflexivity.
    + repeat split; lookup_chain; reflexivity.
    + intros key H. unfold fixed_params in H. peel_params H.
Qed.

(** ** The separators of the query string *)

Lemma insert_sorted_length k l :
  List.length (url.insert_sorted k l) = S (List.length l).
Proof.
  induction l as [| x l IH]; [reflexivity |].
  cbn [url.insert_sorted]. destruct (String.leb k x); cbn [List.length];
    [reflexivity | now rewrite IH].
Qed.

Lemma insert_sorted_In k l x :
  In x (url.insert_sorted k l) -> x = k \/ In x l.
Proof.
  induction l as [| y l IH]; cbn [url.insert_sorted].
  - intros [<- | []]. left. reflexivity.
  - destruct (String.leb k y).
    + intros [<- | H]; [left; reflexivity | right; exact H].
    + intros [<- | H]; [right; left; reflexivity |].
      destruct (IH H) as [-> | H']; [left; reflexivity | right; right; exact H'].
Qed.

Lemma sorted_keys_length (v : url.Values) :
  List.length (url.sorted_keys v) = size v.
Proof.
  unfold url.sorted_keys.
  assert (Hl : forall l, List.length (foldr url.insert_sorted [] l)
                         = List.length l).
  { induction l as [| k l IH]; [reflexivity |].
    cbn [foldr]. rewrite insert_sorted_length, IH. reflexivity. }
  rewrite Hl, length_map. apply length_map_to_list.
Qed.

Lemma sorted_keys_In (v : url.Values) k :
  In k (url.sorted_keys v) -> is_Some (v !! k).
Proof.
  unfold url.sorted_keys.
  assert (Hl : forall l, In k (foldr url.insert_sorted [] l) -> In k l).
  { induction l as [| y l IH]; [intros [] |].
    cbn [foldr]. intros H. destruct (insert_sorted_In _ _ _ H) as [-> | H'];
      [left; reflexivity | right; exact (IH H')]. }
  intros H. apply Hl in H. apply in_map_iff in H.
  destruct H as ([k' vs] & <- & Hin). cbn [fst].
  apply list_elem_of_In, elem_of_map_to_list in Hin. exists vs. exact Hin.
Qed.

(** Built with [Set] alone, every key has one value. *)
Local Abbreviation single_valued :=
  (map_Forall (fun (_ : string) (vs : list string) => List.length vs = 1%nat)).

Lemma pairs_length (v : url.Values) :
  single_valued v -> List.length (url.pairs v) = size v.
Proof.
  intros Hv. rewrite <- sorted_keys_length. unfold url.pairs.
  assert (Hl : forall l,
             (forall k, In k l -> is_Some (v !! k)) ->
             List.length
               (flat_map (fun k => map (pair k) (default [] (v !! k))) l)
             = List.length l).
  { induction l as [| k l IH]; intros Hin; [reflexivity |].
    cbn [flat_map]. rewrite length_app, length_map.
    destruct (Hin k (or_introl eq_refl)) as [vs Hvs]. rewrite Hvs.
    cbn [default from_option id]. rewrite (Hv _ _ Hvs).
    rewrite IH by (intros k' Hk'; apply Hin; right; exact Hk').
    reflexivity. }
  apply Hl. intros k. apply sorted_keys_In.
Qed.

Lemma set_when_single_valued b k x (m : url.Values) :
  single_valued m -> single_valued (set_when b k x m).
Proof.
  intros Hm. unfold set_when, url.Set_. destruct b; [| exact Hm].
  apply map_Forall_insert_2; [reflexivity | exact Hm].
Qed.

Lemma authorization_params_single_valued c opts :
  single_valued (authorization_params c opts).
Proof.
  assert (Hfixed : single_valued (fixed_params c)).
  { unfold fixed_params.
    repeat (apply map_Forall_insert_2; [reflexivity |]).
    apply map_Forall_empty. }
  destruct opts as [o |]; [| exact Hfixed].
  rewrite authorization_params_chain.
  repeat apply set_when_single_valued. exact Hfixed.
Qed.

(** With provider metadata [GetAuthCodeURL] always succeeds, and the query
    it appends to the authorization endpoint has exactly one [=] for each
    parameter set and one [&] between two of them: whatever the client id,
    the redirect URL, the scopes or the caller's options contain, no value
    can bring in a separator, and so a parameter of its own. *)
Theorem GetAuthCodeURL_separators
    (c : Client) (p : OIDCProvider) (opts : option AuthCodeURLOptions) :
  provider c = Some p ->
  exists query,
    GetAuthCodeURL c opts = Ok (AuthorizationEndpoint p ++ "?" ++ query)
    /\ count_char "=" query = size (authorization_params c opts)
    /\ count_char "&" query = (size (authorization_params c opts) - 1)%nat.
Proof.
  intros Hp. exists (url.Encode (authorization_params c opts)).
  split; [unfold GetAuthCodeURL; rewrite Hp; reflexivity |].
  rewrite <- (pairs_length _ (authorization_params_single_valued c opts)).
  apply Encode_separators.
Qed.

End AuthorizationURL.

Lemma GetAuthCodeURL_separators_witness :
  let c := Fixture.client_with Fixture.token_endpoint_ok in
  exists query,
    GetAuthCodeURL c None
    = Ok (AuthorizationEndpoint Fixture.civic ++ "?" ++ query)
    /\ count_char "=" query = size (authorization_params c None)
    /\ count_char "&" query = (size (authorization_params c None) - 1)%nat.
Proof.
  intros c.
  apply (GetAuthCodeURL_separators c Fixture.civic None). reflexivity.
Defined.

Lemma authorization_params_content_witness :
  let params :=
    authorization_params (Fixture.client_with Fixture.token_endpoint_ok)
      (Some {| opt_State := "xyz"; opt_Nonce := ""; opt_CodeChallenge := "";
               opt_Prompt := "login"; opt_MaxAge := 0; opt_LoginHint := "" |}) in
  In "prompt" ["response_type"; "client_id"; "redirect_uri"; "scope";
               "response_mode"; "state"; "nonce"; "code_challenge";
               "code_challenge_method"; "prompt"; "max_age"; "login_hint"].
Proof.
  intros params.
  apply (proj2 (proj2 (authorization_params_content
                         (Fixture.client_with Fixture.token_endpoint_ok)
                         (Some {| opt_State := "xyz"; opt_Nonce := "";
                                  opt_CodeChallenge := ""; opt_Prompt := "login";
                                  opt_MaxAge := 0; opt_LoginHint := "" |})))
           "prompt").
  exists ["login"]. vm_compute. reflexivity.
Defined.

(** * The authorization flow *)

Lemma nonempty_of_length (s : string) (n : nat) :
  String.length s = S n -> String.eqb s "" = false.
Proof. destruct s; [discriminate | reflexivity]. Qed.

(** What a successful [CreateAuthorizationFlow] hands back belongs
    together: the state (22 characters) is the [state] parameter of the URL,
    the S256 challenge of the returned verifier (43 characters) is its
    [code_challenge], with method S256; the URL is the provider's
    authorization endpoint followed by the encoded parameters, and carries
    none of the other optional parameters. *)
Theorem CreateAuthorizationFlow_Ok
    (c : Client) (r_state r_pkce : rand_Reader)
    (authURL state codeVerifier : string) :
  CreateAuthorizationFlow c r_state r_pkce = Ok (authURL, state, codeVerifier) ->
  let codeChallenge :=
    base64.RawURLEncoding_EncodeToString
      (sha256.Sum256 (list_byte_of_string codeVerifier)) in
  let params :=
    authorization_params c
      (Some {| opt_State := state; opt_Nonce := "";
               opt_CodeChallenge := codeChallenge; opt_Prompt := "";
               opt_MaxAge := 0; opt_LoginHint := "" |}) in
  (exists p, provider c = Some p
             /\ authURL = AuthorizationEndpoint p ++ "?" ++ url.Encode params)
  /\ generateState r_state = Ok state
  /\ generateCodeChallenge r_pkce = Ok (codeVerifier, codeChallenge)
  /\ String.length state = 22%nat
  /\ String.length codeVerifier = 43%nat
  /\ params !! "state" = Some [state]
  /\ params !! "code_challenge" = Some [codeChallenge]
  /\ params !! "code_challenge_method" = Some ["S256"]
  /\ params !! "nonce" = None
  /\ params !! "prompt" = None
  /\ params !! "max_age" = None
  /\ params !! "login_hint" = None.
Proof.
  unfold CreateAuthorizationFlow, outcome_bind.
  destruct (generateState r_state) as [st | e |] eqn:Hst; cbn [wrap_err];
    try discriminate.
  destruct (generateCodeChallenge r_pkce) as [[v ch] | e |] eqn:Hpk;
    cbn [wrap_err]; try discriminate.
  cbv zeta. cbn [fst snd].
  destruct (generateCodeChallenge_Ok_inv _ _ _ Hpk) as (Hch & Hchlen & Hvlen).
  pose proof (generateState_Ok_length _ _ Hst) as Hstlen.
  unfold GetAuthCodeURL.
  destruct (provider c) as [p |]; cbn [wrap_err]; [| discriminate].
  cbv zeta. intros [= <- <- <-]. rewrite <- Hch.
  destruct (authorization_params_options c
              {| opt_State := st; opt_Nonce := "";
                 opt_CodeChallenge := ch; opt_Prompt := "";
                 opt_MaxAge := 0; opt_LoginHint := "" |})
    as (Hs & Hn & Hc & Hm & Hp & Hl & Ha).
  cbn [opt_State opt_Nonce opt_CodeChallenge opt_Prompt opt_MaxAge
         opt_LoginHint] in *.
  rewrite (nonempty_of_length _ _ Hstlen) in Hs.
  rewrite (nonempty_of_length _ _ Hchlen) in Hc, Hm.
  split; [exists p; split; reflexivity |].
  repeat split; assumption.
Qed.

Lemma CreateAuthorizationFlow_Ok_witness :
  let c := Fixture.client_with Fixture.token_endpoint_ok in
  let state := "AAAAAAAAAAAAAAAAAAAAAA" in
  let codeVerifier := "AxQlNkdYaXqLnK2-z-DxAhMkNUZXaHmKm6y9zt_wARI" in
  exists authURL,
    CreateAuthorizationFlow c Fixture.zeros Fixture.counting
    = Ok (authURL, state, codeVerifier)
    /\ String.length state = 22%nat
    /\ String.length codeVerifier = 43%nat.
Proof.
  intros c state codeVerifier.
  assert (H : exists authURL,
             CreateAuthorizationFlow c Fixture.zeros Fixture.counting
             = Ok (authURL, state, codeVerifier))
    by (eexists; vm_compute; reflexivity).
  destruct H as [authURL H]. exists authURL. split; [exact H |].
  pose proof (CreateAuthorizationFlow_Ok c Fixture.zeros Fixture.counting
                authURL state codeVerifier H) as (_ & _ & _ & H1 & H2 & _).
  split; assumption.
Defined.

(** * A client without provider metadata *)

Section ProviderMissing.

Variable http_NewRequest : string -> string -> option error.
Variable json_Unmarshal_TokenResponse : string -> outcome TokenResponse.
Variable json_Unmarshal_UserInfo : string -> outcome UserInfo.
Variable json_Unmarshal_JWKSet : string -> outcome JWKSet.

(** A client whose provider metadata is missing (the zero value, or one for
    which discovery never ran) fails every operation that needs an endpoint
    with an error, and sends no request doing so. *)
Theorem provider_missing (c : Client) (n : nat) :
  provider c = None ->
  (forall opts,
     GetAuthCodeURL c opts = Err (Errorf "provider not initialized" []))
  /\ (forall code codeVerifier,
        Client_ExchangeCodeForTokens http_NewRequest
          json_Unmarshal_TokenResponse c code codeVerifier n
        = (Err (Errorf "provider not initialized" []), n))
  /\ (forall refreshToken,
        Client_RefreshToken http_NewRequest json_Unmarshal_TokenResponse
          c refreshToken n
        = (Err (Errorf "provider not initialized" []), n))
  /\ (forall accessToken,
        Client_GetUserInfo http_NewRequest json_Unmarshal_UserInfo
          c accessToken n
        = (Err (Errorf "provider not initialized" []), n))
  /\ (forall redirect hint,
        GetLogoutURL c redirect hint
        = Err (Errorf "logout endpoint not available" []))
  /\ (forall tm,
        tm_Client tm = c ->
        fetchJWKSet http_NewRequest json_Unmarshal_JWKSet tm
        = (Err (Errorf "provider not initialized" []), tm)).
Proof.
  intros Hp. repeat split; intros.
  - unfold GetAuthCodeURL. rewrite Hp. reflexivity.
  - unfold Client_ExchangeCodeForTokens. rewrite Hp. reflexivity.
  - unfold Client_RefreshToken. rewrite Hp. reflexivity.
  - unfold Client_GetUserInfo. rewrite Hp. reflexivity.
  - unfold GetLogoutURL. rewrite Hp. reflexivity.
  - unfold fetchJWKSet, bind, get. subst c. rewrite Hp. reflexivity.
Qed.

End ProviderMissing.

Lemma provider_missing_witness :
  GetAuthCodeURL Fixture.client_without_provider None
  = Err (Errorf "provider not initialized" []).
Proof.
  refine (proj1 (provider_missing Fixture.NewRequest_ok Fixture.decode_refreshed
                   Fixture.decode_userinfo Fixture.decode_jwks
                   Fixture.client_without_provider 0%nat _) None).
  reflexivity.
Defined.

(** * Token exchange and user info *)

Section ExchangeFacts.

Variable http_NewRequest : string -> string -> option error.
Variable json_Unmarshal_TokenResponse : string -> outcome TokenResponse.
Variable json_Unmarshal_UserInfo : string -> outcome UserInfo.

Local Abbreviation exchange :=
  (Client_ExchangeCodeForTokens http_NewRequest json_Unmarshal_TokenResponse).
Local Abbreviation userinfo :=
  (Client_GetUserInfo http_NewRequest json_Unmarshal_UserInfo).

(** [ExchangeCodeForTokens] returns a token set exactly when the provider is
    known, the request is built, the token endpoint answers the one request
    sent with 200 and the body decodes. The form of that request has the
    five fixed fields and, exactly when the verifier is not empty, the
    [code_verifier]. *)
Theorem ExchangeCodeForTokens_Ok_iff
    (c : Client) (code codeVerifier : string) (n n' : nat) (t : TokenResponse) :
  (exchange c code codeVerifier n = (Ok t, n')
   <-> exists p body,
         provider c = Some p
         /\ http_NewRequest "POST" (TokenEndpoint p) = None
         /\ Do (HTTPClient (config c)) n
              (exchange_request c p code codeVerifier) = Response 200 body
         /\ json_Unmarshal_TokenResponse body = Ok t
         /\ n' = S n)
  /\ forall p,
       req_form (exchange_request c p code codeVerifier)
       = ([("client_id", ClientID (config c));
           ("client_secret", ClientSecret (config c));
           ("code", code)]
          ++ (if String.eqb codeVerifier "" then []
              else [("code_verifier", codeVerifier)])
          ++ [("grant_type", "authorization_code");
              ("redirect_uri", RedirectURL (config c))])%list.
Proof.
  split.
  - unfold Client_ExchangeCodeForTokens. split.
    + destruct (provider c) as [p |]; [| discriminate].
      destruct (http_NewRequest "POST" (TokenEndpoint p)) eqn:Hreq;
        [discriminate |].
      cbv zeta. unfold bind, round_trip.
      destruct (Do _ _ _) as [e | st e | st body] eqn:Hdo; try discriminate.
      destruct (st =? http_StatusOK) eqn:Hst; cbn [negb]; [| discriminate].
      apply Z.eqb_eq in Hst. subst st. unfold lift.
      destruct (json_Unmarshal_TokenResponse body) eqn:Hdec; cbn [wrap_err];
        try discriminate.
      intros [= -> <-]. exists p, body. auto.
    + intros (p & body & -> & -> & Hdo & Hdec & ->).
      cbv zeta. unfold bind, round_trip. rewrite Hdo. cbn. rewrite Hdec.
      reflexivity.
  - intros p. unfold exchange_request, exchange_form. cbn [req_form].
    destruct (String.eqb codeVerifier ""); reflexivity.
Qed.

(** [GetUserInfo] sends the access token as a bearer token, and returns the
    user info exactly when the provider is known, the request is built, the
    userinfo endpoint answers the one request sent with 200 and the body
    decodes; any other status is reported with the status and the raw
    body. *)
Theorem GetUserInfo_Ok_iff
    (c : Client) (accessToken : string) (n n' : nat) (u : UserInfo) :
  (userinfo c accessToken n = (Ok u, n')
   <-> exists p body,
         provider c = Some p
         /\ http_NewRequest "GET" (UserinfoEndpoint p) = None
         /\ Do (HTTPClient (config c)) n (userinfo_request p accessToken)
            = Response 200 body
         /\ json_Unmarshal_UserInfo body = Ok u
         /\ n' = S n)
  /\ (forall p, In ("Authorization", "Bearer " ++ accessToken)
                   (req_header (userinfo_request p accessToken)))
  /\ (forall p status body,
        provider c = Some p ->
        http_NewRequest "GET" (UserinfoEndpoint p) = None ->
        Do (HTTPClient (config c)) n (userinfo_request p accessToken)
        = Response status body ->
        status <> 200 ->
        userinfo c accessToken n
        = (Err (Errorf "userinfo request failed with status %d: %s"
                  [AInt status; AStr body]), S n)).
Proof.
  split; [| split].
  - unfold Client_GetUserInfo. split.
    + destruct (provider c) as [p |]; [| discriminate].
      destruct (http_NewRequest "GET" (UserinfoEndpoint p)) eqn:Hreq;
        [discriminate |].
      cbv zeta. unfold bind, round_trip.
      destruct (Do _ _ _) as [e | st e | st body] eqn:Hdo; try discriminate.
      destruct (st =? http_StatusOK) eqn:Hst; cbn [negb]; [| discriminate].
      apply Z.eqb_eq in Hst. subst st. unfold lift.
      destruct (json_Unmarshal_UserInfo body) eqn:Hdec; cbn [wrap_err];
        try discriminate.
      intros [= -> <-]. exists p, body. auto.
    + intros (p & body & -> & -> & Hdo & Hdec & ->).
      cbv zeta. unfold bind, round_trip. rewrite Hdo. cbn. rewrite Hdec.
      reflexivity.
  - intros p. left. reflexivity.
  - intros p status body Hp Hreq Hdo Hst.
    unfold Client_GetUserInfo. rewrite Hp, Hreq.
    cbv zeta. unfold bind, round_trip. rewrite Hdo.
    apply Z.eqb_neq in Hst. unfold http_StatusOK. rewrite Hst. reflexivity.
Qed.

End ExchangeFacts.

Lemma ExchangeCodeForTokens_Ok_iff_witness :
  Client_ExchangeCodeForTokens Fixture.NewRequest_ok Fixture.decode_refreshed
    (Fixture.client_with Fixture.civic_server) "auth-code" "verifier" 0%nat
  = (Ok Fixture.refreshed, 1%nat).
Proof.
  apply (proj2 (proj1 (ExchangeCodeForTokens_Ok_iff Fixture.NewRequest_ok
                         Fixture.decode_refreshed
                         (Fixture.client_with Fixture.civic_server)
                         "auth-code" "verifier" 0%nat 1%nat
                         Fixture.refreshed))).
  exists Fixture.civic, "{access_token: new-access-token}".
  repeat split; reflexivity.
Defined.

Lemma GetUserInfo_Ok_iff_witness :
  fst (Client_GetUserInfo Fixture.NewRequest_ok Fixture.decode_userinfo
         (Fixture.client_with Fixture.civic_server) "new-access-token" 0%nat)
  = Fixture.decode_userinfo "{sub: user123}"
  /\ Client_GetUserInfo Fixture.NewRequest_ok Fixture.decode_userinfo
       (Fixture.client_with Fixture.civic_server) "stale-token" 0%nat
     = (Err (Errorf "userinfo request failed with status %d: %s"
               [AInt 401; AStr "{error: invalid_token}"]), 1%nat).
Proof.
  split; [reflexivity |].
  apply (proj2 (proj2 (GetUserInfo_Ok_iff Fixture.NewRequest_ok
                         Fixture.decode_userinfo
                         (Fixture.client_with Fixture.civic_server)
                         "stale-token" 0%nat 0%nat
                         {| ui_Sub := ""; ui_Name := ""; ui_GivenName := "";
                            ui_FamilyName := ""; ui_MiddleName := "";
                            ui_Nickname := ""; ui_PreferredUsername := "";
                            ui_Profile := ""; ui_Picture := "";
                            ui_Website := ""; ui_Email := "";
                            ui_EmailVerified := false; ui_Gender := "";
                            ui_Birthdate := ""; ui_Zoneinfo := "";
                            ui_Locale := ""; ui_PhoneNumber := "";
                            ui_PhoneVerified := false; ui_UpdatedAt := 0 |}))
           Fixture.civic 401 "{error: invalid_token}");
    solve [reflexivity | discriminate].
Defined.

(** * The logout URL *)

(** With an end-session endpoint, [GetLogoutURL] always succeeds. Without
    arguments the URL is the endpoint itself, with no question mark; with
    arguments they follow it, escaped, the token hint first. *)
Theorem GetLogoutURL_shape (c : Client) (p : OIDCProvider)
    (redirect hint : string) :
  provider c = Some p ->
  EndSessionEndpoint p <> "" ->
  GetLogoutURL c redirect hint =
    Ok (EndSessionEndpoint p
        ++ match String.eqb redirect "", String.eqb hint "" with
           | true, true => ""
           | false, true =>
               "?post_logout_redirect_uri=" ++ url.QueryEscape redirect
           | true, false => "?id_token_hint=" ++ url.QueryEscape hint
           | false, false =>
               "?id_token_hint=" ++ url.QueryEscape hint
               ++ "&post_logout_redirect_uri=" ++ url.QueryEscape redirect
           end).
Proof.
  intros Hp Hend. unfold GetLogoutURL. rewrite Hp.
  apply String.eqb_neq in Hend. rewrite Hend. cbv zeta.
  generalize (EndSessionEndpoint p). intros ep.
  destruct (String.eqb redirect ""), (String.eqb hint ""); cbn [negb].
  - change (0 <? size (∅ : url.Values))%nat with false. cbv iota.
    f_equal. induction ep as [| a ep IH]; [reflexivity |].
    change (String a ep = String a (ep ++ "")). f_equal. exact IH.
  - reflexivity.
  - reflexivity.
  - reflexivity.
Qed.

Lemma GetLogoutURL_shape_witness :
  GetLogoutURL Fixture.client_with_logout "" ""
  = Ok "https://auth.civic.com/logout"
  /\ GetLogoutURL Fixture.client_with_logout "http://localhost:8080/" "tok"
     = Ok "https://auth.civic.com/logout?id_token_hint=tok&post_logout_redirect_uri=http%3A%2F%2Flocalhost%3A8080%2F".
Proof.
  rewrite !(GetLogoutURL_shape Fixture.client_with_logout
              Fixture.civic_with_logout) by (reflexivity || discriminate).
  split; reflexivity.
Defined.

(** * Configuration and client construction *)

Section ConfigFacts.

Variable http_default_Client : http_Client.

Local Abbreviation validate := (Validate http_default_Client).

(** [Validate] asks for the client id, the client secret, the redirect URL
    and the issuer, in this order, and reports the first one that is empty.
    With all four it succeeds: they are kept as given, empty scopes become
    the three default scopes, a zero timeout becomes 30 seconds, a missing
    HTTP client becomes the default client, and what was given otherwise is
    kept; a validated configuration never has empty scopes or a zero
    timeout. *)
Theorem Validate_required_fields (c : Config_unvalidated) :
  (given_ClientID c = "" ->
   validate c = Err (Errorf "client ID is required" []))
  /\ (given_ClientID c <> "" -> given_ClientSecret c = "" ->
      validate c = Err (Errorf "client secret is required" []))
  /\ (given_ClientID c <> "" -> given_ClientSecret c <> "" ->
      given_RedirectURL c = "" ->
      validate c = Err (Errorf "redirect URL is required" []))
  /\ (given_ClientID c <> "" -> given_ClientSecret c <> "" ->
      given_RedirectURL c <> "" -> given_Issuer c = "" ->
      validate c = Err (Errorf "issuer URL is required" []))
  /\ (given_ClientID c <> "" -> given_ClientSecret c <> "" ->
      given_RedirectURL c <> "" -> given_Issuer c <> "" ->
      exists cfg,
        validate c = Ok cfg
        /\ ClientID cfg = given_ClientID c
        /\ ClientSecret cfg = given_ClientSecret c
        /\ RedirectURL cfg = given_RedirectURL c
        /\ Issuer cfg = given_Issuer c
        /\ Scopes cfg = match given_Scopes c with
                        | [] => ["openid"; "profile"; "email"]
                        | _ => given_Scopes c
                        end
        /\ Timeout cfg = (if given_Timeout c =? 0 then 30000000000
                          else given_Timeout c)
        /\ HTTPClient cfg = default http_default_Client (given_HTTPClient c)
        /\ Scopes cfg <> []
        /\ Timeout cfg <> 0).
Proof.
  unfold Validate. repeat split.
  - intros ->. reflexivity.
  - intros H1 ->. apply String.eqb_neq in H1. rewrite H1. reflexivity.
  - intros H1 H2 ->. apply String.eqb_neq in H1, H2. rewrite H1, H2.
    reflexivity.
  - intros H1 H2 H3 ->. apply String.eqb_neq in H1, H2, H3.
    rewrite H1, H2, H3. reflexivity.
  - intros H1 H2 H3 H4. apply String.eqb_neq in H1, H2, H3, H4.
    rewrite H1, H2, H3, H4. cbv zeta. eexists. split; [reflexivity |].
    cbn [ClientID ClientSecret RedirectURL Issuer Scopes Timeout HTTPClient].
    repeat split;
      try (destruct (given_Scopes c); (reflexivity || discriminate));
      try (destruct (given_HTTPClient c); reflexivity).
    destruct (given_Timeout c =? 0) eqn:E; [discriminate |].
    apply Z.eqb_neq in E. exact E.
Qed.

(** Validating a validated configuration changes nothing. *)
Theorem Validate_idempotent (c : Config_unvalidated) (cfg : Config) :
  validate c = Ok cfg -> validate (revalidate cfg) = Ok cfg.
Proof.
  unfold Validate.
  destruct (String.eqb (given_ClientID c) "") eqn:H1; [discriminate |].
  destruct (String.eqb (given_ClientSecret c) "") eqn:H2; [discriminate |].
  destruct (String.eqb (given_RedirectURL c) "") eqn:H3; [discriminate |].
  destruct (String.eqb (given_Issuer c) "") eqn:H4; [discriminate |].
  cbv zeta. intros [= <-].
  cbn [revalidate given_ClientID given_ClientSecret given_RedirectURL
         given_Issuer given_Scopes given_HTTPClient given_Timeout
         ClientID ClientSecret RedirectURL Issuer Scopes HTTPClient Timeout].
  rewrite H1, H2, H3, H4.
  assert (Hs : (List.length
                  (if (List.length (given_Scopes c) =? 0)%nat
                   then default_Scopes else given_Scopes c) =? 0)%nat = false).
  { destruct (given_Scopes c); reflexivity. }
  assert (Ht : ((if given_Timeout c =? 0 then 30 * time_Second
                 else given_Timeout c) =? 0) = false).
  { destruct (given_Timeout c =? 0) eqn:E; [reflexivity | exact E]. }
  rewrite Hs, Ht. reflexivity.
Qed.

End ConfigFacts.

Lemma Validate_required_fields_witness :
  exists cfg,
    Validate Fixture.default_client Fixture.minimal_config = Ok cfg
    /\ Scopes cfg = ["openid"; "profile"; "email"]
    /\ Timeout cfg = 30000000000.
Proof.
  destruct (Validate_required_fields Fixture.default_client
              Fixture.minimal_config) as (_ & _ & _ & _ & H).
  destruct H as (cfg & Hv & _ & _ & _ & _ & Hs & Ht & _);
    try discriminate.
  exists cfg. split; [exact Hv |]. split; [exact Hs | exact Ht].
Defined.

Lemma Validate_idempotent_witness :
  exists cfg,
    Validate Fixture.default_client Fixture.minimal_config = Ok cfg
    /\ Scopes cfg = ["openid"; "profile"; "email"]
    /\ Timeout cfg = 30 * time_Second
    /\ Validate Fixture.default_client (revalidate cfg) = Ok cfg.
Proof.
  eexists. split; [reflexivity |]. split; [reflexivity |].
  split; [reflexivity |].
  apply (Validate_idempotent Fixture.default_client Fixture.minimal_config).
  reflexivity.
Defined.

(** * Discovery *)

Section TrimFacts.

Lemma append_cons a (s1 s2 : string) :
  String a s1 ++ s2 = String a (s1 ++ s2).
Proof. reflexivity. Qed.

Lemma length_append_slash s : String.length (s ++ "/") = S (String.length s).
Proof.
  induction s as [| a s IH]; [reflexivity |].
  rewrite append_cons. cbn [String.length]. now rewrite IH.
Qed.

Lemma substring_last_slash s :
  substring (String.length s) 1 (s ++ "/") = "/".
Proof.
  induction s as [| a s IH]; [reflexivity |].
  rewrite append_cons. cbn [String.length substring]. exact IH.
Qed.

Lemma substring_init_slash s :
  substring 0 (String.length s) (s ++ "/") = s.
Proof.
  induction s as [| a s IH]; [reflexivity |].
  rewrite append_cons. cbn [String.length substring]. now rewrite IH.
Qed.

Lemma TrimSuffix_slash s : strings.TrimSuffix (s ++ "/") "/" = s.
Proof.
  unfold strings.TrimSuffix, strings.HasSuffix. cbv zeta.
  rewrite length_append_slash. cbn [String.length].
  replace (S (String.length s) - 1)%nat with (String.length s) by lia.
  rewrite substring_last_slash. cbn. apply substring_init_slash.
Qed.

End TrimFacts.

(** The discovery document is asked for at the issuer, less one trailing
    slash if it has one, followed by [/.well-known/openid_configuration]:
    an issuer configured with the slash and one configured without it lead
    to the same URL. Only one slash is taken off. *)
Theorem wellKnownURL_trailing_slash (issuer : string) :
  wellKnownURL (issuer ++ "/")
  = issuer ++ "/.well-known/openid_configuration"
  /\ (strings.HasSuffix issuer "/" = false ->
      wellKnownURL issuer = wellKnownURL (issuer ++ "/")).
Proof.
  unfold wellKnownURL. rewrite TrimSuffix_slash. split; [reflexivity |].
  intros Hno. unfold strings.TrimSuffix. rewrite Hno. reflexivity.
Qed.

Section NewClientFacts.

Variable http_NewRequest : string -> string -> option error.
Variable json_Decode_OIDCProvider : string -> outcome OIDCProvider.
Variable http_default_Client : http_Client.

Local Abbreviation newClient :=
  (NewClient http_NewRequest json_Decode_OIDCProvider http_default_Client).

(** A configuration that does not validate makes [NewClient] fail before
    anything is sent. *)
Theorem NewClient_invalid_config (cfg : Config_unvalidated) (e : error)
    (n : nat) :
  Validate http_default_Client cfg = Err e ->
  newClient cfg n = (Err (Errorf "invalid config: %w" [AErr e]), n).
Proof.
  intros Hv. unfold NewClient, bind, lift. rewrite Hv. reflexivity.
Qed.

(** A client that [NewClient] returns has a validated configuration and the
    provider metadata that the one discovery request, answered with 200,
    decoded to; building an authorization URL with it cannot fail. *)
Theorem NewClient_Ok (cfg : Config_unvalidated) (n n' : nat) (client : Client) :
  newClient cfg n = (Ok client, n') ->
  Validate http_default_Client cfg = Ok (config client)
  /\ (exists p body,
        provider client = Some p
        /\ Do (HTTPClient (config client)) n
             (discovery_request (Issuer (config client))) = Response 200 body
        /\ json_Decode_OIDCProvider body = Ok p
        /\ forall opts,
             GetAuthCodeURL client opts
             = Ok (AuthorizationEndpoint p ++ "?"
                   ++ url.Encode (authorization_params client opts)))
  /\ n' = S n.
Proof.
  unfold NewClient, bind at 1, lift.
  destruct (Validate http_default_Client cfg) as [vcfg | e |] eqn:Hv;
    cbn [wrap_err]; try discriminate.
  unfold wrapping, discoverProvider. cbn [config].
  fold (discovery_request (Issuer vcfg)).
  destruct (http_NewRequest "GET" (wellKnownURL (Issuer vcfg)));
    [discriminate |].
  unfold bind, round_trip. cbn [config].
  destruct (Do (HTTPClient vcfg) n (discovery_request (Issuer vcfg)))
    as [e | st e | st body] eqn:Hdo; try discriminate.
  - destruct (negb (st =? http_StatusOK)); discriminate.
  - destruct (st =? http_StatusOK) eqn:Hst; cbn [negb]; [| discriminate].
    apply Z.eqb_eq in Hst. subst st. unfold lift.
    destruct (json_Decode_OIDCProvider body) as [p | e |] eqn:Hdec;
      cbn [wrap_err]; try discriminate.
    unfold ret. cbn [wrap_err]. intros [= <- <-]. cbn [config provider].
    split; [reflexivity |]. split; [| reflexivity].
    exists p, body. repeat split; try assumption.
Qed.

End NewClientFacts.

Lemma NewClient_invalid_config_witness :
  NewClient Fixture.NewRequest_ok Fixture.decode_provider Fixture.default_client
    (DefaultConfig Fixture.default_client) 0%nat
  = (Err (Errorf "invalid config: %w"
            [AErr (Errorf "client ID is required" [])]), 0%nat).
Proof.
  apply (NewClient_invalid_config Fixture.NewRequest_ok Fixture.decode_provider
           Fixture.default_client (DefaultConfig Fixture.default_client)
           (Errorf "client ID is required" []) 0%nat).
  reflexivity.
Defined.

Lemma NewClient_Ok_witness :
  NewClient Fixture.NewRequest_ok Fixture.decode_provider
    Fixture.default_client Fixture.minimal_config 0%nat
  = (Ok Fixture.discovered_client, 1%nat)
  /\ Validate Fixture.default_client Fixture.minimal_config
     = Ok (config Fixture.discovered_client).
Proof.
  split; [reflexivity |].
  refine (proj1 (NewClient_Ok Fixture.NewRequest_ok Fixture.decode_provider
                   Fixture.default_client Fixture.minimal_config
                   0%nat 1%nat Fixture.discovered_client _)).
  reflexivity.
Defined.

Lemma wellKnownURL_trailing_slash_witness :
  wellKnownURL "https://auth.civic.com"
  = wellKnownURL "https://auth.civic.com/".
Proof.
  apply (proj2 (wellKnownURL_trailing_slash "https://auth.civic.com")).
  reflexivity.
Defined.
